(** * cube_processor: the Gaussian cube reader and its analyser

    A shallow embedding of [cube_processor.py].  The class [CubeFile] is a
    record, [load_from] is a function from the text of the file to either a
    record or the exception Python raises, the analyser methods are functions
    of the record, and [main] is a function from the parsed command line and
    the text of the file to what it prints and how it ends.

    Numbers are the ones the program computes with: Python's unbounded [int]
    is [Z], and [float] / [numpy.float64] is the IEEE 754 binary64 type
    [PrimFloat.float], so every rounding of the program is a rounding here.

    Three functions of the Python and NumPy libraries are used by the program
    and are not part of it; they are written out below from their documented
    behaviour:
    - [str.split], [int] and [float] on ASCII text;
    - [numpy.fromstring] in text mode, which reads numbers until the first
      piece of text that is not one; what it does then depends on the NumPy
      that runs the program, and both behaviours are modelled
      ([NumPy.unread_text]); for white space that no number follows, at the
      start of the text, it stores the value -1.0, and so does the model;
    - [numpy.sum] with the order in which NumPy adds: in order below eight
      values, in eight interleaved running sums from eight values on, and by
      halves beyond 128 values ([NumPy.pairwise_sum]);
    - [numpy.min], [numpy.max] as in-order reductions and [numpy.argsort] as
      a stable sort.

    The text given to [load_from] is the content of the file as Python's
    text mode delivers it, with every line end a single newline character,
    and the [assert] statements of the program are executed (the interpreter
    does not run with [-O]). *)

From Stdlib Require Import ZArith List Bool Ascii String Lia Floats Permutation Sorted.
Import ListNotations.

Set Implicit Arguments.

(** ** Exceptions and the error monad *)

Inductive exn : Type :=
| AssertionError (msg : option string)
| ValueError
| IndexError.

Inductive result (A : Type) : Type :=
| Ok (a : A)
| Raise (e : exn).

Arguments Ok {A} a.
Arguments Raise {A} e.

Definition bind {A B : Type} (r : result A) (k : A -> result B) : result B :=
  match r with
  | Ok a => k a
  | Raise e => Raise e
  end.

Notation "x <- r ;; k" := (bind r (fun x => k))
  (at level 61, r at next level, right associativity).
Notation "' p <- r ;; k" := (bind r (fun x => match x with p => k end))
  (at level 61, p pattern, r at next level, right associativity).
Notation "r ;;; k" := (bind r (fun _ => k))
  (at level 61, right associativity).

(** [assert cond, msg] *)
Definition py_assert (cond : bool) (msg : option string) : result unit :=
  if cond then Ok tt else Raise (AssertionError msg).

Definition is_ok {A : Type} (r : result A) : bool :=
  match r with Ok _ => true | Raise _ => false end.

(** ** Text: [readline] and [str.split] *)

Module Text.

Open Scope char_scope.

Definition newline : ascii := ascii_of_nat 10.

(** Python's ASCII white space: tab, line feed, vertical tab, form feed,
    carriage return, the four separators 28..31 and the space. *)
Definition py_isspace (c : ascii) : bool :=
  let n := nat_of_ascii c in
  ((9 <=? n) && (n <=? 13) || (28 <=? n) && (n <=? 32))%nat.

(** C's [isspace] in the "C" locale, which [numpy.fromstring] uses. *)
Definition c_isspace (c : ascii) : bool :=
  let n := nat_of_ascii c in
  ((9 <=? n) && (n <=? 13) || (n =? 32))%nat.

Definition is_digit (c : ascii) : bool :=
  let n := nat_of_ascii c in ((48 <=? n) && (n <=? 57))%nat.

Definition digit_val (c : ascii) : Z := Z.of_nat (nat_of_ascii c) - 48.

Definition lower (c : ascii) : ascii :=
  let n := nat_of_ascii c in
  if ((65 <=? n) && (n <=? 90))%nat then ascii_of_nat (n + 32) else c.

(** [f.readline()]: the text up to and including the next line feed, and
    what is left of the stream. *)
Fixpoint readline (s : string) : string * string :=
  match s with
  | EmptyString => (EmptyString, EmptyString)
  | String c rest =>
      if Ascii.eqb c newline then (String c EmptyString, rest)
      else let (l, r) := readline rest in (String c l, r)
  end.

(** [s.split()]: the maximal runs of characters that are not white space.
    [cur] is the run being read, kept in reverse. *)
Fixpoint split_aux (s : string) (cur : list ascii) : list string :=
  let flush := match cur with
               | [] => []
               | _ => [string_of_list_ascii (rev cur)]
               end in
  match s with
  | EmptyString => flush
  | String c rest =>
      if py_isspace c then flush ++ split_aux rest []
      else split_aux rest (c :: cur)
  end.

Definition split (s : string) : list string := split_aux s [].

(** Joins lines, ending each with a line feed. *)
Fixpoint unlines (ls : list string) : string :=
  match ls with
  | [] => EmptyString
  | l :: ls' => l ++ String newline (unlines ls')
  end.

End Text.

(** ** Numbers in text: [int], [float] and the C number scanner *)

Module Numeric.

Import Text.

(** The correctly rounded binary64 value of [(-1)^neg * m * 10^e10], as
    [float] and C's [strtod] compute it (round to nearest, ties to even;
    overflow gives an infinity, underflow a subnormal or a zero). *)
Definition decimal_to_float (neg : bool) (m : Z) (e10 : Z) : float :=
  match m with
  | Z0 => if neg then neg_zero else zero
  | Zneg _ => nan
  | Zpos _ =>
      SF2Prim
        (if (0 <=? e10)%Z then
           binary_normalize prec emax
             (cond_Zopp neg (m * 10 ^ e10)) 0 false
         else
           let '(q, e, l) :=
             SFdiv_core_binary prec emax m 0 (10 ^ (- e10)) 0 in
           binary_round_aux prec emax neg q e l)
  end.

(** Reads the longest run of decimal digits: the value accumulated on top
    of [acc], how many digits were read, and the rest of the text. *)
Fixpoint scan_digits (s : string) (acc : Z) (n : Z) : Z * Z * string :=
  match s with
  | String c rest =>
      if is_digit c then scan_digits rest (10 * acc + digit_val c) (n + 1)
      else (acc, n, s)
  | EmptyString => (acc, n, s)
  end.

Definition scan_sign (s : string) : bool * string :=
  match s with
  | String "-" rest => (true, rest)
  | String "+" rest => (false, rest)
  | _ => (false, s)
  end.

(** Drops [word] from the front of [s], comparing letters without case. *)
Fixpoint scan_word (word s : string) : option string :=
  match word, s with
  | EmptyString, _ => Some s
  | String w word', String c rest =>
      if Ascii.eqb w (lower c) then scan_word word' rest else None
  | String _ _, EmptyString => None
  end.

(** The exponent part [e<sign><digits>]; without digits nothing is read. *)
Definition scan_exponent (s : string) : Z * string :=
  match s with
  | String c rest =>
      if Ascii.eqb (lower c) "e" then
        let (eneg, r1) := scan_sign rest in
        let '(ev, ne, r2) := scan_digits r1 0 0 in
        if (ne =? 0)%Z then (0%Z, s) else ((if eneg then - ev else ev)%Z, r2)
      else (0%Z, s)
  | EmptyString => (0%Z, s)
  end.

(** A decimal number at the front of [s], after its sign:
    [digits [. digits] [exponent]] or [. digits [exponent]]. *)
Definition scan_decimal (neg : bool) (s : string) : option (float * string) :=
  let '(ip, ni, s2) := scan_digits s 0 0 in
  let '(mant, nf, s3) :=
    match s2 with
    | String "." r => scan_digits r ip 0
    | _ => (ip, 0%Z, s2)
    end in
  if (ni + nf =? 0)%Z then None
  else
    let (ex, s4) := scan_exponent s3 in
    Some (decimal_to_float neg mant (ex - nf), s4).

(** [inf], [infinity] and [nan] after the sign, in any case. *)
Definition scan_inf_nan (neg : bool) (s : string) : option (float * string) :=
  match scan_word "nan" s with
  | Some r => Some (nan, r)
  | None =>
      match scan_word "inf" s with
      | Some r =>
          let r' := match scan_word "inity" r with Some r2 => r2 | None => r end in
          Some (if neg then neg_infinity else infinity, r')
      | None => None
      end
  end.

(** CPython's [PyOS_string_to_double] with an end pointer: the longest
    number at the front of [s], or nothing. *)
Definition strtod (s : string) : option (float * string) :=
  let (neg, s1) := scan_sign s in
  match scan_decimal neg s1 with
  | Some r => Some r
  | None => scan_inf_nan neg s1
  end.

(** Python allows one underscore between two digits, in [int] and in
    [float]: [ok_underscores] checks that and [drop_underscores] removes
    them.  [prev] is the character before [s]. *)
Fixpoint ok_underscores (prev : ascii) (s : string) : bool :=
  match s with
  | EmptyString => negb (Ascii.eqb prev "_")
  | String c rest =>
      (if Ascii.eqb c "_" then is_digit prev
       else if Ascii.eqb prev "_" then is_digit c else true)
      && ok_underscores c rest
  end.

Fixpoint drop_underscores (s : string) : string :=
  match s with
  | EmptyString => EmptyString
  | String c rest =>
      if Ascii.eqb c "_" then drop_underscores rest
      else String c (drop_underscores rest)
  end.

(** [float(tok)] on a token without white space. *)
Definition py_float (tok : string) : result float :=
  if ok_underscores " " tok then
    match strtod (drop_underscores tok) with
    | Some (x, EmptyString) => Ok x
    | _ => Raise ValueError
    end
  else Raise ValueError.

(** [int(tok)] on a token without white space: a sign and decimal digits. *)
Definition py_int (tok : string) : result Z :=
  if ok_underscores " " tok then
    let (neg, s1) := scan_sign (drop_underscores tok) in
    match scan_digits s1 0 0 with
    | (v, n, EmptyString) =>
        if (n =? 0)%Z then Raise ValueError
        else Ok (if neg then - v else v)%Z
    | _ => Raise ValueError
    end
  else Raise ValueError.

(** NumPy's [NumPyOS_ascii_strtod]: white space is skipped, [nan] may carry
    a parenthesised tag, and everything else is left to [strtod]. *)
Fixpoint skip_space (s : string) : string :=
  match s with
  | String c rest => if c_isspace c then skip_space rest else s
  | EmptyString => s
  end.

Fixpoint scan_nan_tag (s : string) : string :=
  match s with
  | String c rest =>
      let n := nat_of_ascii (lower c) in
      if (is_digit c || Ascii.eqb c "_" || (97 <=? n) && (n <=? 122))%nat%bool
      then scan_nan_tag rest
      else if Ascii.eqb c ")" then rest else s
  | EmptyString => s
  end.

Definition np_strtod (s : string) : option (float * string) :=
  let s0 := skip_space s in
  let (neg, s1) := scan_sign s0 in
  match scan_word "nan" s1 with
  | Some r =>
      Some (nan, match r with String "(" r' => scan_nan_tag r' | _ => r end)
  | None =>
      match scan_word "inf" s1 with
      | Some _ => scan_inf_nan neg s1
      | None => strtod s0
      end
  end.

End Numeric.

Definition vec3 : Type := (float * float * float)%type.

(** ** The NumPy functions the program calls *)

Module NumPy.

Import Text Numeric.

(** What [numpy.fromstring] does with text it could not read to its end.
    NumPy up to 1.17 returns the numbers read so far and says nothing; from
    1.18 on it returns them with a [DeprecationWarning] (which Python does not
    show by default) announcing that this will raise [ValueError]; the
    releases in which the deprecation has expired raise that [ValueError].
    The program does not say which NumPy it runs on, so [load_from] takes the
    behaviour as its first argument. *)
Inductive unread_text : Type :=
| Warns
| Raises.

(** Reading one element.  NumPy's reader of a [float] skips white space and
    parses a number; when there is none it returns -1.0 and leaves the text
    where the white space ended.  The caller takes an element as read when
    the text has moved: so white space that no number follows counts as the
    element -1.0, and only text that starts with something else than white
    space and a number gives no element. *)
Definition next_element (s : string) : option (float * string) :=
  match np_strtod s with
  | Some r => Some r
  | None =>
      match s with
      | String c _ =>
          if c_isspace c then Some ((-1)%float, skip_space s) else None
      | EmptyString => None
      end
  end.

(** One element is read, then white space; reading stops at the end of the
    text, at text that gives no element, and after an element that is
    followed by something other than white space.  The result is the values
    read and whether some text was left unread.  Each round consumes a
    character, so [fuel] beyond the length of the text is never used up
    (lemma [fromstring_fuel] below). *)
Fixpoint fromstring_loop (fuel : nat) (s : string) (acc : list float)
  : list float * bool :=
  match fuel with
  | O => (rev acc, false)
  | S fuel' =>
      match next_element s with
      | None =>
          (rev acc, match s with EmptyString => false | _ => true end)
      | Some (x, rest) =>
          match rest with
          | EmptyString => (rev (x :: acc), false)
          | String c _ =>
              if c_isspace c
              then fromstring_loop fuel' (skip_space rest) (x :: acc)
              else (rev (x :: acc), true)
          end
      end
  end.

(** The values read from a text and whether text is left behind them. *)
Definition read_numbers (s : string) : list float * bool :=
  fromstring_loop (S (String.length s)) s [].

(** [numpy.fromstring(text, dtype=float, sep=' ')] *)
Definition fromstring (np : unread_text) (s : string) : result (list float) :=
  let (a, unread) := read_numbers s in
  match np with
  | Warns => Ok a
  | Raises => if unread then Raise ValueError else Ok a
  end.

(** [r[j] += b[j]] for the eight running sums and a group of eight values. *)
Definition add_each (r b : list float) : list float :=
  map (fun xy => (fst xy + snd xy)%float) (combine r b).

(** The loop over the full groups of eight behind the first: what it leaves
    are the running sums and the values behind the last full group. *)
Fixpoint add_groups (groups : nat) (r a : list float)
  : list float * list float :=
  match groups with
  | O => (r, a)
  | S k => add_groups k (add_each r (firstn 8 a)) (skipn 8 a)
  end.

(** The sum of 8 to 128 values: eight running sums, which start as the first
    eight values, are added in pairs, and the values behind the last full
    group of eight are added in order. *)
Definition block_sum (a : list float) : float :=
  let (r, rest) :=
    add_groups (List.length a / 8 - 1) (firstn 8 a) (skipn 8 a) in
  match r with
  | [r0; r1; r2; r3; r4; r5; r6; r7] =>
      fold_left PrimFloat.add rest
        (((r0 + r1) + (r2 + r3)) + ((r4 + r5) + (r6 + r7)))%float
  | _ => fold_left PrimFloat.add a zero
  end.

(** NumPy's [pairwise_sum]: fewer than eight values are added in order, up
    to 128 values as a block, and more than that are split at half their
    number, rounded down to a multiple of eight.  Every split gives two
    shorter parts, so [fuel] beyond the number of values is never used up
    (lemma [pairwise_sum_fuel] below). *)
Fixpoint pairwise_sum (fuel : nat) (a : list float) : float :=
  let n := List.length a in
  if (n <? 8)%nat then fold_left PrimFloat.add a zero
  else if (n <=? 128)%nat then block_sum a
  else
    match fuel with
    | O => block_sum a
    | S fuel' =>
        let n2 := (n / 2 - (n / 2) mod 8)%nat in
        (pairwise_sum fuel' (firstn n2 a)
         + pairwise_sum fuel' (skipn n2 a))%float
    end.

(** [numpy.sum(a)]: the reduction starts from 0 and adds the pairwise sum of
    the array to it.  (NumPy releases differ in the sign they give a sum
    that is zero; here it is +0.) *)
Definition sum (a : list float) : float :=
  (0 + pairwise_sum (List.length a) a)%float.

(** [numpy.minimum] and [numpy.maximum] keep a NaN once they meet one. *)
Definition minimum (a b : float) : float :=
  if (a <=? b)%float || is_nan a then a else b.

Definition maximum (a b : float) : float :=
  if (b <=? a)%float || is_nan a then a else b.

(** [numpy.min(a)] and [numpy.max(a)]; an empty array has no identity to
    start from and raises [ValueError]. *)
Definition min (a : list float) : result float :=
  match a with
  | [] => Raise ValueError
  | x :: r => Ok (fold_left minimum r x)
  end.

Definition max (a : list float) : result float :=
  match a with
  | [] => Raise ValueError
  | x :: r => Ok (fold_left maximum r x)
  end.

(** [numpy.abs(a)] *)
Definition abs (a : list float) : list float := map PrimFloat.abs a.

(** The order [numpy.argsort] sorts by: the numbers in increasing order,
    then the NaNs. *)
Definition lt (a b : float) : bool :=
  (a <? b)%float || negb (is_nan a) && is_nan b.

(** [a[i]] for an index within the array. *)
Definition item (a : list float) (i : nat) : float := nth i a nan.

(** Index [i] may stand before index [j] in sorted order: the value at
    [j] does not come before the value at [i]. *)
Definition not_after (a : list float) (i j : nat) : Prop :=
  lt (item a j) (item a i) = false.

(** Puts index [i] into a list of indices sorted by their values, behind
    the indices whose value is not larger. *)
Fixpoint insert (a : list float) (i : nat) (sorted : list nat) : list nat :=
  match sorted with
  | [] => [i]
  | j :: rest =>
      if lt (item a i) (item a j) then i :: sorted
      else j :: insert a i rest
  end.

(** [numpy.argsort(a)]: the indices of [a] by increasing value, equal
    values keeping their order. *)
Definition argsort (a : list float) : list nat :=
  fold_left (fun sorted i => insert a i sorted) (seq 0 (List.length a)) [].

(** [numpy.linalg.norm(v)] of a vector of three: the square root of the
    dot product of [v] with itself. *)
Definition norm (v : vec3) : float :=
  let '(a, b, c) := v in sqrt (a * a + b * b + c * c)%float.

End NumPy.

(** ** The parsed file *)

Record Atom : Type := {
  atomic_number : Z;
  nuclear_charge : float;
  position : vec3
}.

(** Everything [load_from] stores before it reads the data. *)
Record Header : Type := {
  comment1 : string;
  comment2 : string;
  origin : vec3;
  data_points_per_grid_point : Z;
  x_grid_points : Z;
  x_axis : vec3;
  y_grid_points : Z;
  y_axis : vec3;
  z_grid_points : Z;
  z_axis : vec3;
  atoms : list Atom
}.

Record CubeFile : Type := {
  header :> Header;
  data : list float
}.

(** ** [CubeFile.load_from] *)

Module Parser.

Import Text Numeric.

(** [parts[i]]; every use follows the assertion on [len(parts)]. *)
Definition part (parts : list string) (i : nat) : string :=
  nth i parts EmptyString.

(** [float(parts[i]), float(parts[i+1]), float(parts[i+2])] *)
Definition floats3 (parts : list string) (i : nat) : result vec3 :=
  a <- py_float (part parts i) ;;
  b <- py_float (part parts (i + 1)) ;;
  c <- py_float (part parts (i + 2)) ;;
  Ok (a, b, c).

Definition dset_ids_msg : string := "DSET_IDs not (yet) supported".

(** The line [NATOMS ORIGIN [NVAL]]: the number of atoms, the origin and
    the number of values per grid point. *)
Definition read_grid_line (line : string) : result (Z * vec3 * Z) :=
  let parts := split line in
  py_assert ((List.length parts =? 4) || (List.length parts =? 5))%nat None ;;;
  n <- py_int (part parts 0) ;;
  let nAtoms := Z.abs n in
  n' <- py_int (part parts 0) ;;
  py_assert (0 <=? n')%Z (Some dset_ids_msg) ;;;
  o <- floats3 parts 1 ;;
  nval <- (if (4 <? List.length parts)%nat then py_int (part parts 4) else Ok 1%Z) ;;
  Ok (nAtoms, o, nval).

(** An axis line: the number of points and the step vector. *)
Definition read_axis_line (line : string) : result (Z * vec3) :=
  let parts := split line in
  py_assert (List.length parts =? 4)%nat None ;;;
  n <- py_int (part parts 0) ;;
  v <- floats3 parts 1 ;;
  Ok (n, v).

Definition read_atom_line (line : string) : result Atom :=
  let parts := split line in
  py_assert (List.length parts =? 5)%nat None ;;;
  an <- py_int (part parts 0) ;;
  nc <- py_float (part parts 1) ;;
  pos <- floats3 parts 2 ;;
  Ok {| atomic_number := an; nuclear_charge := nc; position := pos |}.

(** [for i in range(nAtoms)]: one line per atom, appended in file order. *)
Fixpoint read_atoms (n : nat) (s : string) (acc : list Atom)
  : result (list Atom * string) :=
  match n with
  | O => Ok (rev acc, s)
  | S n' =>
      let (line, s') := readline s in
      a <- read_atom_line line ;;
      read_atoms n' s' (a :: acc)
  end.

(** The part of [load_from] before the data; the second component is what
    [input_file.read()] then returns. *)
Definition read_header (text : string) : result (Header * string) :=
  let (c1, s1) := readline text in
  let (c2, s2) := readline s1 in
  let (l3, s3) := readline s2 in
  '(nAtoms, o, nval) <- read_grid_line l3 ;;
  let (lx, s4) := readline s3 in
  '(nx, vx) <- read_axis_line lx ;;
  let (ly, s5) := readline s4 in
  '(ny, vy) <- read_axis_line ly ;;
  let (lz, s6) := readline s5 in
  '(nz, vz) <- read_axis_line lz ;;
  '(ats, s7) <- read_atoms (Z.to_nat nAtoms) s6 [] ;;
  Ok ({| comment1 := c1; comment2 := c2; origin := o;
         data_points_per_grid_point := nval;
         x_grid_points := nx; x_axis := vx;
         y_grid_points := ny; y_axis := vy;
         z_grid_points := nz; z_axis := vz;
         atoms := ats |}, s7).

(** The right-hand side of the closing assertion. *)
Definition expected_len (h : Header) : Z :=
  (x_grid_points h * y_grid_points h * z_grid_points h
   * data_points_per_grid_point h)%Z.

Definition load_from (np : NumPy.unread_text) (text : string)
  : result CubeFile :=
  '(h, rest) <- read_header text ;;
  d <- NumPy.fromstring np rest ;;
  py_assert (Z.of_nat (List.length d) =? expected_len h)%Z None ;;;
  Ok {| header := h; data := d |}.

End Parser.

(** ** The analyser methods of [CubeFile] *)

(** What [isosurface_threshold_value] returns: the Python [int] of its first
    [return], or an element of the array. *)
Inductive pynum : Type :=
| PyInt (z : Z)
| PyFloat (x : float).

Module Analyzer.

Definition min_value (g : CubeFile) : result float := NumPy.min (data g).

Definition abs_min_value (g : CubeFile) : result float :=
  NumPy.min (NumPy.abs (data g)).

Definition max_value (g : CubeFile) : result float := NumPy.max (data g).

Definition abs_max_value (g : CubeFile) : result float :=
  NumPy.max (NumPy.abs (data g)).

Definition summed_data (g : CubeFile) : float := NumPy.sum (data g).

Definition abs_summed_data (g : CubeFile) : float := NumPy.sum (data g).

Definition volume (g : CubeFile) : float :=
  (NumPy.norm (x_axis g) * NumPy.norm (y_axis g) * NumPy.norm (z_axis g))%float.

Definition integrate (g : CubeFile) : float :=
  (summed_data g * volume g)%float.

(** The loop [for i in reversed(sorted_indices)]: [idx] is what is left of
    the reversed indices, the result is the value the loop returns, if it
    returns. *)
Fixpoint walk (a : list float) (idx : list nat) (target_sum current_sum : float)
  : option float :=
  match idx with
  | [] => None
  | i :: rest =>
      let current_sum := (current_sum + NumPy.item a i)%float in
      if (target_sum <=? current_sum)%float then Some (NumPy.item a i)
      else walk a rest target_sum current_sum
  end.

Definition target_sum (g : CubeFile) (coverage_percent : float) : float :=
  (summed_data g * coverage_percent / 100)%float.

Definition isosurface_threshold_value (g : CubeFile) (coverage_percent : float)
  : result pynum :=
  if (100 <=? coverage_percent)%float then Ok (PyInt 0)
  else
    let sorted_indices := NumPy.argsort (data g) in
    match walk (data g) (rev sorted_indices)
               (target_sum g coverage_percent) 0%float with
    | Some v => Ok (PyFloat v)
    | None =>
        match rev sorted_indices with
        | [] => Raise IndexError
        | i :: _ => Ok (PyFloat (NumPy.item (data g) i))
        end
    end.

End Analyzer.

(** ** [main]

    [main] is modelled from the point where [parser.parse_args()] has
    returned and the file named on the command line has been opened: it takes
    the namespace of the arguments and the text of the file, and gives the
    strings it prints, one for each call of [print], and how it ends.  The
    two library functions that turn numbers into text, [str.format] with the
    specifications [e] and [d], are arguments of the model. *)

Module Cli.

Import Parser Analyzer.
Open Scope string_scope.

(** The namespace [argparse] returns: [--calc-iso-value] has [type=int],
    [nargs="?"] and [const=90], so it is [None] when the option is absent and
    an [int] otherwise. *)
Record Namespace : Type := {
  cube_file : string;
  print_info : bool;
  calc_iso_value : option Z
}.

(** How [main] ends: it returns, or an exception of the reader or of the
    analyser leaves it, or the [OverflowError] of an integer that no [float]
    holds. *)
Inductive ending : Type :=
| Returns
| Uncaught (e : exn)
| OverflowError.

(** The nearest [float] of a Python [int], if there is one. *)
Definition int_to_float (z : Z) : option float :=
  let x := SF2Prim (binary_normalize prec emax z 0 false) in
  if is_infinity x then None else Some x.

(** [cube.isosurface_threshold_value(coverage_percent=c)] for the [int] that
    [main] passes: the first test compares integers, and the product with the
    sum needs the coverage as a [float]. *)
Definition isosurface_threshold_value_of_int (g : CubeFile) (c : Z)
  : pynum + ending :=
  if (100 <=? c)%Z then inl (PyInt 0)
  else
    match int_to_float c with
    | None => inr OverflowError
    | Some p =>
        match isosurface_threshold_value g p with
        | Ok v => inl v
        | Raise e => inr (Uncaught e)
        end
    end.

(** The [float] that the specification [e] formats: an [int] is converted
    first. *)
Definition pynum_float (v : pynum) : float :=
  match v with
  | PyInt z => SF2Prim (binary_normalize prec emax z 0 false)
  | PyFloat x => x
  end.

(** A sequence of [print] statements: each argument is evaluated and printed
    in turn, and the first that raises ends the sequence. *)
Fixpoint prints (stmts : list (string + ending)) : list string * ending :=
  match stmts with
  | [] => ([], Returns)
  | inl s :: rest => let (out, e) := prints rest in (s :: out, e)
  | inr e :: _ => ([], e)
  end.

Section Main.

(** [format_e plus digits x] is ["{:+.<digits>e}".format(x)] when [plus] is
    set and ["{:.<digits>e}".format(x)] otherwise; [format_d z] is
    ["{:d}".format(z)]. *)
Variable format_e : bool -> nat -> float -> string.
Variable format_d : Z -> string.

(** [print(label + "{:+.<digits>e}".format(value))] *)
Definition print_value (label : string) (digits : nat) (value : result float)
  : string + ending :=
  match value with
  | Ok x => inl (label ++ format_e true digits x)
  | Raise e => inr (Uncaught e)
  end.

(** The block under [if args.print_info]. *)
Definition info (path : string) (cube : CubeFile) : list (string + ending) :=
  [inl ("Summary for cube file '" ++ path ++ "':");
   print_value " - Min. value:      " 2 (min_value cube);
   print_value " - Abs. min. value: " 2 (abs_min_value cube);
   print_value " - Max. value:      " 2 (max_value cube);
   print_value " - Abs. max. value: " 2 (abs_max_value cube);
   print_value " - Sum(data):       " 4 (Ok (summed_data cube));
   print_value " - Integrated data: " 4 (Ok (integrate cube))].

(** The [print] under [if args.calc_iso_value]. *)
Definition iso_value (cube : CubeFile) (c : Z) : string + ending :=
  match isosurface_threshold_value_of_int cube c with
  | inl v =>
      inl ("To create an isosurface enclosing " ++ format_d c
           ++ "% of the contained property, use a threshold of"
           ++ String Text.newline (format_e false 4 (pynum_float v)))
  | inr e => inr e
  end.

(** [main]; a coverage of 0 is as false as [None] in [if
    args.calc_iso_value]. *)
Definition main (np : NumPy.unread_text) (text : string) (args : Namespace)
  : list string * ending :=
  match load_from np text with
  | Raise e => ([], Uncaught e)
  | Ok cube =>
      prints ((if print_info args then info (cube_file args) cube else [])
              ++ match calc_iso_value args with
                 | Some c => if (c =? 0)%Z then [] else [iso_value cube c]
                 | None => []
                 end)
  end.

End Main.

End Cli.

(** ** The lines of a file, as [load_from] meets them *)

Module Lines.

Import Text.

(** What is left of the stream after [k] calls of [readline]. *)
Fixpoint drop_lines (k : nat) (text : string) : string :=
  match k with
  | O => text
  | S k' => drop_lines k' (snd (readline text))
  end.

(** Line [k] of the file, counted from 0, and its fields. *)
Definition line (k : nat) (text : string) : string :=
  fst (readline (drop_lines k text)).

Definition fields (k : nat) (text : string) : list string :=
  split (line k text).

(** The grid-definition line is line 2, the axis lines are 3, 4 and 5, the
    atom lines follow from line 6. *)
Definition numeric_axis_fields (parts : list string) : Prop :=
  is_ok (Numeric.py_int (Parser.part parts 0)) = true /\
  forall i, (1 <= i <= 3)%nat ->
            is_ok (Numeric.py_float (Parser.part parts i)) = true.

Definition numeric_grid_fields (parts : list string) : Prop :=
  numeric_axis_fields parts /\
  (List.length parts = 5%nat ->
   is_ok (Numeric.py_int (Parser.part parts 4)) = true).

Definition numeric_atom_fields (parts : list string) : Prop :=
  is_ok (Numeric.py_int (Parser.part parts 0)) = true /\
  forall i, (1 <= i <= 4)%nat ->
            is_ok (Numeric.py_float (Parser.part parts i)) = true.

End Lines.

(** ** Properties of the threshold, in the words of the specification *)

Module Stated.

Import Analyzer.





(** The values from the largest to the smallest, as the loop visits them,
    and the running sum after the first [k] of them. *)
Definition descending (g : CubeFile) : list float :=
  map (NumPy.item (data g)) (rev (NumPy.argsort (data g))).

Definition running_sum (g : CubeFile) (k : nat) : float :=
  fold_left PrimFloat.add (firstn k (descending g)) 0%float.

Definition reached (g : CubeFile) (p : float) (k : nat) : bool :=
  (target_sum g p <=? running_sum g (S k))%float.

(** [v] is the first value of the walk at which the running sum reaches the
    target of [p], or the largest value when no running sum reaches it. *)
Definition first_reaching (g : CubeFile) (p : float) (v : float) : Prop :=
  (exists k, nth_error (descending g) k = Some v /\
             reached g p k = true /\
             forall j, (j < k)%nat -> reached g p j = false)
  \/
  ((forall k, (k < List.length (data g))%nat -> reached g p k = false) /\
   nth_error (descending g) 0 = Some v).


(** A list of values from the largest to the smallest: no value comes before
    a value that the sort order puts after it. *)
Definition descending_order (l : list float) : Prop :=
  StronglySorted (fun x y => NumPy.lt x y = false) l.

(** No value of the array is a NaN. *)
Definition nan_free (a : list float) : Prop :=
  forall x, In x a -> is_nan x = false.

End Stated.

(** ** Rounding, as arithmetic on integers *)

Module Round.

Local Open Scope Z_scope.

(** Round to odd: twice the quotient of [c] by [2 * k], plus one when the
    division leaves a remainder. *)
Definition sticky_div (c k : Z) : Z :=
  2 * (c / (2 * k)) + (if c mod (2 * k) =? 0 then 0 else 1).

Definition code (mrs : shr_record) : Z :=
  4 * shr_m mrs + (if shr_r mrs then 2 else 0) + (if shr_s mrs then 1 else 0).

Definition loc_code (l : location) : Z :=
  match l with
  | loc_Exact => 0
  | loc_Inexact Lt => 1
  | loc_Inexact Eq => 2
  | loc_Inexact Gt => 3
  end.

Definition rne4 (c : Z) : Z :=
  let q := c / 4 in
  let j := c mod 4 in
  if j <? 2 then q else if j =? 2 then (if Z.even q then q else q + 1) else q + 1.

(** What a rounded number is, given the mantissa [r] it was rounded to at the
    exponent [E]: a zero when [r] is zero, else a number of the format whose
    value is [r * 2 ^ E], or an infinity when that number is too large. *)
Definition rounds_to (s : bool) (r E : Z) (x : spec_float) : Prop :=
  match x with
  | S754_zero s' => s' = s /\ r = 0
  | S754_finite s' m3 e3 =>
      s' = s /\ canonical_mantissa prec emax m3 e3 = true /\
      Zpos m3 * 2 ^ (e3 - E) = r /\ E <= e3 /\ e3 <= emax - prec
  | S754_infinity s' =>
      s' = s /\ exists m3 e3,
        canonical_mantissa prec emax m3 e3 = true /\
        Zpos m3 * 2 ^ (e3 - E) = r /\ E <= e3 /\ emax - prec < e3
  | S754_nan => False
  end.

End Round.

(** ** Signs of binary64 numbers *)

(** Strictly negative: a negative finite number or minus infinity. *)
Definition SFneg (x : spec_float) : bool :=
  match x with
  | S754_infinity true | S754_finite true _ _ => true
  | _ => false
  end.

(** At most zero, and at least zero; the zeros of both signs are both. *)
Definition SFnonpos (x : spec_float) : bool :=
  match x with
  | S754_zero _ | S754_infinity true | S754_finite true _ _ => true
  | _ => false
  end.

Definition SFnonneg (x : spec_float) : bool :=
  match x with
  | S754_zero _ | S754_infinity false | S754_finite false _ _ => true
  | _ => false
  end.

(** ** Files used as examples *)

Module Samples.

Import Text.
Open Scope string_scope.

(** One point along x and y, two along z, no atoms, unit axis vectors. *)
Definition cube_header_1x1x2 : list string :=
  ["first comment"; "second comment";
   "0 0.0 0.0 0.0";
   "1 1.0 0.0 0.0";
   "1 0.0 1.0 0.0";
   "2 0.0 0.0 1.0"].

Definition cube_1x1x2 : string := unlines (cube_header_1x1x2 ++ ["1.0 3.0"]).

(** What [load_from] makes of it. *)
Definition grid_1x1x2 : CubeFile :=
  {| header :=
       {| comment1 := "first comment" ++ String newline "";
          comment2 := "second comment" ++ String newline "";
          origin := (0, 0, 0)%float;
          data_points_per_grid_point := 1;
          x_grid_points := 1; x_axis := (1, 0, 0)%float;
          y_grid_points := 1; y_axis := (0, 1, 0)%float;
          z_grid_points := 2; z_axis := (0, 0, 1)%float;
          atoms := [] |};
     data := [1; 3]%float |}.

(** The same grid with one value missing, and with one value too many. *)
Definition cube_1x1x2_short : string := unlines (cube_header_1x1x2 ++ ["1.0"]).
Definition cube_1x1x2_long : string :=
  unlines (cube_header_1x1x2 ++ ["1.0 3.0 5.0"]).

(** The same grid with text that is no number behind the two values. *)
Definition cube_1x1x2_trailing : string :=
  unlines (cube_header_1x1x2 ++ ["1.0 3.0 xyz 7.5"]).

(** A grid that declares no point along x and brings no data. *)
Definition cube_0x1x1 : string :=
  unlines ["first comment"; "second comment";
           "0 0.0 0.0 0.0";
           "0 1.0 0.0 0.0";
           "1 0.0 1.0 0.0";
           "1 0.0 0.0 1.0"].

(** A negative atom count on a line of 4 fields, and on a line of 3. *)
Definition cube_dset : string :=
  unlines ["first comment"; "second comment";
           "-1 0.0 0.0 0.0";
           "1 1.0 0.0 0.0";
           "1 0.0 1.0 0.0";
           "2 0.0 0.0 1.0";
           "1 0.0 0.0 0.0 0.0";
           "1.0 3.0"].

Definition cube_dset_3_fields : string :=
  unlines ["first comment"; "second comment"; "-1 0.0 0.0"].


(** What [load_from] makes of it, given the values. *)
Definition grid_1x1x3 (values : list float) : CubeFile :=
  {| header :=
       {| comment1 := "first comment" ++ String newline "";
          comment2 := "second comment" ++ String newline "";
          origin := (0, 0, 0)%float;
          data_points_per_grid_point := 1;
          x_grid_points := 1; x_axis := (1, 0, 0)%float;
          y_grid_points := 1; y_axis := (0, 1, 0)%float;
          z_grid_points := 3; z_axis := (0, 0, 1)%float;
          atoms := [] |};
     data := values |}.

(** One point along each axis, with the given line of data, and what
    [load_from] makes of it, given the values. *)
Definition cube_1x1x1 (values : string) : string :=
  unlines ["first comment"; "second comment";
           "0 0.0 0.0 0.0";
           "1 1.0 0.0 0.0";
           "1 0.0 1.0 0.0";
           "1 0.0 0.0 1.0";
           values].

Definition grid_1x1x1 (values : list float) : CubeFile :=
  {| header :=
       {| comment1 := "first comment" ++ String newline "";
          comment2 := "second comment" ++ String newline "";
          origin := (0, 0, 0)%float;
          data_points_per_grid_point := 1;
          x_grid_points := 1; x_axis := (1, 0, 0)%float;
          y_grid_points := 1; y_axis := (0, 1, 0)%float;
          z_grid_points := 1; z_axis := (0, 0, 1)%float;
          atoms := [] |};
     data := values |}.

(** A carbon atom and two values per grid point. *)
Definition cube_with_atom : string :=
  unlines ["first comment"; "second comment";
           "1 0.0 0.0 0.0 2";
           "1 1.0 0.0 0.0";
           "1 0.0 1.0 0.0";
           "1 0.0 0.0 1.0";
           "6 6.0 0.0 0.0 0.0";
           "-1.5E+00 2.5"].


End Samples.

Import Text Numeric Parser Analyzer Cli Lines Stated Round Samples.

(** * Theorems *)

Unset Implicit Arguments.

(** ** The concrete grid of two points *)

(** C9: the file of the 1x1x2 grid with the values 1.0 and 3.0 parses,
    whichever NumPy reads it, and on the parsed grid the minimum is 1.0, the
    maximum 3.0, the sum 4.0, the volume 1.0, the integral 4.0, the threshold
    for 50 percent is 3.0 and the threshold for 100 percent is the integer
    0. *)
Theorem grid_1x1x2_values :
  (forall np, load_from np cube_1x1x2 = Ok grid_1x1x2) /\
  min_value grid_1x1x2 = Ok 1%float /\
  max_value grid_1x1x2 = Ok 3%float /\
  summed_data grid_1x1x2 = 4%float /\
  volume grid_1x1x2 = 1%float /\
  integrate grid_1x1x2 = 4%float /\
  isosurface_threshold_value grid_1x1x2 50 = Ok (PyFloat 3) /\
  isosurface_threshold_value grid_1x1x2 100 = Ok (PyInt 0).
Proof.
  split; [intros []; vm_compute; reflexivity|].
  repeat split; vm_compute; reflexivity.
Qed.

(** ** The two sums *)


(** ** Where the code departs from the specification: concrete inputs *)


(** C3, as stated, fails on a file that declares no point along x: it parses,
    whichever NumPy reads it, its data is empty, and the extrema and the
    threshold raise. *)
Lemma parsed_grid_may_be_empty :
  exists g,
    (forall np, load_from np cube_0x1x1 = Ok g) /\
    data g = [] /\
    min_value g = Raise ValueError /\
    max_value g = Raise ValueError /\
    abs_min_value g = Raise ValueError /\
    abs_max_value g = Raise ValueError /\
    isosurface_threshold_value g 50 = Raise IndexError.
Proof.
  eexists. split; [intros []; vm_compute; reflexivity|].
  repeat split; vm_compute; reflexivity.
Qed.

(** C4, as stated, fails when NumPy only warns about unread text.  On a data
    section with text that is no number behind the expected values, the
    token [xyz] is where a number is expected, [float] rejects it, and the
    file parses to the two values before it: the token and what follows it
    are dropped.  On a grid of one point whose data line is [ xyz], the file
    parses to the value -1.0, which is written nowhere in it: the token is
    misread. *)
Lemma malformed_data_token_dropped :
  drop_lines 6 cube_1x1x2_trailing = "1.0 3.0 xyz 7.5" ++ String newline "" /\
  In "xyz"%string (split (drop_lines 6 cube_1x1x2_trailing)) /\
  py_float "xyz" = Raise ValueError /\
  load_from NumPy.Warns cube_1x1x2_trailing = Ok grid_1x1x2 /\
  split (drop_lines 6 (cube_1x1x1 " xyz")) = ["xyz"%string] /\
  load_from NumPy.Warns (cube_1x1x1 " xyz") = Ok (grid_1x1x1 [(-1)%float]).
Proof.
  repeat split; try (vm_compute; reflexivity).
  vm_compute. auto.
Qed.

(** C7, as stated, fails on a grid of one point whose data section is a blank
    line: the section holds no value, [numpy.fromstring] returns the value
    -1.0 for it, whichever NumPy reads it, and the file parses with that
    value as its data. *)
Lemma blank_data_section_is_padded :
  drop_lines 6 (cube_1x1x1 "") = String newline "" /\
  split (drop_lines 6 (cube_1x1x1 "")) = [] /\
  forall np, load_from np (cube_1x1x1 "") = Ok (grid_1x1x1 [(-1)%float]).
Proof.
  split; [vm_compute; reflexivity|]. split; [vm_compute; reflexivity|].
  intros []; vm_compute; reflexivity.
Qed.

(** C8, as stated, fails on a grid-definition line of three fields: its
    first token is the negative integer -1, and parsing fails on the count of
    fields, with an assertion that carries no message. *)
Lemma negative_count_on_short_line :
  fields 2 cube_dset_3_fields = ["-1"; "0.0"; "0.0"]%string /\
  py_int (part (fields 2 cube_dset_3_fields) 0) = Ok (-1)%Z /\
  (forall np,
      load_from np cube_dset_3_fields = Raise (AssertionError None) /\
      load_from np cube_dset_3_fields
      <> Raise (AssertionError (Some dset_ids_msg))).
Proof.
  repeat split; try (vm_compute; reflexivity).
  vm_compute. discriminate.
Qed.


(** ** The parser, line by line *)

Section ParserLemmas.

Lemma bind_ok {A B : Type} (r : result A) (k : A -> result B) (b : B) :
  bind r k = Ok b -> exists a, r = Ok a /\ k a = Ok b.
Proof. destruct r as [a|e]; simpl; [eauto | discriminate]. Qed.

Lemma py_assert_ok (c : bool) (msg : option string) (u : unit) :
  py_assert c msg = Ok u -> c = true.
Proof. destruct c; [reflexivity | discriminate]. Qed.

Lemma drop_lines_add (j k : nat) (text : string) :
  drop_lines (j + k) text = drop_lines k (drop_lines j text).
Proof.
  revert text. induction j as [|j IH]; intro text; [reflexivity|].
  simpl. apply IH.
Qed.

(** [read_header] in terms of the numbered lines. *)
Lemma read_header_lines (text : string) :
  read_header text =
  ('(nAtoms, o, nval) <- read_grid_line (line 2 text) ;;
   '(nx, vx) <- read_axis_line (line 3 text) ;;
   '(ny, vy) <- read_axis_line (line 4 text) ;;
   '(nz, vz) <- read_axis_line (line 5 text) ;;
   '(ats, s7) <- read_atoms (Z.to_nat nAtoms) (drop_lines 6 text) [] ;;
   Ok ({| comment1 := line 0 text; comment2 := line 1 text; origin := o;
          data_points_per_grid_point := nval;
          x_grid_points := nx; x_axis := vx;
          y_grid_points := ny; y_axis := vy;
          z_grid_points := nz; z_axis := vz;
          atoms := ats |}, s7)).
Proof.
  unfold read_header, line. simpl drop_lines.
  destruct (readline text) as [c1 s1]; simpl.
  destruct (readline s1) as [c2 s2]; simpl.
  destruct (readline s2) as [l3 s3]; simpl.
  destruct (readline s3) as [lx s4]; simpl.
  destruct (readline s4) as [ly s5]; simpl.
  destruct (readline s5) as [lz s6]; simpl.
  reflexivity.
Qed.

Lemma floats3_ok (parts : list string) (i : nat) (v : vec3) :
  floats3 parts i = Ok v ->
  forall j, (i <= j <= i + 2)%nat -> is_ok (py_float (part parts j)) = true.
Proof.
  unfold floats3. intros H j Hj.
  apply bind_ok in H as [a [Ha H]].
  apply bind_ok in H as [b [Hb H]].
  apply bind_ok in H as [c [Hc _]].
  assert (Hcases : j = i \/ j = (i + 1)%nat \/ j = (i + 2)%nat) by lia.
  destruct Hcases as [-> | [-> | ->]];
    [rewrite Ha | rewrite Hb | rewrite Hc]; reflexivity.
Qed.

Lemma read_axis_line_ok (l : string) (r : Z * vec3) :
  read_axis_line l = Ok r -> numeric_axis_fields (split l).
Proof.
  unfold read_axis_line. intro H.
  apply bind_ok in H as [u [_ H]].
  apply bind_ok in H as [n [Hn H]].
  apply bind_ok in H as [v [Hv _]].
  split; [rewrite Hn; reflexivity|].
  intros i Hi. apply (floats3_ok _ _ _ Hv). lia.
Qed.

Lemma read_grid_line_ok (l : string) (r : Z * vec3 * Z) :
  read_grid_line l = Ok r ->
  numeric_grid_fields (split l) /\
  (List.length (split l) = 4 \/ List.length (split l) = 5)%nat /\
  (0 <= fst (fst r))%Z.
Proof.
  unfold read_grid_line. intro H.
  apply bind_ok in H as [u [Hlen H]]. apply py_assert_ok in Hlen.
  apply bind_ok in H as [n [Hn H]].
  apply bind_ok in H as [n' [Hn' H]].
  apply bind_ok in H as [u' [Hpos H]]. apply py_assert_ok in Hpos.
  apply bind_ok in H as [o [Ho H]].
  apply bind_ok in H as [nval [Hnval H]].
  injection H as <-. simpl.
  repeat split.
  - rewrite Hn; reflexivity.
  - intros i Hi. apply (floats3_ok _ _ _ Ho). lia.
  - intro H5. rewrite H5 in Hnval. simpl in Hnval. rewrite Hnval. reflexivity.
  - apply orb_true_iff in Hlen as [H4|H5];
      [left; apply Nat.eqb_eq, H4 | right; apply Nat.eqb_eq, H5].
  - lia.
Qed.

Lemma read_atom_line_ok (l : string) (a : Atom) :
  read_atom_line l = Ok a -> numeric_atom_fields (split l).
Proof.
  unfold read_atom_line. intro H.
  apply bind_ok in H as [u [_ H]].
  apply bind_ok in H as [an [Han H]].
  apply bind_ok in H as [nc [Hnc H]].
  apply bind_ok in H as [pos [Hpos _]].
  split; [rewrite Han; reflexivity|].
  intros i Hi.
  destruct (Nat.eq_dec i 1) as [->|Hne]; [rewrite Hnc; reflexivity|].
  apply (floats3_ok _ _ _ Hpos). lia.
Qed.

(** The loop over the atoms reads [n] lines, all of them atom lines, and
    appends one atom for each. *)
Lemma read_atoms_ok (n : nat) :
  forall (s : string) (acc ats : list Atom) (s' : string),
    read_atoms n s acc = Ok (ats, s') ->
    s' = drop_lines n s /\
    List.length ats = (List.length acc + n)%nat /\
    forall k, (k < n)%nat -> numeric_atom_fields (fields k s).
Proof.
  induction n as [|n IH]; intros s acc ats s' H.
  - simpl in H. injection H as <- <-.
    rewrite length_rev. split; [reflexivity|]. split; [lia|].
    intros k Hk. lia.
  - simpl in H. destruct (readline s) as [l r] eqn:Hl.
    apply bind_ok in H as [a [Ha H]].
    apply IH in H as [Hs' [Hlen Hk]].
    split; [simpl; rewrite Hl; exact Hs'|].
    split; [rewrite Hlen; simpl; lia|].
    intros [|k] Hlt.
    + unfold fields, line. simpl. rewrite Hl. simpl.
      apply (read_atom_line_ok _ _ Ha).
    + unfold fields, line. simpl. rewrite Hl. simpl.
      apply Hk. lia.
Qed.

(** What a successful [read_header] has seen. *)
Lemma read_header_ok (text : string) (h : Header) (rest : string) :
  read_header text = Ok (h, rest) ->
  numeric_grid_fields (fields 2 text) /\
  (forall k, (3 <= k <= 5)%nat -> numeric_axis_fields (fields k text)) /\
  (forall k, (6 <= k < 6 + List.length (atoms h))%nat ->
             numeric_atom_fields (fields k text)) /\
  rest = drop_lines (6 + List.length (atoms h)) text.
Proof.
  rewrite read_header_lines. intro H.
  apply bind_ok in H as [[[nAtoms o] nval] [Hg H]].
  apply bind_ok in H as [[nx vx] [Hx H]].
  apply bind_ok in H as [[ny vy] [Hy H]].
  apply bind_ok in H as [[nz vz] [Hz H]].
  apply bind_ok in H as [[ats s7] [Ha H]].
  injection H as <- <-. simpl.
  apply read_atoms_ok in Ha as [Hs7 [Hlen Hk]]. simpl in Hlen.
  split; [apply (read_grid_line_ok _ _ Hg)|].
  split.
  { intros k Hk3.
    assert (Hc : k = 3%nat \/ k = 4%nat \/ k = 5%nat) by lia.
    destruct Hc as [-> | [-> | ->]];
      [apply (read_axis_line_ok _ _ Hx) | apply (read_axis_line_ok _ _ Hy)
       | apply (read_axis_line_ok _ _ Hz)]. }
  split.
  { intros k Hk6.
    replace k with (6 + (k - 6))%nat by lia.
    unfold fields, line. rewrite drop_lines_add.
    apply (Hk (k - 6)%nat). lia. }
  rewrite Hs7, Hlen. symmetry. apply (drop_lines_add 6).
Qed.

(** [load_from] is [read_header], [fromstring] and the closing assertion. *)
Lemma load_from_ok (np : NumPy.unread_text) (text : string) (g : CubeFile) :
  load_from np text = Ok g ->
  exists rest,
    read_header text = Ok (header g, rest) /\
    NumPy.fromstring np rest = Ok (data g) /\
    Z.of_nat (List.length (data g)) = expected_len g.
Proof.
  unfold load_from. intro H.
  apply bind_ok in H as [[h rest] [Hh H]].
  apply bind_ok in H as [d [Hd H]].
  apply bind_ok in H as [u [Hlen H]]. apply py_assert_ok in Hlen.
  injection H as <-. simpl.
  exists rest. repeat split; [exact Hh | exact Hd | apply Z.eqb_eq, Hlen].
Qed.

Lemma load_from_after_header (np : NumPy.unread_text) (text : string)
      (h : Header) (rest : string) (d : list float) :
  read_header text = Ok (h, rest) ->
  NumPy.fromstring np rest = Ok d ->
  load_from np text =
  if (Z.of_nat (List.length d) =? expected_len h)%Z
  then Ok {| header := h; data := d |}
  else Raise (AssertionError None).
Proof.
  intros Hh Hd. unfold load_from. rewrite Hh. simpl. rewrite Hd. simpl.
  destruct (_ =? _)%Z; reflexivity.
Qed.

(** What [fromstring] returns, in terms of the numbers of the text. *)
Lemma fromstring_ok (np : NumPy.unread_text) (s : string) (d : list float) :
  NumPy.fromstring np s = Ok d ->
  fst (NumPy.read_numbers s) = d /\
  (np = NumPy.Raises -> snd (NumPy.read_numbers s) = false).
Proof.
  unfold NumPy.fromstring.
  destruct (NumPy.read_numbers s) as [a unread]. simpl.
  destruct np.
  - intro H. injection H as <-. split; [reflexivity | discriminate].
  - destruct unread; [discriminate|].
    intro H. injection H as <-. split; reflexivity.
Qed.

End ParserLemmas.

(** ** [fromstring] never runs out of fuel *)

Section ScannerLengths.

Local Open Scope nat_scope.

Lemma skip_space_length (s : string) :
  String.length (skip_space s) <= String.length s.
Proof.
  induction s as [|c s IH]; simpl; [lia|].
  destruct (c_isspace c); simpl; lia.
Qed.

Lemma scan_sign_length (s : string) :
  String.length (snd (scan_sign s)) <= String.length s.
Proof.
  destruct s as [|c s]; simpl; [lia|].
  destruct c as [[] [] [] [] [] [] [] []]; simpl; lia.
Qed.

Lemma scan_digits_length (s : string) :
  forall (acc n v n' : Z) (r : string),
    scan_digits s acc n = (v, n', r) ->
    (n <= n')%Z /\ String.length r <= String.length s /\
    ((n < n')%Z -> String.length r < String.length s).
Proof.
  induction s as [|c s IH]; intros acc n v n' r H; simpl in H.
  - injection H as <- <- <-. simpl. lia.
  - destruct (is_digit c).
    + apply IH in H as [H1 [H2 H3]]. simpl. lia.
    + injection H as <- <- <-. simpl. lia.
Qed.

Lemma scan_word_length (w : string) :
  forall s r, scan_word w s = Some r ->
              String.length r + String.length w = String.length s.
Proof.
  induction w as [|a w IH]; intros s r H; simpl in H.
  - injection H as <-. simpl. lia.
  - destruct s as [|c s]; [discriminate|].
    destruct (Ascii.eqb a (lower c)); [|discriminate].
    apply IH in H. simpl. lia.
Qed.

Lemma scan_exponent_length (s : string) :
  String.length (snd (scan_exponent s)) <= String.length s.
Proof.
  unfold scan_exponent. destruct s as [|c s]; [simpl; lia|].
  destruct (Ascii.eqb (lower c) "e"); [|simpl; lia].
  pose proof (scan_sign_length s) as Hs.
  destruct (scan_sign s) as [eneg r1]. simpl in Hs.
  destruct (scan_digits r1 0 0) as [[ev ne] r2] eqn:Hd.
  apply scan_digits_length in Hd as [_ [Hd _]].
  destruct (ne =? 0)%Z; simpl; lia.
Qed.

Lemma scan_decimal_length (neg : bool) (s : string) (x : float) (r : string) :
  scan_decimal neg s = Some (x, r) -> String.length r < String.length s.
Proof.
  unfold scan_decimal.
  destruct (scan_digits s 0 0) as [[ip ni] s2] eqn:H1.
  apply scan_digits_length in H1 as [Hni [H1 H1']].
  assert (Hfrac : forall mant nf s3,
             match s2 with
             | String "." r0 => scan_digits r0 ip 0
             | _ => (ip, 0%Z, s2)
             end = (mant, nf, s3) ->
             (0 <= nf)%Z /\ String.length s3 <= String.length s2 /\
             ((0 < nf)%Z -> String.length s3 < String.length s2)).
  { intros mant nf s3 H.
    destruct s2 as [|c r0]; [injection H as <- <- <-; simpl; lia|].
    destruct (Ascii.eqb c ".") eqn:Hc.
    - apply Ascii.eqb_eq in Hc. subst c.
      apply scan_digits_length in H as [Ha [Hb Hc]]. simpl. lia.
    - assert (H' : (ip, 0%Z, String c r0) = (mant, nf, s3)).
      { rewrite <- H.
        destruct c as [[] [] [] [] [] [] [] []]; try reflexivity.
        discriminate. }
      injection H' as <- <- <-. simpl. lia. }
  destruct (match s2 with String "." r0 => scan_digits r0 ip 0
                        | _ => (ip, 0%Z, s2) end) as [[mant nf] s3].
  specialize (Hfrac mant nf s3 eq_refl) as [Hnf [H2 H2']].
  destruct (ni + nf =? 0)%Z eqn:Hz; [discriminate|].
  apply Z.eqb_neq in Hz.
  pose proof (scan_exponent_length s3) as H3.
  destruct (scan_exponent s3) as [ex s4]. simpl in H3.
  intro H. injection H as _ <-.
  assert (Hc : (0 < ni \/ 0 < nf)%Z) by lia.
  destruct Hc as [Hc|Hc]; [specialize (H1' Hc) | specialize (H2' Hc)]; lia.
Qed.

Lemma scan_inf_nan_length (neg : bool) (s : string) (x : float) (r : string) :
  scan_inf_nan neg s = Some (x, r) -> String.length r < String.length s.
Proof.
  unfold scan_inf_nan.
  destruct (scan_word "nan" s) as [r1|] eqn:Hn.
  - apply scan_word_length in Hn. intro H. injection H as _ <-.
    simpl in Hn. lia.
  - destruct (scan_word "inf" s) as [r1|] eqn:Hi; [|discriminate].
    apply scan_word_length in Hi. simpl in Hi.
    destruct (scan_word "inity" r1) as [r2|] eqn:Hy.
    + apply scan_word_length in Hy. intro H. injection H as _ <-. lia.
    + intro H. injection H as _ <-. lia.
Qed.

Lemma strtod_length (s : string) (x : float) (r : string) :
  strtod s = Some (x, r) -> String.length r < String.length s.
Proof.
  unfold strtod. pose proof (scan_sign_length s) as Hs.
  destruct (scan_sign s) as [neg s1]. simpl in Hs.
  destruct (scan_decimal neg s1) as [[y r']|] eqn:Hd.
  - intro H. injection H as _ <-.
    apply scan_decimal_length in Hd. lia.
  - intro H. apply scan_inf_nan_length in H. lia.
Qed.

Lemma scan_nan_tag_length (s : string) :
  String.length (scan_nan_tag s) <= String.length s.
Proof.
  induction s as [|c s IH]; simpl; [lia|].
  destruct (_ || _ || _)%bool; [lia|].
  destruct (Ascii.eqb c ")"); simpl; lia.
Qed.

(** A number takes at least one character. *)
Lemma np_strtod_length (s : string) (x : float) (r : string) :
  np_strtod s = Some (x, r) -> String.length r < String.length s.
Proof.
  unfold np_strtod. pose proof (skip_space_length s) as H0.
  pose proof (scan_sign_length (skip_space s)) as Hs.
  destruct (scan_sign (skip_space s)) as [neg s1]. simpl in Hs.
  destruct (scan_word "nan" s1) as [r1|] eqn:Hn.
  - apply scan_word_length in Hn. simpl in Hn.
    intro H. injection H as _ <-.
    destruct r1 as [|c r']; [simpl in *; lia|].
    pose proof (scan_nan_tag_length r') as Ht.
    destruct c as [[] [] [] [] [] [] [] []]; simpl in *; lia.
  - destruct (scan_word "inf" s1) as [r1|] eqn:Hi.
    + intro H. apply scan_inf_nan_length in H. lia.
    + intro H. apply strtod_length in H. lia.
Qed.

Lemma next_element_length (s : string) (x : float) (r : string) :
  NumPy.next_element s = Some (x, r) -> String.length r < String.length s.
Proof.
  unfold NumPy.next_element.
  destruct (np_strtod s) as [[y r']|] eqn:Hx.
  - intro H. injection H as <- <-. apply (np_strtod_length _ _ _ Hx).
  - destruct s as [|c s']; [discriminate|].
    destruct (c_isspace c) eqn:Hc; [|discriminate].
    intro H. injection H as _ <-. simpl. rewrite Hc.
    pose proof (skip_space_length s'). lia.
Qed.

Lemma fromstring_fuel (fuel : nat) :
  forall (fuel' : nat) (s : string) (acc : list float),
    String.length s < fuel -> String.length s < fuel' ->
    NumPy.fromstring_loop fuel s acc = NumPy.fromstring_loop fuel' s acc.
Proof.
  induction fuel as [|fuel IH]; intros fuel' s acc H H'; [lia|].
  destruct fuel' as [|fuel']; [lia|]. simpl.
  destruct (NumPy.next_element s) as [[x rest]|] eqn:Hx; [|reflexivity].
  apply next_element_length in Hx.
  destruct rest as [|c rest']; [reflexivity|].
  destruct (c_isspace c); [|reflexivity].
  pose proof (skip_space_length (String c rest')).
  apply IH; lia.
Qed.

(** What is left after skipping white space does not start with white
    space. *)
Lemma skip_space_head (s : string) (c : ascii) (r : string) :
  skip_space s = String c r -> c_isspace c = false.
Proof.
  induction s as [|c0 s IH]; simpl; [discriminate|].
  destruct (c_isspace c0) eqn:E; [exact IH|].
  intro H. injection H as <- _. exact E.
Qed.

(** The loop only adds to the values it has. *)
Lemma fromstring_loop_acc (fuel : nat) :
  forall (s : string) (acc : list float),
    exists l, fst (NumPy.fromstring_loop fuel s acc) = (rev acc ++ l)%list.
Proof.
  induction fuel as [|fuel IH]; intros s acc; simpl.
  - exists []. rewrite app_nil_r. reflexivity.
  - destruct (NumPy.next_element s) as [[x rest]|].
    + destruct rest as [|c rest'].
      * exists [x]. reflexivity.
      * destruct (c_isspace c).
        -- destruct (IH (skip_space (String c rest')) (x :: acc)) as [l Hl].
           exists (x :: l). rewrite Hl. simpl. rewrite <- app_assoc.
           reflexivity.
        -- exists [x]. reflexivity.
    + exists []. rewrite app_nil_r. reflexivity.
Qed.

(** Text that starts with white space gives at least one value. *)
Lemma read_numbers_after_space (c : ascii) (r : string) :
  c_isspace c = true -> fst (NumPy.read_numbers (String c r)) <> [].
Proof.
  intro Hc. unfold NumPy.read_numbers.
  cbn [NumPy.fromstring_loop].
  assert (Hn : exists x rest,
             NumPy.next_element (String c r) = Some (x, rest)).
  { unfold NumPy.next_element.
    destruct (np_strtod (String c r)) as [[x rest]|]; [eauto|].
    rewrite Hc. eauto. }
  destruct Hn as [x [rest ->]].
  destruct rest as [|c' rest']; [discriminate|].
  destruct (c_isspace c'); [|discriminate].
  destruct (fromstring_loop_acc (String.length (String c r))
              (skip_space (String c' rest')) [x]) as [l Hl].
  rewrite Hl. discriminate.
Qed.

(** White space that no number follows is read as the value -1.0. *)
Lemma read_numbers_fabricated (c : ascii) (r : string) :
  c_isspace c = true -> np_strtod (String c r) = None ->
  fst (NumPy.read_numbers (String c r)) = [(-1)%float].
Proof.
  intros Hc Hn. unfold NumPy.read_numbers.
  cbn [NumPy.fromstring_loop]. unfold NumPy.next_element.
  rewrite Hn, Hc.
  destruct (skip_space (String c r)) as [|c' r'] eqn:E; [reflexivity|].
  rewrite (skip_space_head _ _ _ E). reflexivity.
Qed.

End ScannerLengths.

(** ** What the parser accepts and rejects *)

(** C7, amended: a file parses only when the number of values that
    [numpy.fromstring] returns for what follows the header equals the product
    of the three point counts and the number of values per point; a file with
    the same header for which it returns another number of values, one fewer
    or one more in particular, fails on the closing assertion.  The values
    it returns are not always values of the file: see
    [read_numbers_fabricated]. *)
Theorem data_count_is_checked (np : NumPy.unread_text) (text : string)
        (g : CubeFile) :
  load_from np text = Ok g ->
  (exists rest, read_header text = Ok (header g, rest) /\
                NumPy.fromstring np rest = Ok (data g)) /\
  Z.of_nat (List.length (data g)) =
    (x_grid_points g * y_grid_points g * z_grid_points g
     * data_points_per_grid_point g)%Z /\
  forall np' text' rest' d',
    read_header text' = Ok (header g, rest') ->
    NumPy.fromstring np' rest' = Ok d' ->
    List.length d' <> List.length (data g) ->
    load_from np' text' = Raise (AssertionError None).
Proof.
  intro H. apply load_from_ok in H as [rest [Hh [Hd Hlen]]].
  split; [exists rest; auto|]. split; [exact Hlen|].
  intros np' text' rest' d' Hh' Hd' Hcount.
  rewrite (load_from_after_header _ _ _ _ _ Hh' Hd').
  destruct (Z.eqb_spec (Z.of_nat (List.length d'))
                       (expected_len (header g))) as [Heq|Hne];
    [|reflexivity].
  exfalso. rewrite <- Hlen in Heq. lia.
Qed.

Lemma data_count_is_checked_witness :
  load_from NumPy.Raises cube_1x1x2 = Ok grid_1x1x2 /\
  load_from NumPy.Raises cube_1x1x2_short = Raise (AssertionError None) /\
  load_from NumPy.Warns cube_1x1x2_long = Raise (AssertionError None).
Proof.
  assert (H : load_from NumPy.Raises cube_1x1x2 = Ok grid_1x1x2)
    by (vm_compute; reflexivity).
  split; [exact H|].
  pose proof (data_count_is_checked _ _ _ H) as [_ [_ Hother]].
  split.
  - apply (Hother NumPy.Raises cube_1x1x2_short
                  (drop_lines 6 cube_1x1x2_short) [1]%float).
    + vm_compute. reflexivity.
    + vm_compute. reflexivity.
    + simpl. lia.
  - apply (Hother NumPy.Warns cube_1x1x2_long
                  (drop_lines 6 cube_1x1x2_long) [1; 3; 5]%float).
    + vm_compute. reflexivity.
    + vm_compute. reflexivity.
    + simpl. lia.
Defined.

(** C4, amended: when a file parses, every numeric field of the
    grid-definition line, of the three axis lines and of the atom lines was
    accepted by [int] or [float], and the data are the values that
    [numpy.fromstring] returns for the text after the atom lines: the numbers
    up to the first text that is not a number, or the single value -1.0 when
    that text starts with white space that no number follows.  Under a NumPy
    that raises on unread text there is no unread text; under one that warns
    the unread text is dropped without an error. *)
Theorem parsed_fields_are_numeric (np : NumPy.unread_text) (text : string)
        (g : CubeFile) :
  load_from np text = Ok g ->
  numeric_grid_fields (fields 2 text) /\
  (forall k, (3 <= k <= 5)%nat -> numeric_axis_fields (fields k text)) /\
  (forall k, (6 <= k < 6 + List.length (atoms g))%nat ->
             numeric_atom_fields (fields k text)) /\
  data g =
    fst (NumPy.read_numbers (drop_lines (6 + List.length (atoms g)) text)) /\
  (forall c r,
      drop_lines (6 + List.length (atoms g)) text = String c r ->
      c_isspace c = true -> np_strtod (String c r) = None ->
      data g = [(-1)%float]) /\
  (np = NumPy.Raises ->
   snd (NumPy.read_numbers (drop_lines (6 + List.length (atoms g)) text))
   = false) /\
  load_from NumPy.Warns text = Ok g.
Proof.
  intro H. pose proof H as H0.
  apply load_from_ok in H as [rest [Hh [Hd Hlen]]].
  pose proof Hh as Hh0.
  apply read_header_ok in Hh as [Hg [Hax [Hat Hrest]]].
  apply fromstring_ok in Hd as [Hd Hunread].
  split; [exact Hg|]. split; [exact Hax|]. split; [exact Hat|].
  rewrite <- Hrest.
  split; [symmetry; exact Hd|].
  split.
  { intros c r E Hc Hn. rewrite <- Hd, E.
    apply read_numbers_fabricated; assumption. }
  split; [exact Hunread|].
  assert (Hw : NumPy.fromstring NumPy.Warns rest = Ok (data g)).
  { unfold NumPy.fromstring. rewrite <- Hd.
    destruct (NumPy.read_numbers rest). reflexivity. }
  rewrite (load_from_after_header _ _ _ _ _ Hh0 Hw).
  apply Z.eqb_eq in Hlen. unfold expected_len in Hlen. cbv beta in Hlen.
  fold (expected_len (header g)) in Hlen. rewrite Hlen.
  destruct g as [h d]. reflexivity.
Qed.

Lemma parsed_fields_are_numeric_witness :
  load_from NumPy.Raises cube_1x1x2 = Ok grid_1x1x2 /\
  numeric_grid_fields (fields 2 cube_1x1x2) /\
  numeric_axis_fields (fields 5 cube_1x1x2) /\
  NumPy.read_numbers (drop_lines 6 cube_1x1x2) = (data grid_1x1x2, false) /\
  NumPy.read_numbers (drop_lines 6 cube_1x1x2_trailing)
  = (data grid_1x1x2, true) /\
  load_from NumPy.Raises cube_1x1x2_trailing = Raise ValueError /\
  load_from NumPy.Raises (cube_1x1x1 " xyz") = Raise ValueError.
Proof.
  assert (H : load_from NumPy.Raises cube_1x1x2 = Ok grid_1x1x2)
    by (vm_compute; reflexivity).
  split; [exact H|].
  pose proof (parsed_fields_are_numeric _ _ _ H) as [Hg [Hax _]].
  split; [exact Hg|]. split; [apply Hax; lia|].
  repeat split; vm_compute; reflexivity.
Defined.

(** C8, amended: when the grid-definition line has 4 or 5 fields and its
    first field is a negative integer, parsing fails with the assertion whose
    message is "DSET_IDs not (yet) supported", whatever the rest of the file
    holds; the message tells it from the other failures of the parser, which
    are assertions without a message and [ValueError]. *)
Theorem negative_atom_count_rejected (np : NumPy.unread_text) (text : string)
        (n : Z) :
  (List.length (fields 2 text) = 4 \/ List.length (fields 2 text) = 5)%nat ->
  py_int (part (fields 2 text) 0) = Ok n ->
  (n < 0)%Z ->
  load_from np text = Raise (AssertionError (Some dset_ids_msg)) /\
  AssertionError (Some dset_ids_msg) <> AssertionError None /\
  AssertionError (Some dset_ids_msg) <> ValueError.
Proof.
  intros Hlen Hn Hneg. split; [|split; discriminate].
  unfold load_from. rewrite read_header_lines.
  unfold read_grid_line. fold (fields 2 text).
  assert (Hc : ((List.length (fields 2 text) =? 4)
                || (List.length (fields 2 text) =? 5))%nat = true).
  { destruct Hlen as [-> | ->]; reflexivity. }
  rewrite Hc. simpl. rewrite Hn. simpl.
  destruct (Z.leb_spec 0 n) as [Hle|_]; [lia|]. reflexivity.
Qed.

Lemma negative_atom_count_rejected_witness :
  load_from NumPy.Raises cube_dset
  = Raise (AssertionError (Some dset_ids_msg)).
Proof.
  apply (negative_atom_count_rejected NumPy.Raises cube_dset (-1)).
  - left. vm_compute. reflexivity.
  - vm_compute. reflexivity.
  - lia.
Defined.

(** ** [argsort] *)

Section Argsort.

Variable a : list float.

Lemma insert_perm (i : nat) (l : list nat) :
  Permutation (NumPy.insert a i l) (i :: l).
Proof.
  induction l as [|j l IH]; simpl; [apply Permutation_refl|].
  destruct (NumPy.lt _ _); [apply Permutation_refl|].
  apply perm_trans with (j :: i :: l); [|apply perm_swap].
  apply perm_skip, IH.
Qed.

Lemma fold_insert_perm (l init : list nat) :
  Permutation
    (fold_left (fun sorted i => NumPy.insert a i sorted) l init)
    (rev l ++ init).
Proof.
  revert init. induction l as [|i l IH]; intro init; simpl;
    [apply Permutation_refl|].
  eapply perm_trans; [apply IH|].
  rewrite <- app_assoc. apply Permutation_app_head. simpl.
  apply insert_perm.
Qed.

(** The indices [argsort] returns are the indices of the array, each once. *)
Lemma argsort_perm : Permutation (NumPy.argsort a) (seq 0 (List.length a)).
Proof.
  unfold NumPy.argsort. eapply perm_trans; [apply fold_insert_perm|].
  rewrite app_nil_r. apply Permutation_sym, Permutation_rev.
Qed.

Lemma argsort_length : List.length (NumPy.argsort a) = List.length a.
Proof.
  rewrite (Permutation_length argsort_perm). apply length_seq.
Qed.

Lemma argsort_in (i : nat) : In i (NumPy.argsort a) -> (i < List.length a)%nat.
Proof.
  intro H. apply (Permutation_in _ argsort_perm) in H.
  apply in_seq in H. lia.
Qed.

Lemma item_in (i : nat) : (i < List.length a)%nat -> In (NumPy.item a i) a.
Proof. intro H. unfold NumPy.item. apply nth_In, H. Qed.

Lemma map_item_seq : map (NumPy.item a) (seq 0 (List.length a)) = a.
Proof.
  unfold NumPy.item. apply nth_ext with (d := nan) (d' := nan).
  - rewrite length_map, length_seq. reflexivity.
  - intros n Hn. rewrite length_map, length_seq in Hn.
    rewrite (nth_indep _ nan (nth 0 a nan))
      by (rewrite length_map, length_seq; exact Hn).
    rewrite (map_nth (fun i => nth i a nan)). rewrite seq_nth by exact Hn.
    reflexivity.
Qed.

(** The values in sorted order are the values of the array. *)
Lemma sorted_values_perm :
  Permutation (map (NumPy.item a) (rev (NumPy.argsort a))) a.
Proof.
  apply perm_trans with (map (NumPy.item a) (seq 0 (List.length a))).
  - apply Permutation_map.
    eapply perm_trans; [apply Permutation_sym, Permutation_rev|].
    apply argsort_perm.
  - rewrite map_item_seq. apply Permutation_refl.
Qed.

(** What the loop returns is a value at one of the indices it visits. *)
Lemma walk_in (idx : list nat) :
  forall (target current : float) (v : float),
    walk a idx target current = Some v ->
    exists i, In i idx /\ v = NumPy.item a i.
Proof.
  induction idx as [|i idx IH]; intros target current v H; simpl in H;
    [discriminate|].
  destruct (_ <=? _)%float.
  - injection H as <-. exists i. split; [left; reflexivity | reflexivity].
  - apply IH in H as [j [Hj Hv]]. exists j. split; [right; exact Hj | exact Hv].
Qed.

End Argsort.

(** ** The order of binary64 numbers

    The comparisons of [float] are specified on [spec_float] by the standard
    library ([ltb_spec], [leb_spec], [eqb_spec]); the facts below are read off
    [SFcompare]. *)

Section FloatOrder.

Local Open Scope float_scope.

Ltac cmp_cases :=
  repeat match goal with
         | |- context [Z.compare ?a ?b] => destruct (Z.compare_spec a b)
         | H : context [Z.compare ?a ?b] |- _ => destruct (Z.compare_spec a b)
         | |- context [Pos.compare_cont Eq ?a ?b] =>
             change (Pos.compare_cont Eq a b) with (Pos.compare a b);
             destruct (Pos.compare_spec a b)
         | H : context [Pos.compare_cont Eq ?a ?b] |- _ =>
             change (Pos.compare_cont Eq a b) with (Pos.compare a b) in H;
             destruct (Pos.compare_spec a b)
         end.

Lemma SFcompare_swap (x y : spec_float) :
  SFcompare y x = option_map CompOpp (SFcompare x y).
Proof.
  destruct x as [sx|sx| |sx mx ex], y as [sy|sy| |sy my ey];
    try destruct sx; try destruct sy; simpl; try reflexivity;
    cmp_cases; simpl; try reflexivity; try lia.
Qed.

Lemma SFcompare_refl (x : spec_float) :
  x <> S754_nan -> SFcompare x x = Some Eq.
Proof.
  destruct x as [sx|sx| |sx mx ex]; try destruct sx; simpl;
    try reflexivity; try congruence; intros _;
    cmp_cases; simpl; try reflexivity; lia.
Qed.

Lemma SFleb_trans (x y z : spec_float) :
  SFleb x y = true -> SFleb y z = true -> SFleb x z = true.
Proof.
  unfold SFleb.
  destruct x as [sx|sx| |sx mx ex], y as [sy|sy| |sy my ey],
           z as [sz|sz| |sz mz ez];
    try destruct sx; try destruct sy; try destruct sz; simpl;
    try reflexivity; try discriminate;
    cmp_cases; simpl; try reflexivity; try discriminate; try lia.
Qed.

Lemma SFleb_total (x y : spec_float) :
  x <> S754_nan -> y <> S754_nan -> SFleb x y = true \/ SFltb y x = true.
Proof.
  unfold SFleb, SFltb. rewrite (SFcompare_swap x y).
  destruct x as [sx|sx| |sx mx ex], y as [sy|sy| |sy my ey];
    try destruct sx; try destruct sy; simpl; try congruence; auto;
    intros _ _; cmp_cases; simpl; auto.
Qed.

Lemma SFltb_not_leb (x y : spec_float) :
  SFltb x y = true -> SFleb y x = false.
Proof.
  unfold SFleb, SFltb. rewrite (SFcompare_swap x y).
  destruct (SFcompare x y) as [[]|]; simpl; congruence.
Qed.

Lemma SFltb_leb (x y : spec_float) : SFltb x y = true -> SFleb x y = true.
Proof.
  unfold SFleb, SFltb. destruct (SFcompare x y) as [[]|]; congruence.
Qed.

Lemma SFeqb_leb (x y : spec_float) :
  SFeqb x y = SFleb x y && SFleb y x.
Proof.
  unfold SFleb, SFeqb. rewrite (SFcompare_swap x y).
  destruct (SFcompare x y) as [[]|]; reflexivity.
Qed.

Lemma SFleb_nan_r (x : spec_float) : SFleb x S754_nan = false.
Proof. destruct x as [[]|[]| |[] m e]; reflexivity. Qed.

(** The same facts on [float]. *)

Lemma is_nan_spec (x : float) : is_nan x = true <-> Prim2SF x = S754_nan.
Proof.
  unfold is_nan. rewrite eqb_spec. unfold SFeqb. split.
  - intro H. destruct (Prim2SF x) as [s|s| |s m e] eqn:E; [| |reflexivity|];
      rewrite SFcompare_refl in H by discriminate; discriminate.
  - intros ->. reflexivity.
Qed.

Lemma is_nan_false (x : float) : is_nan x = false <-> Prim2SF x <> S754_nan.
Proof.
  rewrite <- is_nan_spec. destruct (is_nan x); split; congruence.
Qed.

Lemma leb_trans (x y z : float) :
  (x <=? y) = true -> (y <=? z) = true -> (x <=? z) = true.
Proof. rewrite !leb_spec. apply SFleb_trans. Qed.

Lemma leb_refl (x : float) : is_nan x = false -> (x <=? x) = true.
Proof.
  intro H. apply is_nan_false in H. rewrite leb_spec. unfold SFleb.
  rewrite SFcompare_refl by exact H. reflexivity.
Qed.

Lemma leb_total (x y : float) :
  is_nan x = false -> is_nan y = false ->
  (x <=? y) = true \/ (y <? x) = true.
Proof.
  rewrite !is_nan_false, leb_spec, ltb_spec. apply SFleb_total.
Qed.

Lemma ltb_not_leb (x y : float) : (x <? y) = true -> (y <=? x) = false.
Proof. rewrite leb_spec, ltb_spec. apply SFltb_not_leb. Qed.

Lemma ltb_leb (x y : float) : (x <? y) = true -> (x <=? y) = true.
Proof. rewrite leb_spec, ltb_spec. apply SFltb_leb. Qed.

Lemma eqb_leb (x y : float) : (x =? y) = (x <=? y) && (y <=? x).
Proof. rewrite eqb_spec, !leb_spec. apply SFeqb_leb. Qed.

Lemma leb_not_nan (x y : float) :
  (x <=? y) = true -> is_nan x = false /\ is_nan y = false.
Proof.
  rewrite leb_spec, !is_nan_false. intro H. split; intro E; rewrite E in H.
  - discriminate.
  - rewrite SFleb_nan_r in H. discriminate.
Qed.

Lemma ltb_not_nan (x y : float) :
  (x <? y) = true -> is_nan x = false /\ is_nan y = false.
Proof. intro H. apply leb_not_nan, ltb_leb, H. Qed.

(** Without a NaN, [y < x] is the negation of [x <= y]. *)
Lemma ltb_negb_leb (x y : float) :
  is_nan x = false -> is_nan y = false -> (y <? x) = negb (x <=? y).
Proof.
  intros Hx Hy. destruct (leb_total x y Hx Hy) as [H|H].
  - rewrite H. simpl. destruct (y <? x) eqn:E; [|reflexivity].
    apply ltb_not_leb in E. congruence.
  - rewrite H. apply ltb_not_leb in H. rewrite H. reflexivity.
Qed.

End FloatOrder.

(** ** The sort order and the sorted values *)

Section SortOrder.

Local Open Scope float_scope.

Lemma ltb_nan_l (x y : float) : is_nan x = true -> (x <? y) = false.
Proof.
  intro H. destruct (x <? y) eqn:E; [|reflexivity].
  apply ltb_not_nan in E as [E _]. congruence.
Qed.

Lemma ltb_nan_r (x y : float) : is_nan y = true -> (x <? y) = false.
Proof.
  intro H. destruct (x <? y) eqn:E; [|reflexivity].
  apply ltb_not_nan in E as [_ E]. congruence.
Qed.

Lemma ltb_asym (x y : float) : (x <? y) = true -> (y <? x) = false.
Proof.
  intro H. destruct (y <? x) eqn:E; [|reflexivity].
  apply ltb_leb in E. apply ltb_not_leb in H. congruence.
Qed.

Lemma lt_asym (x y : float) : NumPy.lt x y = true -> NumPy.lt y x = false.
Proof.
  unfold NumPy.lt. intro H. apply orb_true_iff in H as [H|H].
  - rewrite (ltb_asym _ _ H). apply ltb_not_nan in H as [Hx Hy].
    rewrite Hx, Hy. reflexivity.
  - apply andb_true_iff in H as [Hx Hy]. apply negb_true_iff in Hx.
    rewrite (ltb_nan_l y x Hy), Hy. reflexivity.
Qed.

(** "Not after" is transitive. *)
Lemma not_lt_trans (x y z : float) :
  NumPy.lt y x = false -> NumPy.lt z y = false -> NumPy.lt z x = false.
Proof.
  unfold NumPy.lt. intros Hyx Hzy.
  apply orb_false_iff in Hyx as [Hyx Hyx'].
  apply orb_false_iff in Hzy as [Hzy Hzy'].
  destruct (is_nan x) eqn:Nx.
  - rewrite (ltb_nan_r z x Nx). simpl.
    rewrite andb_true_r in Hyx'. apply negb_false_iff in Hyx'.
    rewrite Hyx' in Hzy'. rewrite andb_true_r in Hzy'.
    rewrite Hzy'. reflexivity.
  - rewrite andb_false_r, orb_false_r.
    destruct (z <? x) eqn:E; [|reflexivity]. exfalso.
    pose proof (ltb_not_nan _ _ E) as [Nz _].
    rewrite Nz in Hzy'. simpl in Hzy'.
    rewrite (ltb_negb_leb _ _ Nx Hzy') in Hyx. apply negb_false_iff in Hyx.
    rewrite (ltb_negb_leb _ _ Hzy' Nz) in Hzy. apply negb_false_iff in Hzy.
    pose proof (leb_trans _ _ _ Hyx Hzy) as Hxz.
    apply ltb_not_leb in E. congruence.
Qed.

(** Without NaNs, "not after" is [<=]. *)
Lemma not_lt_leb (x y : float) :
  is_nan x = false -> is_nan y = false ->
  NumPy.lt y x = false -> (x <=? y) = true.
Proof.
  unfold NumPy.lt. intros Nx Ny H. apply orb_false_iff in H as [H _].
  rewrite (ltb_negb_leb _ _ Nx Ny) in H. apply negb_false_iff, H.
Qed.

Variable a : list float.

Lemma insert_sorted (i : nat) (l : list nat) :
  StronglySorted (NumPy.not_after a) l -> StronglySorted (NumPy.not_after a) (NumPy.insert a i l).
Proof.
  induction 1 as [|j l Hl IH Hj]; simpl.
  - constructor; constructor.
  - destruct (NumPy.lt (NumPy.item a i) (NumPy.item a j)) eqn:E.
    + constructor; [constructor; assumption|].
      apply lt_asym in E. constructor; [exact E|].
      rewrite Forall_forall in *. intros k Hk.
      unfold NumPy.not_after in *. apply (not_lt_trans _ _ _ E (Hj k Hk)).
    + constructor; [exact IH|].
      rewrite Forall_forall in *. intros k Hk.
      apply (Permutation_in _ (insert_perm a i l)) in Hk.
      destruct Hk as [<-|Hk]; [exact E | apply Hj, Hk].
Qed.

Lemma fold_insert_sorted (l init : list nat) :
  StronglySorted (NumPy.not_after a) init ->
  StronglySorted (NumPy.not_after a)
    (fold_left (fun sorted i => NumPy.insert a i sorted) l init).
Proof.
  revert init. induction l as [|i l IH]; intros init H; simpl; [exact H|].
  apply IH, insert_sorted, H.
Qed.

Lemma argsort_sorted : StronglySorted (NumPy.not_after a) (NumPy.argsort a).
Proof. apply fold_insert_sorted. constructor. Qed.

Lemma StronglySorted_snoc {A : Type} (R : A -> A -> Prop) (l : list A) (x : A) :
  StronglySorted R l -> (forall z, In z l -> R z x) ->
  StronglySorted R (l ++ [x]).
Proof.
  induction 1 as [|y l Hl IH Hy]; intro Hx; simpl.
  - constructor; constructor.
  - constructor.
    + apply IH. intros z Hz. apply Hx. right. exact Hz.
    + rewrite Forall_forall in *. intros w Hw.
      apply in_app_or in Hw as [Hw|[<-|[]]]; [apply Hy, Hw|].
      apply Hx. left. reflexivity.
Qed.

Lemma StronglySorted_rev {A : Type} (R : A -> A -> Prop) (l : list A) :
  StronglySorted R l -> StronglySorted (fun x y => R y x) (rev l).
Proof.
  induction 1 as [|x l Hl IH Hx]; simpl; [constructor|].
  apply StronglySorted_snoc; [exact IH|].
  rewrite Forall_forall in Hx. intros z Hz. apply Hx, in_rev, Hz.
Qed.

End SortOrder.

(** ** The loop of [isosurface_threshold_value] *)

Section Walk.

Local Open Scope float_scope.

Variable a : list float.

(** The loop over indices is a loop over their values. *)
Lemma walk_values (idx : list nat) :
  forall (t c : float),
    let vals := map (NumPy.item a) idx in
    match walk a idx t c with
    | Some v =>
        exists k, nth_error vals k = Some v /\
                  (t <=? fold_left PrimFloat.add (firstn (S k) vals) c) = true /\
                  forall j, (j < k)%nat ->
                    (t <=? fold_left PrimFloat.add (firstn (S j) vals) c) = false
    | None =>
        forall k, (k < List.length idx)%nat ->
                  (t <=? fold_left PrimFloat.add (firstn (S k) vals) c) = false
    end.
Proof.
  induction idx as [|i idx IH]; intros t c; simpl.
  - intros k Hk. lia.
  - destruct (t <=? c + NumPy.item a i) eqn:E.
    + exists 0%nat. simpl. repeat split; [exact E | intros j Hj; lia].
    + specialize (IH t (c + NumPy.item a i)). simpl in IH.
      destruct (walk a idx t (c + NumPy.item a i)) as [v|].
      * destruct IH as [k [Hk [Hr Hj]]]. exists (S k). simpl.
        repeat split; [exact Hk | exact Hr |].
        intros [|j] Hlt; [simpl; exact E|]. apply Hj. lia.
      * intros [|k] Hk; [simpl; exact E|]. apply IH. lia.
Qed.

Lemma StronglySorted_map {A B : Type} (f : A -> B) (R : B -> B -> Prop)
      (l : list A) :
  StronglySorted (fun x y => R (f x) (f y)) l -> StronglySorted R (map f l).
Proof.
  induction 1 as [|x l Hl IH Hx]; simpl; constructor; [exact IH|].
  rewrite Forall_forall in *. intros y Hy.
  apply in_map_iff in Hy as [z [<- Hz]]. apply Hx, Hz.
Qed.

(** The values as the loop visits them go from the largest to the smallest. *)
Lemma sorted_values_descending :
  descending_order (map (NumPy.item a) (rev (NumPy.argsort a))).
Proof.
  apply StronglySorted_map.
  apply (StronglySorted_rev _ _ (argsort_sorted a)).
Qed.

End Walk.

Section Threshold.

Local Open Scope float_scope.

Lemma below_100 (p : float) : (p <? 100) = true -> (100 <=? p) = false.
Proof. apply ltb_not_leb. Qed.

(** Below 100 percent the method returns what the loop returns, or the value
    at the last sorted index. *)
Lemma threshold_below_100 (g : CubeFile) (p : float) :
  (100 <=? p) = false ->
  isosurface_threshold_value g p =
  match walk (data g) (rev (NumPy.argsort (data g))) (target_sum g p) 0 with
  | Some v => Ok (PyFloat v)
  | None =>
      match descending g with
      | [] => Raise IndexError
      | v :: _ => Ok (PyFloat v)
      end
  end.
Proof.
  intro H. unfold isosurface_threshold_value, descending. rewrite H.
  destruct (walk _ _ _ _); [reflexivity|].
  destruct (rev (NumPy.argsort (data g))); reflexivity.
Qed.

Lemma descending_length (g : CubeFile) :
  List.length (descending g) = List.length (data g).
Proof.
  unfold descending. rewrite length_map, length_rev. apply argsort_length.
Qed.

Lemma descending_in (g : CubeFile) (v : float) :
  In v (descending g) -> In v (data g).
Proof.
  apply Permutation_in. apply sorted_values_perm.
Qed.

End Threshold.

(** ** The threshold is a value of the grid *)

(** C6: for a coverage in [0,100), whatever [isosurface_threshold_value]
    returns is a [float] that occurs in the data, and on a grid with data it
    does return. *)
Theorem threshold_is_a_data_value (g : CubeFile) (p : float) :
  (0 <=? p)%float = true -> (p <? 100)%float = true ->
  (forall v, isosurface_threshold_value g p = Ok v ->
             exists x, v = PyFloat x /\ In x (data g)) /\
  (data g <> [] ->
   exists x, isosurface_threshold_value g p = Ok (PyFloat x) /\ In x (data g)).
Proof.
  intros _ Hp. apply below_100 in Hp.
  rewrite (threshold_below_100 g p Hp).
  assert (Hwalk : forall v,
             walk (data g) (rev (NumPy.argsort (data g))) (target_sum g p) 0
             = Some v -> In v (data g)).
  { intros v Hv. apply walk_in in Hv as [i [Hi ->]].
    apply item_in, argsort_in, in_rev, Hi. }
  destruct (walk _ _ _ _) as [v|].
  - split.
    + intros w Hw. injection Hw as <-. exists v. auto.
    + intros _. exists v. auto.
  - pose proof (descending_length g) as Hlen.
    pose proof (descending_in g) as Hin.
    destruct (descending g) as [|v l].
    + split; [discriminate|]. intro Hne. destruct (data g); [congruence|].
      discriminate.
    + assert (In v (data g)) by (apply Hin; left; reflexivity).
      split.
      * intros w Hw. injection Hw as <-. exists v. auto.
      * intros _. exists v. auto.
Qed.

Lemma threshold_is_a_data_value_witness :
  exists x, isosurface_threshold_value grid_1x1x2 50 = Ok (PyFloat x) /\
            In x (data grid_1x1x2).
Proof.
  apply (threshold_is_a_data_value grid_1x1x2 50).
  - vm_compute. reflexivity.
  - vm_compute. reflexivity.
  - discriminate.
Defined.

(** ** The size of a parsed grid *)

Lemma min_max_ok (a : list float) :
  a <> [] -> (exists m, NumPy.min a = Ok m) /\ (exists m, NumPy.max a = Ok m).
Proof.
  destruct a as [|x r]; [congruence|]. intros _. simpl. eauto.
Qed.

Lemma threshold_ok (g : CubeFile) (p : float) :
  data g <> [] -> exists v, isosurface_threshold_value g p = Ok v.
Proof.
  intro Hne. unfold isosurface_threshold_value.
  destruct (100 <=? p)%float; [eauto|].
  destruct (walk _ _ _ _); [eauto|].
  pose proof (argsort_length (data g)) as Hlen.
  rewrite <- length_rev in Hlen.
  destruct (rev (NumPy.argsort (data g))); [|eauto].
  destruct (data g); [congruence | discriminate].
Qed.

(** C3, amended: a parsed grid holds exactly as many values as the product
    of its three point counts and its number of values per point, and the
    parser does not ask these numbers to be positive.  When the product is
    not zero the data is not empty and every analyser method returns; when it
    is zero the data is empty.  Files of the second kind exist: whenever the
    header reads, the product is zero and the file ends with its last header
    line, the file parses, with empty data; when white space follows the
    header instead, [numpy.fromstring] returns a value and the file does not
    parse. *)
Theorem parsed_grid_size (np : NumPy.unread_text) (text : string) :
  (forall g,
      load_from np text = Ok g ->
      let n := (x_grid_points g * y_grid_points g * z_grid_points g
                * data_points_per_grid_point g)%Z in
      Z.of_nat (List.length (data g)) = n /\
      (n = 0%Z -> data g = []) /\
      (n <> 0%Z ->
       data g <> [] /\
       (exists m, min_value g = Ok m) /\ (exists m, max_value g = Ok m) /\
       (exists m, abs_min_value g = Ok m) /\
       (exists m, abs_max_value g = Ok m) /\
       forall p, exists v, isosurface_threshold_value g p = Ok v)) /\
  (forall h,
      read_header text = Ok (h, EmptyString) -> expected_len h = 0%Z ->
      load_from np text = Ok {| header := h; data := [] |}) /\
  (forall h c rest,
      read_header text = Ok (h, String c rest) -> c_isspace c = true ->
      expected_len h = 0%Z ->
      exists e, load_from np text = Raise e).
Proof.
  split; [|split].
  - intros g H n. apply load_from_ok in H as [rest [_ [_ Hlen]]].
    fold n in Hlen. unfold expected_len in Hlen. fold n in Hlen.
    split; [exact Hlen|]. split.
    + intro Hz. rewrite Hz in Hlen. destruct (data g); [reflexivity|].
      simpl in Hlen. lia.
    + intro Hnz.
      assert (Hne : data g <> []).
      { intro E. rewrite E in Hlen. simpl in Hlen. lia. }
      split; [exact Hne|].
      unfold min_value, max_value, abs_min_value, abs_max_value.
      assert (Habs : NumPy.abs (data g) <> []).
      { unfold NumPy.abs. destruct (data g); [congruence | discriminate]. }
      destruct (min_max_ok _ Hne) as [Hmin Hmax].
      destruct (min_max_ok _ Habs) as [Hamin Hamax].
      repeat split; try assumption.
      intro p. apply threshold_ok, Hne.
  - intros h Hh Hz.
    assert (Hd : NumPy.fromstring np EmptyString = Ok [])
      by (destruct np; reflexivity).
    rewrite (load_from_after_header _ _ _ _ _ Hh Hd), Hz. reflexivity.
  - intros h c rest Hh Hc Hz.
    destruct (NumPy.fromstring np (String c rest)) as [d|e] eqn:Hd.
    + rewrite (load_from_after_header _ _ _ _ _ Hh Hd), Hz.
      apply fromstring_ok in Hd as [Hd _].
      pose proof (read_numbers_after_space c rest Hc) as Hne.
      rewrite Hd in Hne.
      destruct d as [|x d]; [congruence|].
      exists (AssertionError None). reflexivity.
    + exists e. unfold load_from. rewrite Hh. simpl. rewrite Hd. reflexivity.
Qed.

Lemma parsed_grid_size_witness :
  (data grid_1x1x2 <> [] /\
   (exists m, min_value grid_1x1x2 = Ok m) /\
   (exists m, max_value grid_1x1x2 = Ok m) /\
   (exists m, abs_min_value grid_1x1x2 = Ok m) /\
   (exists m, abs_max_value grid_1x1x2 = Ok m) /\
   forall p, exists v, isosurface_threshold_value grid_1x1x2 p = Ok v) /\
  (exists g, load_from NumPy.Raises cube_0x1x1 = Ok g /\ data g = []) /\
  (exists e,
      load_from NumPy.Raises (cube_0x1x1 ++ String newline "") = Raise e).
Proof.
  split; [|split].
  - assert (H : load_from NumPy.Raises cube_1x1x2 = Ok grid_1x1x2)
      by (vm_compute; reflexivity).
    apply (proj1 (parsed_grid_size NumPy.Raises cube_1x1x2) grid_1x1x2 H).
    vm_compute. discriminate.
  - assert (H : exists h, read_header cube_0x1x1 = Ok (h, EmptyString)
                          /\ expected_len h = 0%Z)
      by (eexists; split; vm_compute; reflexivity).
    destruct H as [h [Hh Hz]].
    eexists. split;
      [apply (proj1 (proj2 (parsed_grid_size NumPy.Raises cube_0x1x1))
                h Hh Hz) | reflexivity].
  - assert (H : exists h,
               read_header (cube_0x1x1 ++ String newline "")
               = Ok (h, String newline "") /\ expected_len h = 0%Z)
      by (eexists; split; vm_compute; reflexivity).
    destruct H as [h [Hh Hz]].
    apply (proj2 (proj2 (parsed_grid_size NumPy.Raises
                           (cube_0x1x1 ++ String newline "")))
             h newline EmptyString Hh); [reflexivity | exact Hz].
Defined.

(** ** Rounding to binary64

    [binary_round_aux] of the standard library, which specifies the results of
    the arithmetic of [float], read as arithmetic on integers. *)

Section Rounding.

Local Open Scope Z_scope.

Lemma digits2_pos_bounds (m : positive) :
  2 ^ (Zpos (digits2_pos m) - 1) <= Zpos m < 2 ^ Zpos (digits2_pos m).
Proof.
  induction m as [m IH|m IH|]; simpl digits2_pos.
  - rewrite Pos2Z.inj_succ, (Pos2Z.inj_xI m).
    replace (Z.succ (Zpos (digits2_pos m)) - 1)
      with (Z.succ (Zpos (digits2_pos m) - 1)) by lia.
    rewrite !Z.pow_succ_r by lia.
    destruct IH as [IH1 IH2]. revert IH1 IH2.
    generalize (2 ^ (Zpos (digits2_pos m) - 1)) (2 ^ Zpos (digits2_pos m)).
    intros; lia.
  - rewrite Pos2Z.inj_succ, (Pos2Z.inj_xO m).
    replace (Z.succ (Zpos (digits2_pos m)) - 1)
      with (Z.succ (Zpos (digits2_pos m) - 1)) by lia.
    rewrite !Z.pow_succ_r by lia.
    destruct IH as [IH1 IH2]. revert IH1 IH2.
    generalize (2 ^ (Zpos (digits2_pos m) - 1)) (2 ^ Zpos (digits2_pos m)).
    intros; lia.
  - simpl. lia.
Qed.

Lemma shr_1_m (mrs : shr_record) :
  0 <= shr_m mrs -> shr_m (shr_1 mrs) = shr_m mrs / 2.
Proof.
  destruct mrs as [m r s]. simpl. intro H.
  destruct m as [|[p|p|]|p]; simpl shr_m.
  - reflexivity.
  - rewrite (Pos2Z.inj_xI p). apply Z.div_unique with (r := 1); lia.
  - rewrite (Pos2Z.inj_xO p). apply Z.div_unique with (r := 0); lia.
  - reflexivity.
  - lia.
Qed.

Lemma iter_shr_1_m (p : positive) :
  forall mrs, 0 <= shr_m mrs ->
              shr_m (iter_pos shr_1 p mrs) = shr_m mrs / 2 ^ Zpos p.
Proof.
  induction p as [p IH|p IH|]; intros mrs H; simpl iter_pos.
  - assert (H1 : 0 <= shr_m (shr_1 mrs)).
    { rewrite shr_1_m by exact H. apply Z.div_pos; lia. }
    assert (H2 : 0 <= shr_m (iter_pos shr_1 p (shr_1 mrs))).
    { rewrite IH by exact H1. apply Z.div_pos; [exact H1|]. apply Z.pow_pos_nonneg; lia. }
    rewrite IH by exact H2. rewrite IH by exact H1. rewrite shr_1_m by exact H.
    assert (0 < 2 ^ Zpos p) by (apply Z.pow_pos_nonneg; lia).
    rewrite !Z.div_div by lia.
    f_equal. rewrite (Pos2Z.inj_xI p).
    replace (2 * Zpos p + 1) with (Z.succ (Zpos p + Zpos p)) by lia.
    rewrite Z.pow_succ_r by lia. rewrite Z.pow_add_r by lia. lia.
  - assert (H2 : 0 <= shr_m (iter_pos shr_1 p mrs)).
    { rewrite IH by exact H. apply Z.div_pos; [exact H|]. apply Z.pow_pos_nonneg; lia. }
    rewrite IH by exact H2. rewrite IH by exact H.
    assert (0 < 2 ^ Zpos p) by (apply Z.pow_pos_nonneg; lia).
    rewrite !Z.div_div by lia.
    f_equal. rewrite (Pos2Z.inj_xO p).
    replace (2 * Zpos p) with (Zpos p + Zpos p) by lia.
    rewrite Z.pow_add_r by lia. lia.
  - rewrite shr_1_m by exact H. reflexivity.
Qed.

Lemma shr_record_of_loc_m (m : Z) (l : location) :
  shr_m (shr_record_of_loc m l) = m.
Proof. destruct l as [|[]]; reflexivity. Qed.

(** The first component of [shr_fexp]: the mantissa is divided by the power
    of two that brings the exponent up to [fexp]. *)
Lemma shr_fexp_spec (m e : Z) (l : location) :
  0 <= m ->
  let e' := Z.max e (fexp prec emax (Zdigits2 m + e)) in
  snd (shr_fexp prec emax m e l) = e' /\
  shr_m (fst (shr_fexp prec emax m e l)) = m / 2 ^ (e' - e).
Proof.
  intros H e'. unfold shr_fexp, shr.
  destruct (fexp prec emax (Zdigits2 m + e) - e) as [|p|p] eqn:En; simpl.
  - replace e' with e by lia. rewrite Z.sub_diag, Z.div_1_r.
    split; [reflexivity | apply shr_record_of_loc_m].
  - replace e' with (e + Zpos p) by lia. split; [reflexivity|].
    rewrite iter_shr_1_m by (rewrite shr_record_of_loc_m; exact H).
    rewrite shr_record_of_loc_m. f_equal. f_equal. lia.
  - replace e' with e by lia. rewrite Z.sub_diag, Z.div_1_r.
    split; [reflexivity | apply shr_record_of_loc_m].
Qed.

Lemma round_nearest_even_bounds (m : Z) (l : location) :
  m <= round_nearest_even m l <= m + 1.
Proof.
  destruct l as [|[]]; simpl; try lia. destruct (Z.even m); lia.
Qed.

(** [binary_round_aux] in two steps: divide and round, then divide again if
    the rounding carried into one more digit. *)
Lemma binary_round_aux_spec (s : bool) (m e : Z) (l : location) :
  0 <= m ->
  exists m2,
    let e1 := Z.max e (fexp prec emax (Zdigits2 m + e)) in
    let e3 := Z.max e1 (fexp prec emax (Zdigits2 m2 + e1)) in
    m / 2 ^ (e1 - e) <= m2 <= m / 2 ^ (e1 - e) + 1 /\
    binary_round_aux prec emax s m e l =
    match m2 / 2 ^ (e3 - e1) with
    | Z0 => S754_zero s
    | Zpos p => if e3 <=? emax - prec then S754_finite s p e3 else S754_infinity s
    | Zneg _ => S754_nan
    end.
Proof.
  intro H. unfold binary_round_aux.
  pose proof (shr_fexp_spec m e l H) as [He1 Hm1].
  destruct (shr_fexp prec emax m e l) as [mrs1 e1]. simpl in He1, Hm1.
  set (m2 := round_nearest_even (shr_m mrs1) (loc_of_shr_record mrs1)).
  exists m2. simpl.
  pose proof (round_nearest_even_bounds (shr_m mrs1) (loc_of_shr_record mrs1)) as Hb.
  fold m2 in Hb. rewrite Hm1 in Hb.
  assert (H2 : 0 <= m2).
  { assert (0 <= m / 2 ^ (Z.max e (fexp prec emax (Zdigits2 m + e)) - e)).
    { apply Z.div_pos; [exact H|]. apply Z.pow_pos_nonneg; lia. }
    lia. }
  pose proof (shr_fexp_spec m2 e1 loc_Exact H2) as [He3 Hm3].
  destruct (shr_fexp prec emax m2 e1 loc_Exact) as [mrs3 e3]. simpl in He3, Hm3.
  subst e1. split; [exact Hb|].
  rewrite Hm3, He3. reflexivity.
Qed.

Lemma canonical_mantissa_spec (mx : positive) (ex : Z) :
  canonical_mantissa prec emax mx ex = true ->
  Z.max (Zpos (digits2_pos mx) + ex - 53) (-1074) = ex.
Proof. unfold canonical_mantissa. intro H. apply Z.eqb_eq in H. exact H. Qed.

Lemma fexp_spec (d : Z) : fexp prec emax d = Z.max (d - 53) (-1074).
Proof. reflexivity. Qed.

Lemma pow2_pos (n : Z) : 0 <= n -> 0 < 2 ^ n.
Proof. intro H. apply Z.pow_pos_nonneg; lia. Qed.

Lemma div_pow2_ge (m k n : Z) : 0 <= n -> k * 2 ^ n <= m -> k <= m / 2 ^ n.
Proof.
  intros Hn H. apply Z.div_le_lower_bound; [apply pow2_pos, Hn|].
  rewrite Z.mul_comm. exact H.
Qed.

(** The magnitude of a value does not shrink as the value grows. *)
Lemma digits_mono (mx m : positive) (ex e e0 : Z) :
  e0 <= e -> e0 <= ex ->
  Zpos mx * 2 ^ (ex - e0) <= Zpos m * 2 ^ (e - e0) ->
  Zpos (digits2_pos mx) + ex <= Zpos (digits2_pos m) + e.
Proof.
  intros He Hex H.
  destruct (Z_le_gt_dec (Zpos (digits2_pos mx) + ex) (Zpos (digits2_pos m) + e))
    as [Hle|Hgt]; [exact Hle | exfalso].
  pose proof (digits2_pos_bounds mx) as [Hx _].
  pose proof (digits2_pos_bounds m) as [_ Hm].
  assert (H1 : Zpos m * 2 ^ (e - e0) < 2 ^ (Zpos (digits2_pos m) + (e - e0))).
  { rewrite Z.pow_add_r by lia.
    apply Z.mul_lt_mono_pos_r; [apply pow2_pos; lia | exact Hm]. }
  assert (H2 : 2 ^ (Zpos (digits2_pos mx) - 1 + (ex - e0))
               <= Zpos mx * 2 ^ (ex - e0)).
  { rewrite Z.pow_add_r by lia.
    apply Z.mul_le_mono_nonneg_r; [apply Z.lt_le_incl, pow2_pos; lia | exact Hx]. }
  assert (H3 : 2 ^ (Zpos (digits2_pos m) + (e - e0))
               <= 2 ^ (Zpos (digits2_pos mx) - 1 + (ex - e0))).
  { apply Z.pow_le_mono_r; lia. }
  lia.
Qed.

(** Rounding does not go below a number of the format that the exact value
    reaches: the result is an infinity, or a finite number with a larger
    exponent, or one with the same exponent and a mantissa at least as
    large. *)
Lemma round_lower_bound (s : bool) (m : positive) (e : Z) (l : location)
      (mx : positive) (ex e0 : Z) :
  canonical_mantissa prec emax mx ex = true ->
  e0 <= e -> e0 <= ex ->
  Zpos mx * 2 ^ (ex - e0) <= Zpos m * 2 ^ (e - e0) ->
  binary_round_aux prec emax s (Zpos m) e l = S754_infinity s \/
  exists m' e',
    binary_round_aux prec emax s (Zpos m) e l = S754_finite s m' e' /\
    (ex < e' \/ (e' = ex /\ (mx <= m')%positive)).
Proof.
  intros Hcan He Hex Hle.
  apply canonical_mantissa_spec in Hcan.
  pose proof (digits_mono mx m ex e e0 He Hex Hle) as Hd.
  destruct (binary_round_aux_spec s (Zpos m) e l) as [m2 [Hm2 Heq]]; [lia|].
  rewrite Heq. clear Heq.
  change (Zdigits2 (Zpos m)) with (Zpos (digits2_pos m)) in *.
  rewrite fexp_spec in *.
  set (d := Zpos (digits2_pos m)) in *.
  set (dx := Zpos (digits2_pos mx)) in *.
  set (e1 := Z.max e (Z.max (d + e - 53) (-1074))) in *.
  assert (Hd1 : 1 <= d) by (unfold d; lia).
  assert (Hdx1 : 1 <= dx) by (unfold dx; lia).
  pose proof (digits2_pos_bounds m) as [Hmlo _]. fold d in Hmlo.
  assert (He1 : ex <= e1) by lia.
  assert (Hm1 : 1 <= Zpos m / 2 ^ (e1 - e)).
  { apply div_pow2_ge; [lia|]. rewrite Z.mul_1_l.
    apply Z.le_trans with (2 ^ (d - 1)); [|exact Hmlo].
    apply Z.pow_le_mono_r; lia. }
  assert (Hm1x : e1 = ex -> Zpos mx <= Zpos m / 2 ^ (e1 - e)).
  { intro E. apply div_pow2_ge; [lia|]. rewrite E.
    replace (ex - e0) with ((ex - e) + (e - e0)) in Hle by lia.
    rewrite Z.pow_add_r in Hle by lia. rewrite Z.mul_assoc in Hle.
    apply Z.mul_le_mono_pos_r in Hle; [exact Hle | apply pow2_pos; lia]. }
  destruct m2 as [|p2|p2]; [lia| |lia].
  change (Zdigits2 (Zpos p2)) with (Zpos (digits2_pos p2)).
  rewrite fexp_spec.
  set (d2 := Zpos (digits2_pos p2)).
  set (e3 := Z.max e1 (Z.max (d2 + e1 - 53) (-1074))).
  assert (Hd2 : 1 <= d2) by (unfold d2; lia).
  pose proof (digits2_pos_bounds p2) as [Hp2 _]. fold d2 in Hp2.
  assert (Hm3 : 1 <= Zpos p2 / 2 ^ (e3 - e1)).
  { apply div_pow2_ge; [lia|]. rewrite Z.mul_1_l.
    apply Z.le_trans with (2 ^ (d2 - 1)); [|exact Hp2].
    apply Z.pow_le_mono_r; lia. }
  assert (Hm3x : e3 = ex -> Zpos mx <= Zpos p2 / 2 ^ (e3 - e1)).
  { intro E. assert (E1 : e1 = ex) by lia.
    replace (e3 - e1) with 0 by lia. rewrite Z.div_1_r.
    specialize (Hm1x E1). lia. }
  destruct (Zpos p2 / 2 ^ (e3 - e1)) as [|p3|p3]; [lia| |lia].
  destruct (e3 <=? emax - prec); [right | left; reflexivity].
  exists p3, e3. split; [reflexivity|].
  destruct (Z.eq_dec e3 ex) as [E|N]; [right | left; lia].
  split; [exact E|]. specialize (Hm3x E). lia.
Qed.

Lemma iter_xO_spec (m d : positive) :
  Zpos (Pos.iter xO m d) = Zpos m * 2 ^ Zpos d.
Proof.
  rewrite <- Z.shiftl_mul_pow2 by lia. simpl.
  apply (Pos.iter_swap_gen _ _ Zpos xO (Z.mul 2)). intro a. reflexivity.
Qed.

Lemma shl_align_spec (m : positive) (e e' : Z) :
  snd (shl_align m e e') = Z.min e e' /\
  Zpos (fst (shl_align m e e')) = Zpos m * 2 ^ (e - Z.min e e').
Proof.
  unfold shl_align. destruct (e' - e) as [|d|d] eqn:E; cbn [fst snd].
  - replace (Z.min e e') with e by lia.
    rewrite ?Z.sub_diag, ?Z.pow_0_r. split; lia.
  - replace (Z.min e e') with e by lia.
    rewrite ?Z.sub_diag, ?Z.pow_0_r. split; lia.
  - pose proof (Pos2Z.opp_pos d) as Hd. 
    replace (Z.min e e') with e' by lia. split; [reflexivity|].
    rewrite iter_xO_spec. f_equal. f_equal. lia.
Qed.

(** Adding a negative number to a negative number of the format gives a
    negative number that is not larger. *)
Lemma SFadd_neg_le (x y : spec_float) :
  valid_binary x = true -> SFneg x = true -> SFneg y = true ->
  SFneg (SF64add x y) = true /\ SFleb (SF64add x y) x = true.
Proof.
  intros Hv Hx Hy.
  destruct x as [sx|[]| |[] mx ex]; try discriminate;
    destruct y as [sy|[]| |[] my ey]; try discriminate;
    try (split; reflexivity).
  unfold SF64add, SFadd. simpl in Hv. apply andb_true_iff in Hv as [Hcan _].
  set (ez := Z.min ex ey).
  pose proof (shl_align_spec mx ex ez) as [_ Hmx].
  pose proof (shl_align_spec my ey ez) as [_ Hmy].
  replace (Z.min ex ez) with ez in Hmx by lia.
  replace (Z.min ey ez) with ez in Hmy by lia.
  set (mx' := fst (shl_align mx ex ez)) in *.
  set (my' := fst (shl_align my ey ez)) in *.
  change (cond_Zopp true (Zpos mx') + cond_Zopp true (Zpos my'))
    with (Zneg (mx' + my')).
  unfold binary_normalize, binary_round.
  pose proof (shl_align_spec (mx' + my') ez
                (fexp prec emax (Zpos (digits2_pos (mx' + my')) + ez)))
    as [He' Hmz].
  destruct (shl_align (mx' + my') ez _) as [mz ez']. cbn [fst snd] in He', Hmz.
  assert (Hle : Zpos mx * 2 ^ (ex - ez') <= Zpos mz * 2 ^ (ez' - ez')).
  { rewrite Z.sub_diag, Z.mul_1_r, Hmz, <- He'.
    rewrite Pos2Z.inj_add, Hmx.
    replace (ex - ez') with ((ex - ez) + (ez - ez')) by lia.
    rewrite Z.pow_add_r by lia.
    assert (0 < 2 ^ (ez - ez')) by (apply pow2_pos; lia).
    nia. }
  destruct (round_lower_bound true mz ez' loc_Exact mx ex ez' Hcan
              ltac:(lia) ltac:(lia) Hle) as [-> | [m' [e' [-> Hcmp]]]].
  - split; reflexivity.
  - split; [reflexivity|]. unfold SFleb, SFcompare.
    destruct (Z.compare_spec e' ex) as [E|E|E]; [|lia|reflexivity].
    destruct Hcmp as [Hcmp|[_ Hcmp]]; [lia|].
    change (Pos.compare_cont Eq m' mx) with (Pos.compare m' mx).
    destruct (Pos.compare_spec m' mx); simpl; try reflexivity. lia.
Qed.

(** The sign of a rounded number is the sign it was given. *)
Lemma binary_round_aux_sign (s : bool) (m e : Z) (l : location) :
  0 <= m ->
  match binary_round_aux prec emax s m e l with
  | S754_zero s' | S754_infinity s' | S754_finite s' _ _ => s' = s
  | S754_nan => False
  end.
Proof.
  intro H. destruct (binary_round_aux_spec s m e l H) as [m2 [Hm2 ->]].
  assert (H2 : 0 <= m2).
  { assert (0 <= m / 2 ^ (Z.max e (fexp prec emax (Zdigits2 m + e)) - e)).
    { apply Z.div_pos; [exact H|]. apply pow2_pos; lia. }
    lia. }
  set (e1 := Z.max e (fexp prec emax (Zdigits2 m + e))).
  set (e3 := Z.max e1 (fexp prec emax (Zdigits2 m2 + e1))).
  assert (H3 : 0 <= m2 / 2 ^ (e3 - e1)).
  { apply Z.div_pos; [exact H2|]. apply pow2_pos; lia. }
  destruct (m2 / 2 ^ (e3 - e1)); [reflexivity| |lia].
  destruct (e3 <=? emax - prec); reflexivity.
Qed.




Lemma SFleb_zero_nonpos (x : spec_float) :
  SFleb x (S754_zero false) = SFnonpos x.
Proof. destruct x as [s|[]| |[] m e]; reflexivity. Qed.

Lemma SFleb_zero_nonneg (x : spec_float) :
  SFleb (S754_zero false) x = SFnonneg x.
Proof. destruct x as [s|[]| |[] m e]; reflexivity. Qed.

Lemma SFltb_nonpos_neg (c t : spec_float) :
  SFltb c t = true -> SFnonpos t = true -> SFneg c = true.
Proof.
  destruct c as [sc|[]| |[] mc ec]; destruct t as [st|[]| |[] mt et];
    try discriminate; try reflexivity.
Qed.

Lemma SFleb_neg (x y : spec_float) :
  SFleb x y = true -> SFneg y = true -> SFneg x = true.
Proof.
  destruct x as [sx|[]| |[] mx ex]; destruct y as [sy|[]| |[] my ey];
    try discriminate; try reflexivity.
Qed.

Lemma SFadd_zero_l (x : spec_float) :
  SFcompare (SF64add (S754_zero false) x) x
  = match x with S754_nan => None | _ => Some Eq end /\
  (SFneg (SF64add (S754_zero false) x) = true ->
   SF64add (S754_zero false) x = x).
Proof.
  destruct x as [[]|[]| |[] m e]; simpl; try (split; [reflexivity|]; auto; discriminate).
  - split; [|reflexivity]. rewrite Z.compare_refl.
    change (Pos.compare_cont Eq m m) with (Pos.compare m m).
    rewrite Pos.compare_refl. reflexivity.
  - split; [|reflexivity]. rewrite Z.compare_refl.
    change (Pos.compare_cont Eq m m) with (Pos.compare m m).
    rewrite Pos.compare_refl. reflexivity.
Qed.

Lemma SFadd_nan (x y : spec_float) :
  x = S754_nan \/ y = S754_nan -> SF64add x y = S754_nan.
Proof.
  intros [-> | ->]; [reflexivity|]. destruct x as [[]|[]| |[] m e]; reflexivity.
Qed.

Lemma SFleb_ltb_trans (x y z : spec_float) :
  SFleb x y = true -> SFltb y z = true -> SFltb x z = true.
Proof.
  unfold SFleb, SFltb.
  destruct x as [sx|sx| |sx mx ex], y as [sy|sy| |sy my ey],
           z as [sz|sz| |sz mz ez];
    try destruct sx; try destruct sy; try destruct sz; simpl;
    try reflexivity; try discriminate;
    repeat match goal with
           | |- context [Z.compare ?a ?b] => destruct (Z.compare_spec a b)
           | |- context [Pos.compare_cont Eq ?a ?b] =>
               change (Pos.compare_cont Eq a b) with (Pos.compare a b);
               destruct (Pos.compare_spec a b)
           end; simpl; try reflexivity; try discriminate; try lia.
Qed.

End Rounding.

(** ** Facts on [float] for sums and targets *)

Section FloatFacts.

Local Open Scope float_scope.

Lemma Prim2SF_zero : Prim2SF 0 = S754_zero false.
Proof. reflexivity. Qed.

Lemma leb_zero_nonpos (x : float) :
  (x <=? 0) = SFnonpos (Prim2SF x).
Proof. rewrite leb_spec, Prim2SF_zero. apply SFleb_zero_nonpos. Qed.

Lemma leb_zero_nonneg (x : float) :
  (0 <=? x) = SFnonneg (Prim2SF x).
Proof. rewrite leb_spec, Prim2SF_zero. apply SFleb_zero_nonneg. Qed.

Lemma add_nan (x y : float) :
  is_nan x = true \/ is_nan y = true -> is_nan (x + y) = true.
Proof.
  rewrite !is_nan_spec, add_spec. apply SFadd_nan.
Qed.

Lemma fold_add_nan_acc (l : list float) (c : float) :
  is_nan c = true -> is_nan (fold_left PrimFloat.add l c) = true.
Proof.
  revert c. induction l as [|x l IH]; intros c H; simpl; [exact H|].
  apply IH, add_nan. left. exact H.
Qed.

(** A NaN among the values makes their sum a NaN, in whatever order NumPy
    adds them. *)
Local Abbreviation has_nan l := (exists x, In x l /\ is_nan x = true).

Ltac nan_in_sum :=
  match goal with
  | H : is_nan ?x = true |- is_nan ?x = true => exact H
  | |- is_nan (_ + _) = true =>
      apply add_nan; first [left; nan_in_sum | right; nan_in_sum]
  end.

Lemma fold_add_nan (l : list float) (c : float) :
  has_nan l -> is_nan (fold_left PrimFloat.add l c) = true.
Proof.
  revert c. induction l as [|y l IH]; intros c [x [Hx Hn]]; [destruct Hx|].
  simpl. destruct Hx as [->|Hx].
  - apply fold_add_nan_acc. nan_in_sum.
  - apply IH. exists x. auto.
Qed.

Lemma has_nan_split (n : nat) (l : list float) :
  has_nan l -> has_nan (firstn n l) \/ has_nan (skipn n l).
Proof.
  intros [x [Hx Hn]]. rewrite <- (firstn_skipn n l) in Hx.
  apply in_app_or in Hx as [Hx|Hx]; [left | right]; exists x; auto.
Qed.

Lemma add_each_length (r : list float) :
  forall b, List.length r = List.length b ->
            List.length (NumPy.add_each r b) = List.length r.
Proof.
  intros b H. unfold NumPy.add_each. rewrite length_map, length_combine. lia.
Qed.

Lemma add_each_nan (r : list float) :
  forall b, List.length r = List.length b ->
            has_nan r \/ has_nan b -> has_nan (NumPy.add_each r b).
Proof.
  induction r as [|x r IH]; intros [|y b] Hlen H; try discriminate.
  - destruct H as [[z [[] _]] | [z [[] _]]].
  - simpl in Hlen. injection Hlen as Hlen.
    change (NumPy.add_each (x :: r) (y :: b))
      with ((x + y) :: NumPy.add_each r b).
    assert (Hxy : is_nan x = true \/ is_nan y = true \/ has_nan r \/ has_nan b).
    { destruct H as [[z [[<-|Hz] Hn]] | [z [[<-|Hz] Hn]]]; eauto 6. }
    destruct Hxy as [Hx | [Hy | Hrb]].
    + exists (x + y). split; [left; reflexivity | nan_in_sum].
    + exists (x + y). split; [left; reflexivity | nan_in_sum].
    + destruct (IH b Hlen Hrb) as [z [Hz Hn]]. exists z. split; [right|]; auto.
Qed.

Lemma add_groups_length (k : nat) :
  forall r a, List.length r = 8%nat -> (8 * k <= List.length a)%nat ->
              List.length (fst (NumPy.add_groups k r a)) = 8%nat.
Proof.
  induction k as [|k IH]; intros r a Hr Ha; cbn [NumPy.add_groups];
    [exact Hr|].
  assert (H8 : List.length (firstn 8 a) = 8%nat)
    by (rewrite length_firstn; lia).
  apply IH.
  - rewrite add_each_length; congruence.
  - rewrite length_skipn. lia.
Qed.

Lemma add_groups_nan (k : nat) :
  forall r a, List.length r = 8%nat -> (8 * k <= List.length a)%nat ->
              has_nan r \/ has_nan a ->
              has_nan (fst (NumPy.add_groups k r a))
              \/ has_nan (snd (NumPy.add_groups k r a)).
Proof.
  induction k as [|k IH]; intros r a Hr Ha H; cbn [NumPy.add_groups];
    [exact H|].
  assert (H8 : List.length (firstn 8 a) = 8%nat)
    by (rewrite length_firstn; lia).
  apply IH.
  - rewrite add_each_length; congruence.
  - rewrite length_skipn. lia.
  - destruct H as [H|H].
    + left. apply add_each_nan; [congruence | left; exact H].
    + destruct (has_nan_split 8 a H) as [H1|H2]; [left | right; exact H2].
      apply add_each_nan; [congruence | right; exact H1].
Qed.

Lemma block_sum_nan (a : list float) :
  (8 <= List.length a)%nat -> has_nan a -> is_nan (NumPy.block_sum a) = true.
Proof.
  intros Hlen Hn. unfold NumPy.block_sum.
  set (k := (List.length a / 8 - 1)%nat).
  assert (Hr : List.length (firstn 8 a) = 8%nat)
    by (rewrite length_firstn; lia).
  assert (Hk : (8 * k <= List.length (skipn 8 a))%nat).
  { rewrite length_skipn. unfold k.
    pose proof (Nat.div_mod_eq (List.length a) 8). lia. }
  pose proof (add_groups_length k _ _ Hr Hk) as Hl8.
  pose proof (add_groups_nan k _ _ Hr Hk (has_nan_split 8 a Hn)) as Hnan.
  destruct (NumPy.add_groups k (firstn 8 a) (skipn 8 a)) as [r rest].
  cbn [fst snd] in Hl8, Hnan.
  destruct r as [|r0 [|r1 [|r2 [|r3 [|r4 [|r5 [|r6 [|r7 [|r8 r]]]]]]]]];
    try discriminate.
  destruct Hnan as [[x [Hx Hnx]] | Hrest]; [|apply fold_add_nan, Hrest].
  apply fold_add_nan_acc.
  simpl in Hx.
  destruct Hx as [<-|[<-|[<-|[<-|[<-|[<-|[<-|[<-|[]]]]]]]]]; nan_in_sum.
Qed.

Lemma pairwise_sum_eq (fuel : nat) (a : list float) :
  NumPy.pairwise_sum fuel a =
  let n := List.length a in
  if (n <? 8)%nat then fold_left PrimFloat.add a 0
  else if (n <=? 128)%nat then NumPy.block_sum a
  else
    match fuel with
    | O => NumPy.block_sum a
    | S fuel' =>
        let n2 := (n / 2 - (n / 2) mod 8)%nat in
        NumPy.pairwise_sum fuel' (firstn n2 a)
        + NumPy.pairwise_sum fuel' (skipn n2 a)
    end.
Proof. destruct fuel; reflexivity. Qed.

Lemma pairwise_sum_nan (fuel : nat) :
  forall a, has_nan a -> is_nan (NumPy.pairwise_sum fuel a) = true.
Proof.
  induction fuel as [|fuel IH]; intros a Hn; rewrite pairwise_sum_eq;
    cbv zeta;
    destruct (Nat.ltb_spec (List.length a) 8) as [H8|H8];
    try (apply fold_add_nan, Hn);
    destruct (Nat.leb_spec (List.length a) 128) as [H128|H128];
    try (apply block_sum_nan; [exact H8 | exact Hn]).
  destruct (has_nan_split
              (List.length a / 2 - (List.length a / 2) mod 8) a Hn)
    as [H|H]; apply add_nan; [left | right]; apply IH, H.
Qed.

Lemma sum_nan_free (a : list float) :
  is_nan (NumPy.sum a) = false -> nan_free a.
Proof.
  intros H y Hy. destruct (is_nan y) eqn:E; [|reflexivity].
  unfold NumPy.sum in H. rewrite add_nan in H; [discriminate|].
  right. apply pairwise_sum_nan. exists y. auto.
Qed.

(** Fewer than eight values are added in order; eight values are added in
    pairs, which need not give the same number: of 1e16 and seven times 1 the
    sum in order is 1e16, and [numpy.sum] is larger by 6. *)
Lemma sum_in_order (a : list float) :
  (List.length a < 8)%nat ->
  NumPy.sum a = 0 + fold_left PrimFloat.add a 0.
Proof.
  intro H. unfold NumPy.sum. rewrite pairwise_sum_eq. cbv zeta.
  destruct (Nat.ltb_spec (List.length a) 8) as [_|H8]; [reflexivity | lia].
Qed.

Lemma sum_of_eight (a0 a1 a2 a3 a4 a5 a6 a7 : float) :
  NumPy.sum [a0; a1; a2; a3; a4; a5; a6; a7]
  = 0 + (((a0 + a1) + (a2 + a3)) + ((a4 + a5) + (a6 + a7))).
Proof. reflexivity. Qed.

Lemma sum_of_eight_not_in_order :
  NumPy.sum [1e16; 1; 1; 1; 1; 1; 1; 1] = 10000000000000006 /\
  fold_left PrimFloat.add [1e16; 1; 1; 1; 1; 1; 1; 1] 0 = 1e16.
Proof. split; vm_compute; reflexivity. Qed.

(** The splitting of [pairwise_sum] never runs out of fuel. *)
Lemma pairwise_sum_fuel (fuel : nat) :
  forall fuel' a,
    (List.length a <= 128 + fuel)%nat -> (List.length a <= 128 + fuel')%nat ->
    NumPy.pairwise_sum fuel a = NumPy.pairwise_sum fuel' a.
Proof.
  induction fuel as [|fuel IH]; intros fuel' a H H';
    rewrite (pairwise_sum_eq _ a), (pairwise_sum_eq fuel' a); cbv zeta;
    destruct (Nat.ltb_spec (List.length a) 8) as [H8|H8]; try reflexivity;
    destruct (Nat.leb_spec (List.length a) 128) as [H128|H128];
    try reflexivity; [lia|].
  destruct fuel' as [|fuel']; [lia|].
  set (n2 := (List.length a / 2 - (List.length a / 2) mod 8)%nat).
  assert (Hn2 : (1 <= n2 < List.length a)%nat).
  { unfold n2. pose proof (Nat.div_mod_eq (List.length a) 2).
    pose proof (Nat.mod_upper_bound (List.length a) 2 ltac:(lia)).
    pose proof (Nat.mod_upper_bound (List.length a / 2) 8 ltac:(lia)).
    lia. }
  f_equal; apply IH; rewrite ?length_firstn, ?length_skipn; lia.
Qed.

Lemma leb_ltb_trans (x y z : float) :
  (x <=? y) = true -> (y <? z) = true -> (x <? z) = true.
Proof. rewrite leb_spec, !ltb_spec. apply SFleb_ltb_trans. Qed.


End FloatFacts.

Section LargestValue.

Local Open Scope float_scope.

Lemma fold_maximum (r : list float) :
  forall x, is_nan x = false -> nan_free r ->
    (fold_left NumPy.maximum r x = x \/ In (fold_left NumPy.maximum r x) r) /\
    (x <=? fold_left NumPy.maximum r x) = true /\
    forall y, In y r -> (y <=? fold_left NumPy.maximum r x) = true.
Proof.
  induction r as [|y r IH]; intros x Hx Hr; simpl.
  - split; [left; reflexivity|]. split; [apply leb_refl, Hx|]. intros y [].
  - assert (Hy : is_nan y = false) by (apply Hr; left; reflexivity).
    assert (Hr' : nan_free r) by (intros z Hz; apply Hr; right; exact Hz).
    assert (Hmax : NumPy.maximum x y = if y <=? x then x else y).
    { unfold NumPy.maximum. rewrite Hx, orb_false_r. reflexivity. }
    rewrite Hmax. clear Hmax.
    destruct (y <=? x) eqn:E.
    + destruct (IH x Hx Hr') as [Hin [Hle Hall]].
      split; [destruct Hin; auto|]. split; [exact Hle|].
      intros z [<-|Hz]; [apply (leb_trans _ _ _ E Hle) | apply Hall, Hz].
    + destruct (IH y Hy Hr') as [Hin [Hle Hall]].
      assert (Hxy : (x <=? y) = true).
      { destruct (leb_total y x Hy Hx) as [H|H]; [congruence|].
        apply ltb_leb, H. }
      split; [destruct Hin; auto|].
      split; [apply (leb_trans _ _ _ Hxy Hle)|].
      intros z [<-|Hz]; [exact Hle | apply Hall, Hz].
Qed.

(** [numpy.max] of an array without NaN is one of its values and bounds all
    of them. *)
Lemma max_spec (a : list float) :
  nan_free a -> a <> [] ->
  exists m, NumPy.max a = Ok m /\ In m a /\
            forall y, In y a -> (y <=? m) = true.
Proof.
  intros Hnan Hne. destruct a as [|x r]; [congruence|].
  destruct (fold_maximum r x) as [Hin [Hle Hall]].
  - apply Hnan. left. reflexivity.
  - intros z Hz. apply Hnan. right. exact Hz.
  - exists (fold_left NumPy.maximum r x). split; [reflexivity|].
    split; [destruct Hin as [->|Hin]; [left; reflexivity | right; exact Hin]|].
    intros y [<-|Hy]; [exact Hle | apply Hall, Hy].
Qed.

(** The first value of the walk bounds all values. *)
Lemma descending_head (g : CubeFile) (v : float) (rest : list float) :
  nan_free (data g) -> descending g = v :: rest ->
  In v (data g) /\ forall x, In x (data g) -> (x <=? v) = true.
Proof.
  intros Hnan Hd.
  pose proof (sorted_values_descending (data g)) as Hs.
  fold (descending g) in Hs. rewrite Hd in Hs.
  pose proof (sorted_values_perm (data g)) as Hp.
  fold (descending g) in Hp. rewrite Hd in Hp.
  assert (Hv : In v (data g)).
  { apply (Permutation_in _ Hp). left. reflexivity. }
  split; [exact Hv|]. intros x Hx.
  apply (Permutation_in _ (Permutation_sym Hp)) in Hx.
  destruct Hx as [<-|Hx]; [apply leb_refl, Hnan, Hv|].
  apply StronglySorted_inv in Hs as [_ Hs]. rewrite Forall_forall in Hs.
  apply not_lt_leb; [| apply Hnan, Hv | apply Hs, Hx].
  apply Hnan, (Permutation_in _ Hp). right. exact Hx.
Qed.

Variable a : list float.

Lemma walk_nan_target (idx : list nat) (t c : float) :
  is_nan t = true -> walk a idx t c = None.
Proof.
  intro Ht. revert c. induction idx as [|i idx IH]; intro c; simpl;
    [reflexivity|].
  destruct (t <=? c + NumPy.item a i) eqn:E; [|apply IH].
  apply leb_not_nan in E as [E _]. congruence.
Qed.

(** Once the running sum is negative and below the target, adding negative
    values never brings it back to the target. *)
Lemma walk_negative (idx : list nat) (t : float) :
  forall c,
    SFneg (Prim2SF c) = true -> (c <? t) = true ->
    (forall i, In i idx -> SFneg (Prim2SF (NumPy.item a i)) = true) ->
    walk a idx t c = None.
Proof.
  induction idx as [|i idx IH]; intros c Hc Hlt Hneg; simpl; [reflexivity|].
  destruct (SFadd_neg_le (Prim2SF c) (Prim2SF (NumPy.item a i))
              (Prim2SF_valid c) Hc (Hneg i (or_introl eq_refl)))
    as [Hn Hle].
  rewrite <- add_spec in Hn, Hle. rewrite <- leb_spec in Hle.
  pose proof (leb_ltb_trans _ _ _ Hle Hlt) as Hlt'.
  rewrite (ltb_not_leb _ _ Hlt').
  apply IH; [exact Hn | exact Hlt' |].
  intros j Hj. apply Hneg. right. exact Hj.
Qed.

End LargestValue.

Section NonPositiveSum.

Local Open Scope float_scope.

Lemma add_zero_l_not_nan (x : float) :
  is_nan x = false -> is_nan (0 + x) = false.
Proof.
  rewrite !is_nan_false, add_spec. intros Hx E.
  pose proof (SFadd_zero_l (Prim2SF x)) as [Hc _].
  change (Prim2SF 0) with (S754_zero false) in E. rewrite E in Hc.
  destruct (Prim2SF x); [discriminate | discriminate | congruence | discriminate].
Qed.

Lemma add_zero_l_neg (x : float) :
  SFneg (Prim2SF (0 + x)) = true -> SFneg (Prim2SF x) = true.
Proof.
  rewrite add_spec. change (Prim2SF 0) with (S754_zero false). intro H.
  pose proof (SFadd_zero_l (Prim2SF x)) as [_ Hc].
  rewrite (Hc H) in H. exact H.
Qed.

End NonPositiveSum.




(** ** Positions in the walk *)

Section Positions.

Local Open Scope float_scope.




End Positions.

Section Antitone.

Local Open Scope float_scope.

(** What the method returns below 100, in terms of the running sums. *)
Lemma threshold_cases (g : CubeFile) (p : float) :
  data g <> [] -> (100 <=? p) = false ->
  exists v, isosurface_threshold_value g p = Ok (PyFloat v) /\
            first_reaching g p v.
Proof.
  intros Hne Hp.
  rewrite (threshold_below_100 g p Hp).
  pose proof (walk_values (data g) (rev (NumPy.argsort (data g)))
                          (target_sum g p) 0) as Hw.
  cbv zeta in Hw. fold (descending g) in Hw.
  destruct (walk _ _ _ _) as [v|].
  - exists v. split; [reflexivity|].
    left. destruct Hw as [k [Hk [Hr Hj]]]. exists k. auto.
  - pose proof (descending_length g) as Hlen.
    destruct (descending g) as [|v l] eqn:Hd.
    + destruct (data g); [congruence | discriminate].
    + exists v. split; [reflexivity|].
      right. split; [|rewrite Hd; reflexivity].
      intros k Hk. unfold reached, running_sum. rewrite Hd. apply Hw.
      rewrite length_rev, argsort_length. exact Hk.
Qed.



End Antitone.

(** ** Rounding is monotone *)

Section Codes.

Local Open Scope Z_scope.

Lemma sticky_div_1 (c : Z) : sticky_div c 1 = c.
Proof.
  unfold sticky_div. rewrite Z.mul_1_r.
  pose proof (Z.div_mod c 2 ltac:(lia)).
  pose proof (Z.mod_pos_bound c 2 ltac:(lia)).
  destruct (Z.eqb_spec (c mod 2) 0); lia.
Qed.

Lemma sticky_div_compose (c k1 k2 : Z) :
  0 < k1 -> 0 < k2 ->
  sticky_div (sticky_div c k1) k2 = sticky_div c (k1 * k2).
Proof.
  intros H1 H2. unfold sticky_div.
  set (A := c / (2 * k1)). set (r := c mod (2 * k1)).
  assert (Hc : c = 2 * k1 * A + r) by (apply Z.div_mod; lia).
  assert (Hr : 0 <= r < 2 * k1) by (apply Z.mod_pos_bound; lia).
  set (b := if r =? 0 then 0 else 1).
  assert (Hb : 0 <= b <= 1) by (unfold b; destruct (r =? 0); lia).
  assert (Hdiv : (2 * A + b) / (2 * k2) = A / k2).
  { rewrite <- Z.div_div by lia. f_equal.
    symmetry. apply Z.div_unique with (r := b); lia. }
  assert (Hq : c / (2 * (k1 * k2)) = A / k2).
  { replace (2 * (k1 * k2)) with (2 * k1 * k2) by lia.
    rewrite <- Z.div_div by lia. reflexivity. }
  rewrite Hdiv, Hq. f_equal.
  set (A' := A / k2). set (r' := A mod k2).
  assert (HA : A = k2 * A' + r') by (apply Z.div_mod; lia).
  assert (Hr' : 0 <= r' < k2) by (apply Z.mod_pos_bound; lia).
  assert (Hm1 : (2 * A + b) mod (2 * k2) = 2 * r' + b).
  { symmetry. apply Z.mod_unique with (q := A'); lia. }
  assert (Hm2 : c mod (2 * (k1 * k2)) = 2 * k1 * r' + r).
  { symmetry. apply Z.mod_unique with (q := A'); nia. }
  rewrite Hm1, Hm2.
  assert (Hb' : b = 0 <-> r = 0) by (unfold b; destruct (Z.eqb_spec r 0); lia).
  destruct (Z.eqb_spec (2 * r' + b) 0); destruct (Z.eqb_spec (2 * k1 * r' + r) 0);
    try reflexivity; exfalso; nia.
Qed.

Lemma sticky_div_nonneg (c k : Z) : 0 <= c -> 0 < k -> 0 <= sticky_div c k.
Proof.
  intros Hc Hk. unfold sticky_div.
  assert (0 <= c / (2 * k)) by (apply Z.div_pos; lia).
  destruct (_ =? _); lia.
Qed.


Lemma code_shr_1 (mrs : shr_record) :
  0 <= shr_m mrs -> code (shr_1 mrs) = sticky_div (code mrs) 2.
Proof.
  destruct mrs as [m r s]. cbn [shr_m]. intro H.
  assert (E : shr_1 {| shr_m := m; shr_r := r; shr_s := s |}
              = {| shr_m := m / 2; shr_r := Z.odd m; shr_s := r || s |}).
  { destruct m as [|[p|p|]|p]; try reflexivity; try lia; simpl shr_1.
    - f_equal. rewrite (Pos2Z.inj_xI p). apply Z.div_unique with (r := 1); lia.
    - f_equal. rewrite (Pos2Z.inj_xO p). apply Z.div_unique with (r := 0); lia. }
  rewrite E. unfold code, sticky_div. cbn [shr_m shr_r shr_s].
  pose proof (Z.div_mod m 2 ltac:(lia)) as Hm.
  pose proof (Z.mod_pos_bound m 2 ltac:(lia)) as Hm2.
  rewrite (Zodd_mod m).
  set (j := (if r then 2 else 0) + (if s then 1 else 0)).
  assert (Hj : 0 <= j < 4) by (unfold j; destruct r, s; lia).
  replace (4 * m + (if r then 2 else 0) + (if s then 1 else 0)) with (4 * m + j)
    by (unfold j; lia).
  assert (Hq : (4 * m + j) / (2 * 2) = m).
  { symmetry. apply Z.div_unique with (r := j); lia. }
  assert (Hr : (4 * m + j) mod (2 * 2) = j).
  { symmetry. apply Z.mod_unique with (q := m); lia. }
  rewrite Hq, Hr.
  assert (Hs : (if r || s then 1 else 0) = (if j =? 0 then 0 else 1)).
  { unfold j. destruct r, s; reflexivity. }
  rewrite Hs.
  destruct (Z.eqb_spec (m mod 2) 1) as [E1|E1]; destruct (j =? 0); lia.
Qed.

Lemma shr_1_nonneg (mrs : shr_record) : 0 <= shr_m mrs -> 0 <= shr_m (shr_1 mrs).
Proof.
  intro H. rewrite shr_1_m by exact H. apply Z.div_pos; lia.
Qed.

Lemma code_iter_shr_1 (p : positive) :
  forall mrs, 0 <= shr_m mrs ->
              code (iter_pos shr_1 p mrs) = sticky_div (code mrs) (2 ^ Zpos p).
Proof.
  assert (Hinv : forall q mrs, 0 <= shr_m mrs -> 0 <= shr_m (iter_pos shr_1 q mrs)).
  { intros q mrs H. rewrite iter_shr_1_m by exact H.
    apply Z.div_pos; [exact H | apply pow2_pos; lia]. }
  induction p as [p IH|p IH|]; intros mrs H; simpl iter_pos.
  - rewrite IH by (apply Hinv, shr_1_nonneg, H).
    rewrite IH by (apply shr_1_nonneg, H).
    rewrite code_shr_1 by exact H.
    assert (0 < 2 ^ Zpos p) by (apply pow2_pos; lia).
    rewrite !sticky_div_compose by lia. f_equal.
    rewrite (Pos2Z.inj_xI p).
    replace (2 * Zpos p + 1) with (Z.succ (Zpos p + Zpos p)) by lia.
    rewrite Z.pow_succ_r by lia. rewrite Z.pow_add_r by lia. lia.
  - rewrite IH by (apply Hinv, H). rewrite IH by exact H.
    assert (0 < 2 ^ Zpos p) by (apply pow2_pos; lia).
    rewrite !sticky_div_compose by lia. f_equal.
    rewrite (Pos2Z.inj_xO p).
    replace (2 * Zpos p) with (Zpos p + Zpos p) by lia.
    rewrite Z.pow_add_r by lia. lia.
  - rewrite code_shr_1 by exact H. reflexivity.
Qed.

Lemma code_of_loc (m : Z) (l : location) :
  code (shr_record_of_loc m l) = 4 * m + loc_code l.
Proof. destruct l as [|[]]; unfold code; simpl; lia. Qed.

Lemma loc_code_bounds (l : location) : 0 <= loc_code l < 4.
Proof. destruct l as [|[]]; simpl; lia. Qed.

(** Rounding to nearest, ties to even, reads the code only. *)
Lemma round_nearest_even_code (mrs : shr_record) :
  round_nearest_even (shr_m mrs) (loc_of_shr_record mrs) = rne4 (code mrs).
Proof.
  destruct mrs as [m r s]. unfold code, rne4. simpl shr_m. simpl shr_r. simpl shr_s.
  set (j := (if r then 2 else 0) + (if s then 1 else 0)).
  assert (Hj : 0 <= j < 4) by (unfold j; destruct r, s; lia).
  replace (4 * m + (if r then 2 else 0) + (if s then 1 else 0)) with (4 * m + j)
    by (unfold j; lia).
  assert (Hq : (4 * m + j) / 4 = m).
  { symmetry. apply Z.div_unique with (r := j); lia. }
  assert (Hr : (4 * m + j) mod 4 = j).
  { symmetry. apply Z.mod_unique with (q := m); lia. }
  rewrite Hq, Hr. unfold j. destruct r, s; reflexivity.
Qed.


Lemma rne4_bounds (c : Z) : c / 4 <= rne4 c <= c / 4 + 1.
Proof.
  unfold rne4. destruct (_ <? _); [lia|]. destruct (_ =? _); [|lia].
  destruct (Z.even _); lia.
Qed.

End Codes.

Section RoundValue.

Local Open Scope Z_scope.

Lemma shr_fexp_code (m e : Z) (l : location) :
  0 <= m ->
  let E := Z.max e (fexp prec emax (Zdigits2 m + e)) in
  snd (shr_fexp prec emax m e l) = E /\
  0 <= shr_m (fst (shr_fexp prec emax m e l)) /\
  code (fst (shr_fexp prec emax m e l))
  = sticky_div (4 * m + loc_code l) (2 ^ (E - e)).
Proof.
  intros H E. unfold shr_fexp, shr.
  destruct (fexp prec emax (Zdigits2 m + e) - e) as [|p|p] eqn:En; cbn [fst snd].
  - replace E with e by lia. rewrite Z.sub_diag, Z.pow_0_r, sticky_div_1.
    rewrite shr_record_of_loc_m, code_of_loc. auto.
  - replace E with (e + Zpos p) by lia. split; [reflexivity|].
    assert (H0 : 0 <= shr_m (shr_record_of_loc m l))
      by (rewrite shr_record_of_loc_m; exact H).
    split.
    + rewrite iter_shr_1_m by exact H0.
      apply Z.div_pos; [exact H0 | apply pow2_pos; lia].
    + rewrite code_iter_shr_1 by exact H0. rewrite code_of_loc.
      f_equal. f_equal. lia.
  - replace E with e by lia. rewrite Z.sub_diag, Z.pow_0_r, sticky_div_1.
    rewrite shr_record_of_loc_m, code_of_loc. auto.
Qed.

(** [binary_round_aux] through the code of its input. *)
Lemma binary_round_aux_code (s : bool) (m e : Z) (l : location) :
  0 <= m ->
  let E := Z.max e (fexp prec emax (Zdigits2 m + e)) in
  let r := rne4 (sticky_div (4 * m + loc_code l) (2 ^ (E - e))) in
  let e3 := Z.max E (fexp prec emax (Zdigits2 r + E)) in
  0 <= r /\
  binary_round_aux prec emax s m e l =
  match r / 2 ^ (e3 - E) with
  | Z0 => S754_zero s
  | Zpos p => if e3 <=? emax - prec then S754_finite s p e3 else S754_infinity s
  | Zneg _ => S754_nan
  end.
Proof.
  intros H E r e3. unfold binary_round_aux.
  pose proof (shr_fexp_code m e l H) as [He1 [Hm1 Hc1]].
  destruct (shr_fexp prec emax m e l) as [mrs1 e1]. cbn [fst snd] in He1, Hm1, Hc1.
  rewrite round_nearest_even_code, Hc1. fold E. fold r.
  assert (Hr : 0 <= r).
  { unfold r. pose proof (rne4_bounds (sticky_div (4 * m + loc_code l) (2 ^ (E - e)))) as Hb.
    assert (0 <= sticky_div (4 * m + loc_code l) (2 ^ (E - e))).
    { apply sticky_div_nonneg; [|apply pow2_pos; unfold E; lia].
      pose proof (loc_code_bounds l). lia. }
    assert (0 <= sticky_div (4 * m + loc_code l) (2 ^ (E - e)) / 4)
      by (apply Z.div_pos; lia).
    lia. }
  split; [exact Hr|].
  pose proof (shr_fexp_spec r e1 loc_Exact Hr) as [He3 Hm3].
  destruct (shr_fexp prec emax r e1 loc_Exact) as [mrs3 e3']. cbn [fst snd] in He3, Hm3.
  rewrite Hm3, He3, He1. reflexivity.
Qed.

Lemma Zdigits2_bounds (m : Z) :
  0 < m -> 2 ^ (Zdigits2 m - 1) <= m < 2 ^ Zdigits2 m.
Proof.
  destruct m as [|p|p]; try lia. intros _. apply digits2_pos_bounds.
Qed.

Lemma Zdigits2_pos (m : Z) : 0 < m -> 1 <= Zdigits2 m.
Proof. destruct m as [|p|p]; simpl; lia. Qed.

Lemma pow2_lt_inv (a b : Z) : 0 <= b -> 2 ^ a < 2 ^ b -> a < b.
Proof. intros Hb H. apply (Z.pow_lt_mono_r_iff 2); lia. Qed.

Lemma pow2_le (a b : Z) : 0 <= a <= b -> 2 ^ a <= 2 ^ b.
Proof. intro H. apply Z.pow_le_mono_r; lia. Qed.

(** A mantissa of at most 53 digits, or the power of two just above, at a
    canonical exponent, comes out of the second shift as a number of the
    format with the same value. *)
Lemma finish_canonical (r E : Z) :
  0 <= r <= 2 ^ 53 -> -1074 <= E -> (E = -1074 \/ 2 ^ 52 <= r) ->
  let e3 := Z.max E (fexp prec emax (Zdigits2 r + E)) in
  match r / 2 ^ (e3 - E) with
  | Z0 => r = 0
  | Zpos m3 => canonical_mantissa prec emax m3 e3 = true /\
               Zpos m3 * 2 ^ (e3 - E) = r /\ E <= e3
  | Zneg _ => False
  end.
Proof.
  intros Hr HE Hn e3. unfold e3. clear e3. rewrite fexp_spec.
  destruct (Z.eq_dec r 0) as [->|Hr0].
  { simpl Zdigits2. replace (Z.max E (Z.max (0 + E - 53) (-1074))) with E by lia.
    rewrite Z.sub_diag. reflexivity. }
  assert (Hpos : 0 < r) by lia.
  pose proof (Zdigits2_bounds r Hpos) as [Hlo Hhi].
  pose proof (Zdigits2_pos r Hpos) as Hd1.
  set (d := Zdigits2 r) in *.
  destruct (Z.eq_dec r (2 ^ 53)) as [E53|N53].
  - assert (Hd : d = 54).
    { unfold d. rewrite E53. reflexivity. }
    rewrite Hd. replace (Z.max E (Z.max (54 + E - 53) (-1074))) with (E + 1) by lia.
    replace (E + 1 - E) with 1 by lia. rewrite E53.
    change (2 ^ 53 / 2 ^ 1) with (Zpos (2 ^ 52)).
    split; [|split; [reflexivity | lia]].
    unfold canonical_mantissa. rewrite fexp_spec.
    change (Zpos (digits2_pos (2 ^ 52))) with 53. apply Z.eqb_eq. lia.
  - assert (Hd : d <= 53).
    { assert (2 ^ (d - 1) < 2 ^ 53) by lia.
      apply pow2_lt_inv in H; lia. }
    replace (Z.max E (Z.max (d + E - 53) (-1074))) with E by lia.
    rewrite Z.sub_diag, Z.pow_0_r, Z.div_1_r.
    destruct r as [|p|p]; try lia.
    split; [|split; lia].
    unfold canonical_mantissa. rewrite fexp_spec. apply Z.eqb_eq.
    change (Zpos (digits2_pos p)) with d.
    destruct Hn as [->|Hn]; [lia|].
    assert (52 < d).
    { apply pow2_lt_inv; [lia|]. lia. }
    lia.
Qed.

End RoundValue.

Section RoundValue2.

Local Open Scope Z_scope.

Lemma sticky_div_quarter (m j k : Z) :
  0 <= j < 4 -> 0 < k -> sticky_div (4 * m + j) k / 4 = m / k.
Proof.
  intros Hj Hk. unfold sticky_div.
  set (A := (4 * m + j) / (2 * k)).
  set (b := if (4 * m + j) mod (2 * k) =? 0 then 0 else 1).
  assert (Hb : 0 <= b <= 1) by (unfold b; destruct (_ =? _); lia).
  replace ((2 * A + b) / 4) with (A / 2).
  - unfold A. rewrite Z.div_div by lia.
    replace (2 * k * 2) with (4 * k) by lia.
    rewrite <- Z.div_div by lia. f_equal.
    symmetry. apply Z.div_unique with (r := j); lia.
  - pose proof (Z.div_mod A 2 ltac:(lia)).
    pose proof (Z.mod_pos_bound A 2 ltac:(lia)).
    apply Z.div_unique with (r := 2 * (A mod 2) + b); lia.
Qed.

Lemma round_value (s : bool) (m e : Z) (l : location) :
  0 <= m -> e <= fexp prec emax (Zdigits2 m + e) ->
  let E := fexp prec emax (Zdigits2 m + e) in
  let r := rne4 (sticky_div (4 * m + loc_code l) (2 ^ (E - e))) in
  (m / 2 ^ (E - e) <= r <= m / 2 ^ (E - e) + 1) /\
  (0 <= r <= 2 ^ 53) /\ -1074 <= E /\ (E = -1074 \/ 2 ^ 52 <= r) /\
  rounds_to s r E (binary_round_aux prec emax s m e l).
Proof.
  intros Hm Hdeep E r.
  pose proof (binary_round_aux_code s m e l Hm) as [Hr0 Heq].
  cbv zeta in Heq.
  replace (Z.max e (fexp prec emax (Zdigits2 m + e))) with E in * by (unfold E; lia).
  fold r in Hr0, Heq.
  assert (HE : -1074 <= E) by (unfold E; rewrite fexp_spec; lia).
  assert (Hk : 0 < 2 ^ (E - e)) by (apply pow2_pos; unfold E; lia).
  pose proof (rne4_bounds (sticky_div (4 * m + loc_code l) (2 ^ (E - e)))) as Hb.
  rewrite (sticky_div_quarter m (loc_code l) _ (loc_code_bounds l) Hk) in Hb.
  fold r in Hb.
  set (q := m / 2 ^ (E - e)) in *.
  assert (Hq : q < 2 ^ 53).
  { destruct (Z.eq_dec m 0) as [->|Hm0]; [unfold q; rewrite Z.div_0_l; lia|].
    pose proof (Zdigits2_bounds m ltac:(lia)) as [_ Hhi].
    pose proof (Zdigits2_pos m ltac:(lia)) as Hd1.
    unfold q. apply Z.div_lt_upper_bound; [exact Hk|].
    rewrite <- Z.pow_add_r by (unfold E in *; lia).
    apply Z.lt_le_trans with (2 ^ Zdigits2 m); [exact Hhi|].
    apply pow2_le. unfold E in *. rewrite fexp_spec in *. lia. }
  assert (Hn : E = -1074 \/ 2 ^ 52 <= r).
  { destruct (Z.eq_dec E (-1074)) as [E0|E0]; [left; exact E0 | right].
    assert (Hm0 : m <> 0).
    { intros ->. unfold E in *. simpl Zdigits2 in *. rewrite fexp_spec in *. lia. }
    pose proof (Zdigits2_bounds m ltac:(lia)) as [Hlo _].
    pose proof (Zdigits2_pos m ltac:(lia)) as Hd1.
    assert (2 ^ 52 <= q); [|lia].
    unfold q. apply div_pow2_ge; [unfold E in *; lia|].
    rewrite <- Z.pow_add_r by (unfold E in *; lia).
    apply Z.le_trans with (2 ^ (Zdigits2 m - 1)); [|exact Hlo].
    apply pow2_le. unfold E in *. rewrite fexp_spec in *. lia. }
  split; [exact Hb|]. split; [lia|]. split; [exact HE|]. split; [exact Hn|].
  pose proof (finish_canonical r E ltac:(lia) HE Hn) as Hf. cbv zeta in Hf.
  rewrite Heq. clear Heq.
  destruct (r / 2 ^ (Z.max E (fexp prec emax (Zdigits2 r + E)) - E)) as [|m3|m3].
  - simpl. auto.
  - destruct Hf as [Hcan [Hval Hle]].
    destruct (Z.leb_spec (Z.max E (fexp prec emax (Zdigits2 r + E))) (emax - prec)).
    + simpl. auto.
    + simpl. split; [reflexivity|]. eauto 8.
  - contradiction.
Qed.


End RoundValue2.

Section RoundMono.

Local Open Scope Z_scope.



Lemma fexp_mono (d1 d2 : Z) :
  d1 <= d2 -> fexp prec emax d1 <= fexp prec emax d2.
Proof. rewrite !fexp_spec. lia. Qed.




End RoundMono.

Section MulDiv.

Local Open Scope Z_scope.







End MulDiv.

Section Division.

Local Open Scope Z_scope.


Lemma Zdigits2_lower (q k : Z) : 0 <= k -> 2 ^ k <= q -> k + 1 <= Zdigits2 q.
Proof.
  intros Hk H. assert (Hq : 0 < q).
  { pose proof (pow2_pos k Hk). lia. }
  pose proof (Zdigits2_bounds q Hq) as [_ Hhi].
  pose proof (Zdigits2_pos q Hq).
  assert (2 ^ k < 2 ^ Zdigits2 q) by lia.
  apply pow2_lt_inv in H1; lia.
Qed.



End Division.

Section TargetMono.

Local Open Scope Z_scope.

Lemma binary_round_aux_nonneg (m e : Z) (l : location) :
  0 <= m -> SFnonneg (binary_round_aux prec emax false m e l) = true.
Proof.
  intro H. pose proof (binary_round_aux_sign false m e l H) as Hs.
  destruct (binary_round_aux prec emax false m e l) as [s|s| |s m' e'];
    try contradiction; subst s; reflexivity.
Qed.



Lemma SFmul_nonneg (x y : spec_float) :
  SFnonneg x = true -> SFnonneg y = true ->
  SFnonneg (SF64mul x y) = true \/ SF64mul x y = S754_nan.
Proof.
  intros Hx Hy.
  destruct x as [sx|[]| |[] mx ex]; try discriminate;
    destruct y as [sy|[]| |[] my ey]; try discriminate;
    try (left; reflexivity); try (right; reflexivity).
  left. apply binary_round_aux_nonneg. lia.
Qed.



Local Open Scope float_scope.

Lemma mul_nan_l (x y : float) : is_nan x = true -> is_nan (x * y) = true.
Proof. rewrite !is_nan_spec, mul_spec. intros ->. reflexivity. Qed.

Lemma div_nan_l (x y : float) : is_nan x = true -> is_nan (x / y) = true.
Proof. rewrite !is_nan_spec, div_spec. intros ->. reflexivity. Qed.


End TargetMono.

(** ** What the loop returns *)




(** ** Coverage and threshold *)



(** * Further properties of the program

    ** What the parsed record holds *)

Section HeaderContents.

Lemma read_axis_line_fields (l : string) (n : Z) (v : vec3) :
  read_axis_line l = Ok (n, v) ->
  List.length (split l) = 4%nat /\
  py_int (part (split l) 0) = Ok n /\ floats3 (split l) 1 = Ok v.
Proof.
  unfold read_axis_line. intro H.
  apply bind_ok in H as [u [Hlen H]]. apply py_assert_ok in Hlen.
  apply bind_ok in H as [n0 [Hn H]].
  apply bind_ok in H as [v0 [Hv H]].
  injection H as <- <-.
  split; [apply Nat.eqb_eq, Hlen|]. split; assumption.
Qed.

Lemma read_grid_line_fields (l : string) (nAtoms : Z) (o : vec3) (nval : Z) :
  read_grid_line l = Ok (nAtoms, o, nval) ->
  (0 <= nAtoms)%Z /\
  py_int (part (split l) 0) = Ok nAtoms /\
  floats3 (split l) 1 = Ok o /\
  (List.length (split l) = 4%nat -> nval = 1%Z) /\
  (List.length (split l) = 5%nat -> py_int (part (split l) 4) = Ok nval).
Proof.
  unfold read_grid_line. intro H.
  apply bind_ok in H as [u [Hlen H]]. apply py_assert_ok in Hlen.
  apply bind_ok in H as [n [Hn H]].
  apply bind_ok in H as [n' [Hn' H]].
  apply bind_ok in H as [u' [Hpos H]]. apply py_assert_ok in Hpos.
  apply bind_ok in H as [o0 [Ho H]].
  apply bind_ok in H as [nval0 [Hnval H]].
  injection H as <- <- <-.
  rewrite Hn in Hn'. injection Hn' as <-.
  apply Z.leb_le in Hpos. rewrite (Z.abs_eq n Hpos).
  split; [exact Hpos|]. split; [exact Hn|]. split; [exact Ho|]. split.
  - intro H4. rewrite H4 in Hnval. simpl in Hnval. congruence.
  - intro H5. rewrite H5 in Hnval. simpl in Hnval. exact Hnval.
Qed.

Lemma read_atom_line_fields (l : string) (a : Atom) :
  read_atom_line l = Ok a ->
  List.length (split l) = 5%nat /\
  py_int (part (split l) 0) = Ok (atomic_number a) /\
  py_float (part (split l) 1) = Ok (nuclear_charge a) /\
  floats3 (split l) 2 = Ok (position a).
Proof.
  unfold read_atom_line. intro H.
  apply bind_ok in H as [u [Hlen H]]. apply py_assert_ok in Hlen.
  apply bind_ok in H as [an [Han H]].
  apply bind_ok in H as [nc [Hnc H]].
  apply bind_ok in H as [pos [Hpos H]].
  injection H as <-. simpl.
  split; [apply Nat.eqb_eq, Hlen|]. repeat split; assumption.
Qed.

(** The loop over the atoms puts the atom of its [k]-th line at place [k]
    behind the atoms it started with. *)
Lemma read_atoms_lines (n : nat) :
  forall (s : string) (acc ats : list Atom) (s' : string),
    read_atoms n s acc = Ok (ats, s') ->
    exists new,
      ats = (rev acc ++ new)%list /\ List.length new = n /\
      forall k a, nth_error new k = Some a -> read_atom_line (line k s) = Ok a.
Proof.
  induction n as [|n IH]; intros s acc ats s' H.
  - simpl in H. injection H as <- <-. exists [].
    rewrite app_nil_r. split; [reflexivity|]. split; [reflexivity|].
    intros [|k] a Hk; discriminate.
  - simpl in H. destruct (readline s) as [l r] eqn:Hl.
    apply bind_ok in H as [a0 [Ha H]].
    apply IH in H as [new [Hats [Hlen Hk]]].
    exists (a0 :: new). simpl in Hats. rewrite <- app_assoc in Hats.
    split; [exact Hats|]. split; [simpl; rewrite Hlen; reflexivity|].
    intros [|k] a Hnth; simpl in Hnth.
    + injection Hnth as <-. unfold line. simpl. rewrite Hl. exact Ha.
    + unfold line. simpl. rewrite Hl. simpl. apply (Hk k a Hnth).
Qed.

(** A successful [read_header], line by line. *)
Lemma read_header_fields (text : string) (h : Header) (rest : string) :
  read_header text = Ok (h, rest) ->
  read_grid_line (line 2 text)
  = Ok (Z.of_nat (List.length (atoms h)), origin h,
        data_points_per_grid_point h) /\
  read_axis_line (line 3 text) = Ok (x_grid_points h, x_axis h) /\
  read_axis_line (line 4 text) = Ok (y_grid_points h, y_axis h) /\
  read_axis_line (line 5 text) = Ok (z_grid_points h, z_axis h) /\
  comment1 h = line 0 text /\ comment2 h = line 1 text /\
  forall k a, nth_error (atoms h) k = Some a ->
              read_atom_line (line (6 + k) text) = Ok a.
Proof.
  rewrite read_header_lines. intro H.
  apply bind_ok in H as [[[nAtoms o] nval] [Hg H]].
  apply bind_ok in H as [[nx vx] [Hx H]].
  apply bind_ok in H as [[ny vy] [Hy H]].
  apply bind_ok in H as [[nz vz] [Hz H]].
  apply bind_ok in H as [[ats s7] [Ha H]].
  injection H as <- <-. simpl.
  apply read_atoms_lines in Ha as [new [Hats [Hlen Hk]]].
  simpl in Hats. subst ats.
  pose proof (read_grid_line_fields _ _ _ _ Hg) as [Hpos _].
  rewrite Hlen, Z2Nat.id by exact Hpos.
  repeat split; assumption.
Qed.

End HeaderContents.

(** X1: in a file that parses, the grid-definition line has 4 or 5 fields,
    each of the three axis lines has 4 and each atom line has 5; so none of
    these lines is missing: the file does not end before its last atom
    line. *)
Theorem parsed_file_field_counts (np : NumPy.unread_text) (text : string)
        (g : CubeFile) :
  load_from np text = Ok g ->
  (List.length (fields 2 text) = 4 \/ List.length (fields 2 text) = 5)%nat /\
  (forall k, (3 <= k <= 5)%nat -> List.length (fields k text) = 4%nat) /\
  (forall k, (6 <= k < 6 + List.length (atoms g))%nat ->
             List.length (fields k text) = 5%nat) /\
  (forall k, (2 <= k < 6 + List.length (atoms g))%nat ->
             line k text <> EmptyString).
Proof.
  intro H. apply load_from_ok in H as [rest [Hh _]].
  apply read_header_fields in Hh as [Hg [Hx [Hy [Hz [_ [_ Hat]]]]]].
  assert (H2 : (List.length (fields 2 text) = 4
                \/ List.length (fields 2 text) = 5)%nat).
  { apply read_grid_line_ok in Hg as [_ [Hg _]]. exact Hg. }
  assert (H35 : forall k, (3 <= k <= 5)%nat ->
                          List.length (fields k text) = 4%nat).
  { intros k Hk.
    assert (Hc : k = 3%nat \/ k = 4%nat \/ k = 5%nat) by lia.
    destruct Hc as [-> | [-> | ->]];
      [apply (read_axis_line_fields _ _ _ Hx)
      | apply (read_axis_line_fields _ _ _ Hy)
      | apply (read_axis_line_fields _ _ _ Hz)]. }
  assert (H6 : forall k, (6 <= k < 6 + List.length (atoms g))%nat ->
                         List.length (fields k text) = 5%nat).
  { intros k Hk.
    destruct (nth_error (atoms g) (k - 6)) as [a|] eqn:Hnth.
    - specialize (Hat _ _ Hnth).
      replace (6 + (k - 6))%nat with k in Hat by lia.
      apply (read_atom_line_fields _ _ Hat).
    - apply nth_error_None in Hnth. lia. }
  split; [exact H2|]. split; [exact H35|]. split; [exact H6|].
  intros k Hk E.
  assert (Hlen : List.length (fields k text) = 0%nat)
    by (unfold fields; rewrite E; reflexivity).
  destruct (Nat.eq_dec k 2) as [->|Hne]; [lia|].
  destruct (Nat.le_gt_cases k 5) as [H5|H5].
  - rewrite H35 in Hlen by lia. discriminate.
  - rewrite H6 in Hlen by lia. discriminate.
Qed.

Lemma parsed_file_field_counts_witness :
  List.length (fields 2 cube_with_atom) = 5%nat /\
  List.length (fields 4 cube_with_atom) = 4%nat /\
  List.length (fields 6 cube_with_atom) = 5%nat /\
  line 6 cube_with_atom <> EmptyString.
Proof.
  assert (H : exists g, load_from NumPy.Raises cube_with_atom = Ok g
                        /\ List.length (atoms g) = 1%nat).
  { eexists. split; vm_compute; reflexivity. }
  destruct H as [g [H Hat]].
  pose proof (parsed_file_field_counts _ _ _ H) as [_ [H35 [H6 Hl]]].
  rewrite Hat in H6, Hl.
  split; [vm_compute; reflexivity|]. split; [apply H35; lia|].
  split; [apply H6; lia | apply Hl; lia].
Defined.

(** X2: a file whose third line does not split into 4 or 5 fields fails with
    an [AssertionError] that carries no message, whatever else it holds; an
    empty file and a file of fewer than three lines are such files. *)
Theorem bad_grid_line_fails (np : NumPy.unread_text) (text : string) :
  List.length (fields 2 text) <> 4%nat ->
  List.length (fields 2 text) <> 5%nat ->
  load_from np text = Raise (AssertionError None).
Proof.
  intros H4 H5. unfold load_from. rewrite read_header_lines.
  unfold read_grid_line. fold (fields 2 text).
  apply Nat.eqb_neq in H4, H5. rewrite H4, H5. reflexivity.
Qed.

Lemma bad_grid_line_fails_witness :
  load_from NumPy.Warns EmptyString = Raise (AssertionError None) /\
  load_from NumPy.Raises (unlines ["first comment"; "second comment"])
  = Raise (AssertionError None).
Proof.
  split; apply bad_grid_line_fails; vm_compute; discriminate.
Defined.

(** X3: in a file that parses, the first field of the grid-definition line
    is the number of atoms of the record, and so the number of atom lines
    read; its next three fields are the origin; the number of values per grid
    point is its fifth field, and 1 when it has only four. *)
Theorem grid_line_values (np : NumPy.unread_text) (text : string)
        (g : CubeFile) :
  load_from np text = Ok g ->
  py_int (part (fields 2 text) 0) = Ok (Z.of_nat (List.length (atoms g))) /\
  floats3 (fields 2 text) 1 = Ok (origin g) /\
  (List.length (fields 2 text) = 4%nat ->
   data_points_per_grid_point g = 1%Z) /\
  (List.length (fields 2 text) = 5%nat ->
   py_int (part (fields 2 text) 4) = Ok (data_points_per_grid_point g)).
Proof.
  intro H. apply load_from_ok in H as [rest [Hh _]].
  apply read_header_fields in Hh as [Hg _].
  apply read_grid_line_fields in Hg as [_ H]. exact H.
Qed.

Lemma grid_line_values_witness :
  exists g,
    load_from NumPy.Raises cube_with_atom = Ok g /\
    List.length (atoms g) = 1%nat /\
    data_points_per_grid_point g = 2%Z /\
    data_points_per_grid_point grid_1x1x2 = 1%Z.
Proof.
  assert (H : exists g, load_from NumPy.Raises cube_with_atom = Ok g)
    by (eexists; vm_compute; reflexivity).
  destruct H as [g H]. exists g. split; [exact H|].
  pose proof (grid_line_values _ _ _ H) as [Hn [_ [_ H5]]].
  assert (H1 : load_from NumPy.Raises cube_1x1x2 = Ok grid_1x1x2)
    by (vm_compute; reflexivity).
  pose proof (grid_line_values _ _ _ H1) as [_ [_ [H4 _]]].
  split.
  - assert (E : py_int (part (fields 2 cube_with_atom) 0) = Ok 1%Z)
      by (vm_compute; reflexivity).
    rewrite E in Hn. injection Hn as Hn. lia.
  - split.
    + assert (E : py_int (part (fields 2 cube_with_atom) 4) = Ok 2%Z)
        by (vm_compute; reflexivity).
      rewrite E in H5. symmetry.
      assert (E5 : List.length (fields 2 cube_with_atom) = 5%nat)
        by (vm_compute; reflexivity).
      specialize (H5 E5). injection H5 as H5. exact H5.
    + apply H4. vm_compute. reflexivity.
Defined.

(** X4: in a file that parses, the two comments of the record are the first
    two lines as they stand, line feed included, and each axis line gives the
    number of points and the step vector of its axis: line 3 for x, line 4
    for y, line 5 for z (lines counted from 0). *)
Theorem axis_lines_and_comments (np : NumPy.unread_text) (text : string)
        (g : CubeFile) :
  load_from np text = Ok g ->
  comment1 g = line 0 text /\ comment2 g = line 1 text /\
  py_int (part (fields 3 text) 0) = Ok (x_grid_points g) /\
  floats3 (fields 3 text) 1 = Ok (x_axis g) /\
  py_int (part (fields 4 text) 0) = Ok (y_grid_points g) /\
  floats3 (fields 4 text) 1 = Ok (y_axis g) /\
  py_int (part (fields 5 text) 0) = Ok (z_grid_points g) /\
  floats3 (fields 5 text) 1 = Ok (z_axis g).
Proof.
  intro H. apply load_from_ok in H as [rest [Hh _]].
  apply read_header_fields in Hh as [_ [Hx [Hy [Hz [Hc1 [Hc2 _]]]]]].
  apply read_axis_line_fields in Hx as [_ [Hx Hvx]].
  apply read_axis_line_fields in Hy as [_ [Hy Hvy]].
  apply read_axis_line_fields in Hz as [_ [Hz Hvz]].
  repeat split; assumption.
Qed.

Lemma axis_lines_and_comments_witness :
  comment1 grid_1x1x2 = line 0 cube_1x1x2 /\
  py_int (part (fields 5 cube_1x1x2) 0) = Ok (z_grid_points grid_1x1x2) /\
  floats3 (fields 5 cube_1x1x2) 1 = Ok (z_axis grid_1x1x2).
Proof.
  assert (H : load_from NumPy.Raises cube_1x1x2 = Ok grid_1x1x2)
    by (vm_compute; reflexivity).
  pose proof (axis_lines_and_comments _ _ _ H)
    as [Hc [_ [_ [_ [_ [_ [Hz Hvz]]]]]]].
  split; [exact Hc|]. split; [exact Hz | exact Hvz].
Defined.

(** X5: in a file that parses, the atoms of the record stand in the order of
    their lines: the atom at place [k] holds the atomic number, the nuclear
    charge and the position read from the five fields of line [6 + k]. *)
Theorem atoms_in_file_order (np : NumPy.unread_text) (text : string)
        (g : CubeFile) (k : nat) (a : Atom) :
  load_from np text = Ok g ->
  nth_error (atoms g) k = Some a ->
  py_int (part (fields (6 + k) text) 0) = Ok (atomic_number a) /\
  py_float (part (fields (6 + k) text) 1) = Ok (nuclear_charge a) /\
  floats3 (fields (6 + k) text) 2 = Ok (position a).
Proof.
  intros H Hk. apply load_from_ok in H as [rest [Hh _]].
  apply read_header_fields in Hh as [_ [_ [_ [_ [_ [_ Hat]]]]]].
  specialize (Hat k a Hk).
  apply read_atom_line_fields in Hat as [_ H]. exact H.
Qed.

Lemma atoms_in_file_order_witness :
  exists g a,
    load_from NumPy.Raises cube_with_atom = Ok g /\
    nth_error (atoms g) 0 = Some a /\
    py_int (part (fields 6 cube_with_atom) 0) = Ok (atomic_number a) /\
    atomic_number a = 6%Z.
Proof.
  assert (H : exists g a, load_from NumPy.Raises cube_with_atom = Ok g
                          /\ nth_error (atoms g) 0 = Some a
                          /\ atomic_number a = 6%Z).
  { do 2 eexists. split; [vm_compute; reflexivity|].
    split; vm_compute; reflexivity. }
  destruct H as [g [a [H [Hk H6]]]]. exists g, a.
  pose proof (atoms_in_file_order _ _ _ _ _ H Hk) as [Hn _].
  split; [exact H|]. split; [exact Hk|]. split; [exact Hn | exact H6].
Defined.

(** ** The extrema *)

Section Extrema.

Local Open Scope float_scope.

Lemma fold_minimum (r : list float) :
  forall x, is_nan x = false -> nan_free r ->
    (fold_left NumPy.minimum r x = x \/ In (fold_left NumPy.minimum r x) r) /\
    (fold_left NumPy.minimum r x <=? x) = true /\
    forall y, In y r -> (fold_left NumPy.minimum r x <=? y) = true.
Proof.
  induction r as [|y r IH]; intros x Hx Hr; simpl.
  - split; [left; reflexivity|]. split; [apply leb_refl, Hx|]. intros y [].
  - assert (Hy : is_nan y = false) by (apply Hr; left; reflexivity).
    assert (Hr' : nan_free r) by (intros z Hz; apply Hr; right; exact Hz).
    assert (Hmin : NumPy.minimum x y = if x <=? y then x else y).
    { unfold NumPy.minimum. rewrite Hx, orb_false_r. reflexivity. }
    rewrite Hmin. clear Hmin.
    destruct (x <=? y) eqn:E.
    + destruct (IH x Hx Hr') as [Hin [Hle Hall]].
      split; [destruct Hin; auto|]. split; [exact Hle|].
      intros z [<-|Hz]; [apply (leb_trans _ _ _ Hle E) | apply Hall, Hz].
    + destruct (IH y Hy Hr') as [Hin [Hle Hall]].
      assert (Hyx : (y <=? x) = true).
      { destruct (leb_total x y Hx Hy) as [H|H]; [congruence|].
        apply ltb_leb, H. }
      split; [destruct Hin; auto|].
      split; [apply (leb_trans _ _ _ Hle Hyx)|].
      intros z [<-|Hz]; [exact Hle | apply Hall, Hz].
Qed.

(** [numpy.min] of an array without NaN is one of its values and is at most
    each of them. *)
Lemma min_spec (a : list float) :
  nan_free a -> a <> [] ->
  exists m, NumPy.min a = Ok m /\ In m a /\
            forall y, In y a -> (m <=? y) = true.
Proof.
  intros Hnan Hne. destruct a as [|x r]; [congruence|].
  destruct (fold_minimum r x) as [Hin [Hle Hall]].
  - apply Hnan. left. reflexivity.
  - intros z Hz. apply Hnan. right. exact Hz.
  - exists (fold_left NumPy.minimum r x). split; [reflexivity|].
    split; [destruct Hin as [->|Hin]; [left; reflexivity | right; exact Hin]|].
    intros y [<-|Hy]; [exact Hle | apply Hall, Hy].
Qed.

(** A NaN, once met, stays: both reductions return it. *)
Lemma leb_nan_r (x y : float) : is_nan y = true -> (x <=? y) = false.
Proof.
  intro H. destruct (x <=? y) eqn:E; [|reflexivity].
  apply leb_not_nan in E as [_ E]. congruence.
Qed.

Lemma fold_minimum_nan_acc (r : list float) (x : float) :
  is_nan x = true -> fold_left NumPy.minimum r x = x.
Proof.
  intro H. induction r as [|y r IH]; simpl; [reflexivity|].
  unfold NumPy.minimum at 2. rewrite H, orb_true_r. exact IH.
Qed.

Lemma fold_maximum_nan_acc (r : list float) (x : float) :
  is_nan x = true -> fold_left NumPy.maximum r x = x.
Proof.
  intro H. induction r as [|y r IH]; simpl; [reflexivity|].
  unfold NumPy.maximum at 2. rewrite H, orb_true_r. exact IH.
Qed.

Lemma fold_minimum_nan (r : list float) :
  forall x, (exists y, In y (x :: r) /\ is_nan y = true) ->
            is_nan (fold_left NumPy.minimum r x) = true.
Proof.
  induction r as [|z r IH]; intros x [y [Hy Hn]].
  - destruct Hy as [<-|[]]. exact Hn.
  - simpl. destruct (is_nan x) eqn:Ex.
    + apply IH. exists (NumPy.minimum x z). split; [left; reflexivity|].
      unfold NumPy.minimum. rewrite Ex, orb_true_r. exact Ex.
    + destruct Hy as [<-|[<-|Hy]]; [congruence | |].
      * apply IH. exists (NumPy.minimum x z). split; [left; reflexivity|].
        unfold NumPy.minimum. rewrite (leb_nan_r x z Hn), Ex. exact Hn.
      * apply IH. exists y. split; [right; exact Hy | exact Hn].
Qed.

Lemma fold_maximum_nan (r : list float) :
  forall x, (exists y, In y (x :: r) /\ is_nan y = true) ->
            is_nan (fold_left NumPy.maximum r x) = true.
Proof.
  induction r as [|z r IH]; intros x [y [Hy Hn]].
  - destruct Hy as [<-|[]]. exact Hn.
  - simpl. destruct (is_nan x) eqn:Ex.
    + apply IH. exists (NumPy.maximum x z). split; [left; reflexivity|].
      unfold NumPy.maximum. rewrite Ex, orb_true_r. exact Ex.
    + destruct Hy as [<-|[<-|Hy]]; [congruence | |].
      * apply IH. exists (NumPy.maximum x z). split; [left; reflexivity|].
        unfold NumPy.maximum.
        assert (E : (z <=? x) = false).
        { destruct (z <=? x) eqn:E; [|reflexivity].
          apply leb_not_nan in E as [E _]. congruence. }
        rewrite E, Ex. exact Hn.
      * apply IH. exists y. split; [right; exact Hy | exact Hn].
Qed.

Lemma min_nan (a : list float) (x : float) :
  In x a -> is_nan x = true ->
  exists m, NumPy.min a = Ok m /\ is_nan m = true.
Proof.
  intros Hx Hn. destruct a as [|y r]; [destruct Hx|].
  eexists. split; [reflexivity|]. apply fold_minimum_nan. eauto.
Qed.

Lemma max_nan (a : list float) (x : float) :
  In x a -> is_nan x = true ->
  exists m, NumPy.max a = Ok m /\ is_nan m = true.
Proof.
  intros Hx Hn. destruct a as [|y r]; [destruct Hx|].
  eexists. split; [reflexivity|]. apply fold_maximum_nan. eauto.
Qed.

(** The absolute value: a NaN stays a NaN, anything else is at least 0. *)
Lemma is_nan_abs (x : float) : is_nan (abs x) = is_nan x.
Proof.
  destruct (is_nan x) eqn:E.
  - apply is_nan_spec. apply is_nan_spec in E. rewrite abs_spec, E. reflexivity.
  - apply is_nan_false. apply is_nan_false in E. rewrite abs_spec.
    destruct (Prim2SF x); [discriminate | discriminate | congruence
                          | discriminate].
Qed.

Lemma abs_nonneg (x : float) : is_nan x = false -> (0 <=? abs x) = true.
Proof.
  intro E. apply is_nan_false in E. rewrite leb_zero_nonneg, abs_spec.
  destruct (Prim2SF x); [reflexivity | reflexivity | congruence | reflexivity].
Qed.

Lemma nan_free_abs (a : list float) : nan_free a -> nan_free (NumPy.abs a).
Proof.
  intros H y Hy. unfold NumPy.abs in Hy.
  apply in_map_iff in Hy as [x [<- Hx]]. rewrite is_nan_abs. apply H, Hx.
Qed.

End Extrema.

(** X7: on a grid with data and without NaN, [min_value] and [max_value]
    return values of the grid, and every value of the grid lies between
    them. *)
Theorem extrema_bound_the_data (g : CubeFile) :
  data g <> [] -> nan_free (data g) ->
  exists lo hi,
    min_value g = Ok lo /\ max_value g = Ok hi /\
    In lo (data g) /\ In hi (data g) /\
    forall x, In x (data g) ->
              (lo <=? x)%float = true /\ (x <=? hi)%float = true.
Proof.
  intros Hne Hnan.
  destruct (min_spec (data g) Hnan Hne) as [lo [Hlo [Hinlo Hblo]]].
  destruct (max_spec (data g) Hnan Hne) as [hi [Hhi [Hinhi Hbhi]]].
  exists lo, hi. repeat split; auto.
Qed.

Lemma extrema_bound_the_data_witness :
  exists lo hi,
    min_value (grid_1x1x3 [2; -4; 1]%float) = Ok lo /\
    max_value (grid_1x1x3 [2; -4; 1]%float) = Ok hi /\
    (lo <=? 1)%float = true /\ (1 <=? hi)%float = true.
Proof.
  destruct (extrema_bound_the_data (grid_1x1x3 [2; -4; 1]%float))
    as [lo [hi [Hlo [Hhi [_ [_ Hb]]]]]].
  - discriminate.
  - intros x [<-|[<-|[<-|[]]]]; reflexivity.
  - exists lo, hi. split; [exact Hlo|]. split; [exact Hhi|].
    apply Hb. simpl. auto.
Defined.

(** X8: a NaN among the values of a grid spreads to every summary:
    [min_value], [max_value], [abs_min_value] and [abs_max_value] return a
    NaN, and so do [summed_data], [abs_summed_data] and [integrate]. *)
Theorem nan_spreads_to_every_summary (g : CubeFile) (x : float) :
  In x (data g) -> is_nan x = true ->
  (exists m, min_value g = Ok m /\ is_nan m = true) /\
  (exists m, max_value g = Ok m /\ is_nan m = true) /\
  (exists m, abs_min_value g = Ok m /\ is_nan m = true) /\
  (exists m, abs_max_value g = Ok m /\ is_nan m = true) /\
  is_nan (summed_data g) = true /\
  is_nan (abs_summed_data g) = true /\
  is_nan (integrate g) = true.
Proof.
  intros Hx Hn.
  assert (Habs : In (abs x) (NumPy.abs (data g)))
    by (apply in_map, Hx).
  assert (Hnabs : is_nan (abs x) = true) by (rewrite is_nan_abs; exact Hn).
  assert (Hsum : is_nan (summed_data g) = true).
  { destruct (is_nan (summed_data g)) eqn:E; [reflexivity|].
    apply sum_nan_free in E. rewrite (E x Hx) in Hn. discriminate. }
  split; [apply (min_nan _ x Hx Hn)|].
  split; [apply (max_nan _ x Hx Hn)|].
  split; [apply (min_nan _ _ Habs Hnabs)|].
  split; [apply (max_nan _ _ Habs Hnabs)|].
  split; [exact Hsum|]. split; [exact Hsum|].
  unfold integrate. apply is_nan_spec. rewrite mul_spec.
  apply is_nan_spec in Hsum. rewrite Hsum. reflexivity.
Qed.

Lemma nan_spreads_to_every_summary_witness :
  (exists m, min_value (grid_1x1x3 [2; nan; 1]%float) = Ok m
             /\ is_nan m = true) /\
  is_nan (integrate (grid_1x1x3 [2; nan; 1]%float)) = true.
Proof.
  destruct (nan_spreads_to_every_summary (grid_1x1x3 [2; nan; 1]%float) nan)
    as [Hmin [_ [_ [_ [_ [_ Hint]]]]]].
  - simpl. auto.
  - reflexivity.
  - split; [exact Hmin | exact Hint].
Defined.

(** X9: on a grid with data and without NaN, [abs_min_value] and
    [abs_max_value] return the absolute values of two values of the grid,
    neither is negative, and the absolute value of every value of the grid
    lies between them. *)
Theorem abs_extrema_bound_the_data (g : CubeFile) :
  data g <> [] -> nan_free (data g) ->
  exists lo hi,
    abs_min_value g = Ok lo /\ abs_max_value g = Ok hi /\
    (exists x, In x (data g) /\ lo = abs x) /\
    (exists x, In x (data g) /\ hi = abs x) /\
    (0 <=? lo)%float = true /\
    forall x, In x (data g) ->
              (lo <=? abs x)%float = true /\ (abs x <=? hi)%float = true.
Proof.
  intros Hne Hnan.
  assert (Hne' : NumPy.abs (data g) <> []).
  { unfold NumPy.abs. destruct (data g); [congruence | discriminate]. }
  pose proof (nan_free_abs _ Hnan) as Hnan'.
  destruct (min_spec _ Hnan' Hne') as [lo [Hlo [Hinlo Hblo]]].
  destruct (max_spec _ Hnan' Hne') as [hi [Hhi [Hinhi Hbhi]]].
  exists lo, hi. split; [exact Hlo|]. split; [exact Hhi|].
  unfold NumPy.abs in Hinlo, Hinhi.
  apply in_map_iff in Hinlo as [xl [El Hxl]].
  apply in_map_iff in Hinhi as [xh [Eh Hxh]].
  split; [exists xl; auto|]. split; [exists xh; auto|].
  split; [rewrite <- El; apply abs_nonneg, Hnan, Hxl|].
  intros x Hx.
  assert (In (abs x) (NumPy.abs (data g))) by (apply in_map, Hx).
  split; [apply Hblo | apply Hbhi]; assumption.
Qed.

Lemma abs_extrema_bound_the_data_witness :
  exists lo hi,
    abs_min_value (grid_1x1x3 [2; -4; 1]%float) = Ok lo /\
    abs_max_value (grid_1x1x3 [2; -4; 1]%float) = Ok hi /\
    (0 <=? lo)%float = true /\ (abs (-4) <=? hi)%float = true.
Proof.
  destruct (abs_extrema_bound_the_data (grid_1x1x3 [2; -4; 1]%float))
    as [lo [hi [Hlo [Hhi [_ [_ [H0 Hb]]]]]]].
  - discriminate.
  - intros x [<-|[<-|[<-|[]]]]; reflexivity.
  - exists lo, hi. split; [exact Hlo|]. split; [exact Hhi|].
    split; [exact H0|]. apply Hb. simpl. auto.
Defined.

(** ** The largest absolute value *)

Section AbsoluteOrder.

Local Open Scope float_scope.

Ltac compare_cases :=
  repeat match goal with
         | |- context [Z.compare ?a ?b] => destruct (Z.compare_spec a b)
         | H : context [Z.compare ?a ?b] |- _ => destruct (Z.compare_spec a b)
         | |- context [Pos.compare_cont Eq ?a ?b] =>
             change (Pos.compare_cont Eq a b) with (Pos.compare a b);
             destruct (Pos.compare_spec a b)
         | H : context [Pos.compare_cont Eq ?a ?b] |- _ =>
             change (Pos.compare_cont Eq a b) with (Pos.compare a b) in H;
             destruct (Pos.compare_spec a b)
         end.

(** Above zero the absolute value keeps the order, below zero it turns it
    around. *)
Lemma SFabs_above (y hi : spec_float) :
  SFnonneg y = true -> SFleb y hi = true ->
  SFleb (SFabs y) (SFabs hi) = true.
Proof.
  unfold SFleb.
  destruct y as [sy|sy| |sy my ey], hi as [sh|sh| |sh mh eh];
    try destruct sy; try destruct sh; simpl;
    try reflexivity; try discriminate; intros _ H;
    compare_cases; simpl in *; try reflexivity; try discriminate; try lia.
Qed.

Lemma SFabs_below (lo y : spec_float) :
  SFnonneg y = false -> SFleb lo y = true ->
  SFleb (SFabs y) (SFabs lo) = true.
Proof.
  unfold SFleb.
  destruct y as [sy|sy| |sy my ey], lo as [sl|sl| |sl ml el];
    try destruct sy; try destruct sl; simpl;
    try reflexivity; try discriminate; intros _ H;
    compare_cases; simpl in *; try reflexivity; try discriminate; try lia.
Qed.

Lemma abs_between (lo y hi : float) :
  (lo <=? y) = true -> (y <=? hi) = true ->
  (abs y <=? abs lo) = true \/ (abs y <=? abs hi) = true.
Proof.
  rewrite !leb_spec, !abs_spec. intros Hlo Hhi.
  destruct (SFnonneg (Prim2SF y)) eqn:E.
  - right. apply SFabs_above; assumption.
  - left. apply SFabs_below; assumption.
Qed.

End AbsoluteOrder.

(** X10: on a grid with data and without NaN, [abs_max_value] is the larger
    of the absolute values of [min_value] and [max_value]. *)
Theorem abs_max_from_extrema (g : CubeFile) :
  data g <> [] -> nan_free (data g) ->
  exists lo hi b,
    min_value g = Ok lo /\ max_value g = Ok hi /\ abs_max_value g = Ok b /\
    (abs lo <=? b)%float = true /\ (abs hi <=? b)%float = true /\
    ((b =? abs lo)%float = true \/ (b =? abs hi)%float = true).
Proof.
  intros Hne Hnan.
  destruct (min_spec (data g) Hnan Hne) as [lo [Hlo [Hinlo Hblo]]].
  destruct (max_spec (data g) Hnan Hne) as [hi [Hhi [Hinhi Hbhi]]].
  assert (Hne' : NumPy.abs (data g) <> []).
  { unfold NumPy.abs. destruct (data g); [congruence | discriminate]. }
  destruct (max_spec _ (nan_free_abs _ Hnan) Hne') as [b [Hb [Hinb Hbb]]].
  exists lo, hi, b. split; [exact Hlo|]. split; [exact Hhi|].
  split; [exact Hb|].
  assert (Hl : (abs lo <=? b)%float = true)
    by (apply Hbb, in_map, Hinlo).
  assert (Hh : (abs hi <=? b)%float = true)
    by (apply Hbb, in_map, Hinhi).
  split; [exact Hl|]. split; [exact Hh|].
  unfold NumPy.abs in Hinb. apply in_map_iff in Hinb as [y [<- Hy]].
  destruct (abs_between lo y hi (Hblo y Hy) (Hbhi y Hy)) as [H|H];
    [left | right]; rewrite eqb_leb, H; [rewrite Hl | rewrite Hh];
    reflexivity.
Qed.

Lemma abs_max_from_extrema_witness :
  exists lo hi b,
    min_value (grid_1x1x3 [2; -4; 1]%float) = Ok lo /\
    max_value (grid_1x1x3 [2; -4; 1]%float) = Ok hi /\
    abs_max_value (grid_1x1x3 [2; -4; 1]%float) = Ok b /\
    ((b =? abs lo)%float = true \/ (b =? abs hi)%float = true).
Proof.
  destruct (abs_max_from_extrema (grid_1x1x3 [2; -4; 1]%float))
    as [lo [hi [b [Hlo [Hhi [Hb [_ [_ H]]]]]]]].
  - discriminate.
  - intros x [<-|[<-|[<-|[]]]]; reflexivity.
  - exists lo, hi, b. auto.
Defined.

Section NonNegativeData.

Local Open Scope float_scope.

Lemma abs_of_nonneg (x : float) :
  (0 <=? x) = true -> (abs x <=? x) = true /\ (x <=? abs x) = true.
Proof.
  intro H. apply andb_true_iff. rewrite <- eqb_leb.
  rewrite leb_zero_nonneg in H. rewrite eqb_spec, abs_spec. unfold SFeqb.
  destruct (Prim2SF x) as [s|[]| |[] m e]; try discriminate; try reflexivity.
  rewrite SFcompare_refl by discriminate. reflexivity.
Qed.

End NonNegativeData.

(** X11: on a grid with data whose values are all at least zero,
    [abs_min_value] and [abs_max_value] return what [min_value] and
    [max_value] return. *)
Theorem abs_extrema_of_nonnegative_data (g : CubeFile) :
  data g <> [] ->
  (forall x, In x (data g) -> (0 <=? x)%float = true) ->
  exists lo hi alo ahi,
    min_value g = Ok lo /\ max_value g = Ok hi /\
    abs_min_value g = Ok alo /\ abs_max_value g = Ok ahi /\
    (alo =? lo)%float = true /\ (ahi =? hi)%float = true.
Proof.
  intros Hne Hpos.
  assert (Hnan : nan_free (data g)).
  { intros x Hx. apply (leb_not_nan _ _ (Hpos x Hx)). }
  assert (Hne' : NumPy.abs (data g) <> []).
  { unfold NumPy.abs. destruct (data g); [congruence | discriminate]. }
  destruct (min_spec (data g) Hnan Hne) as [lo [Hlo [Hinlo Hblo]]].
  destruct (max_spec (data g) Hnan Hne) as [hi [Hhi [Hinhi Hbhi]]].
  destruct (min_spec _ (nan_free_abs _ Hnan) Hne') as [alo [Halo [Hina Hba]]].
  destruct (max_spec _ (nan_free_abs _ Hnan) Hne') as [ahi [Hahi [Hinb Hbb]]].
  exists lo, hi, alo, ahi. repeat split; try assumption.
  - unfold NumPy.abs in Hina. apply in_map_iff in Hina as [x [<- Hx]].
    destruct (abs_of_nonneg x (Hpos x Hx)) as [H1 H2].
    destruct (abs_of_nonneg lo (Hpos lo Hinlo)) as [H3 H4].
    rewrite eqb_leb.
    rewrite (leb_trans _ _ _ (Hba (abs lo) (in_map abs _ _ Hinlo)) H3).
    rewrite (leb_trans _ _ _ (Hblo x Hx) H2). reflexivity.
  - unfold NumPy.abs in Hinb. apply in_map_iff in Hinb as [x [<- Hx]].
    destruct (abs_of_nonneg x (Hpos x Hx)) as [H1 H2].
    destruct (abs_of_nonneg hi (Hpos hi Hinhi)) as [H3 H4].
    rewrite eqb_leb.
    rewrite (leb_trans _ _ _ H1 (Hbhi x Hx)).
    rewrite (leb_trans _ _ _ H4 (Hbb (abs hi) (in_map abs _ _ Hinhi))).
    reflexivity.
Qed.

Lemma abs_extrema_of_nonnegative_data_witness :
  exists lo hi alo ahi,
    min_value grid_1x1x2 = Ok lo /\ max_value grid_1x1x2 = Ok hi /\
    abs_min_value grid_1x1x2 = Ok alo /\ abs_max_value grid_1x1x2 = Ok ahi /\
    (alo =? lo)%float = true /\ (ahi =? hi)%float = true.
Proof.
  apply (abs_extrema_of_nonnegative_data grid_1x1x2).
  - discriminate.
  - intros x [<-|[<-|[]]]; reflexivity.
Defined.

(** ** More on the threshold *)

Section ThresholdFacts.

Local Open Scope float_scope.

(** What the method returns below 100 is a value of the grid. *)
Lemma threshold_in_data (g : CubeFile) (p : float) :
  data g <> [] -> (100 <=? p) = false ->
  exists v, isosurface_threshold_value g p = Ok (PyFloat v) /\ In v (data g).
Proof.
  intros Hne Hp.
  destruct (threshold_cases g p Hne Hp) as [v [Hv Hf]].
  exists v. split; [exact Hv|]. apply descending_in.
  destruct Hf as [[k [Hk _]] | [_ Hk]]; apply (nth_error_In _ _ Hk).
Qed.

(** With a target that is a NaN or not positive, the loop returns the first
    value of the walk. *)
Lemma first_value_when_target_nonpositive (g : CubeFile) (p : float) :
  data g <> [] -> nan_free (data g) ->
  (100 <=? p) = false ->
  is_nan (target_sum g p) = true \/ (target_sum g p <=? 0) = true ->
  exists v,
    isosurface_threshold_value g p = Ok (PyFloat v) /\
    nth_error (descending g) 0 = Some v.
Proof.
  intros Hne Hnan Hp100 Htar.
  pose proof (descending_length g) as Hlen.
  rewrite (threshold_below_100 g p Hp100).
  assert (Hidx : descending g
                 = map (NumPy.item (data g)) (rev (NumPy.argsort (data g))))
    by reflexivity.
  destruct (rev (NumPy.argsort (data g))) as [|i0 idx] eqn:Eidx.
  { rewrite Hidx in Hlen. simpl in Hlen.
    destruct (data g); [congruence | discriminate]. }
  simpl in Hidx.
  destruct (descending_head g _ _ Hnan Hidx) as [Hv0 Hb].
  set (v0 := NumPy.item (data g) i0) in *.
  exists v0. simpl walk. fold v0.
  destruct (target_sum g p <=? 0 + v0) eqn:E.
  - rewrite Hidx. split; reflexivity.
  - assert (Hnone : walk (data g) idx (target_sum g p) (0 + v0) = None).
    { destruct Htar as [Ht|Ht]; [apply walk_nan_target, Ht|].
      assert (Hc1 : is_nan (0 + v0) = false)
        by apply add_zero_l_not_nan, Hnan, Hv0.
      assert (Hlt : (0 + v0 <? target_sum g p) = true).
      { destruct (leb_not_nan _ _ Ht) as [Ht' _].
        destruct (leb_total _ _ Ht' Hc1) as [H|H]; [congruence | exact H]. }
      assert (Hneg : SFneg (Prim2SF (0 + v0)) = true).
      { apply (SFltb_nonpos_neg _ (Prim2SF (target_sum g p))).
        - rewrite <- ltb_spec. exact Hlt.
        - rewrite <- leb_zero_nonpos. exact Ht. }
      apply walk_negative; [exact Hneg | exact Hlt |].
      intros i Hi.
      apply (SFleb_neg _ (Prim2SF v0)); [|apply add_zero_l_neg, Hneg].
      rewrite <- leb_spec. apply Hb.
      apply descending_in. rewrite Hidx. right.
      apply in_map, Hi. }
    rewrite Hnone, Hidx. split; reflexivity.
Qed.

(** The first value of the walk is what [max_value] returns. *)
Lemma first_value_is_max (g : CubeFile) (v : float) :
  data g <> [] -> nan_free (data g) ->
  nth_error (descending g) 0 = Some v ->
  exists m, max_value g = Ok m /\ (v =? m) = true.
Proof.
  intros Hne Hnan Hhead.
  destruct (max_spec (data g) Hnan Hne) as [m [Hmax [Hmin Hmb]]].
  exists m. split; [exact Hmax|].
  destruct (descending g) as [|v0 rest] eqn:Hd; [discriminate|].
  simpl in Hhead. injection Hhead as ->.
  destruct (descending_head g v rest Hnan Hd) as [Hin Hb].
  rewrite eqb_leb, (Hmb v Hin), (Hb m Hmin). reflexivity.
Qed.

(** The target of the coverage 0, of either sign, is a zero or a NaN. *)
Lemma target_zero_coverage (s p : float) :
  (p =? 0) = true ->
  is_nan (s * p / 100) = true \/ (s * p / 100 <=? 0) = true.
Proof.
  rewrite eqb_spec, leb_zero_nonpos, is_nan_spec, div_spec, mul_spec.
  change (Prim2SF 0) with (S754_zero false).
  change (Prim2SF 100) with (S754_finite false 7036874417766400 (-46)).
  intro Hp.
  destruct (Prim2SF p) as [sp|[]| |[] mp ep]; try discriminate.
  destruct (Prim2SF s) as [ss|ss| |ss ms es]; simpl; auto.
Qed.

Lemma zero_below_100 (p : float) : (p =? 0) = true -> (100 <=? p) = false.
Proof.
  rewrite eqb_spec, leb_spec.
  change (Prim2SF 0) with (S754_zero false).
  change (Prim2SF 100) with (S754_finite false 7036874417766400 (-46)).
  destruct (Prim2SF p) as [sp|[]| |[] mp ep]; try discriminate.
  reflexivity.
Qed.

End ThresholdFacts.

(** X12: on a grid with data and without NaN, the threshold for a coverage
    that is not 100 or more (negative ones and a NaN included) lies between
    what [min_value] and [max_value] return. *)
Theorem threshold_within_extrema (g : CubeFile) (p : float) :
  data g <> [] -> nan_free (data g) -> (100 <=? p)%float = false ->
  exists v lo hi,
    isosurface_threshold_value g p = Ok (PyFloat v) /\
    min_value g = Ok lo /\ max_value g = Ok hi /\
    (lo <=? v)%float = true /\ (v <=? hi)%float = true.
Proof.
  intros Hne Hnan Hp.
  destruct (threshold_in_data g p Hne Hp) as [v [Hv Hin]].
  destruct (min_spec (data g) Hnan Hne) as [lo [Hlo [_ Hblo]]].
  destruct (max_spec (data g) Hnan Hne) as [hi [Hhi [_ Hbhi]]].
  exists v, lo, hi. repeat split; auto.
Qed.

Lemma threshold_within_extrema_witness :
  exists v lo hi,
    isosurface_threshold_value (grid_1x1x3 [2; -4; 1]%float) (-250)
    = Ok (PyFloat v) /\
    min_value (grid_1x1x3 [2; -4; 1]%float) = Ok lo /\
    max_value (grid_1x1x3 [2; -4; 1]%float) = Ok hi /\
    (lo <=? v)%float = true /\ (v <=? hi)%float = true.
Proof.
  apply (threshold_within_extrema (grid_1x1x3 [2; -4; 1]%float) (-250)).
  - discriminate.
  - intros x [<-|[<-|[<-|[]]]]; reflexivity.
  - vm_compute. reflexivity.
Defined.

(** X13: a NaN among the values of a grid makes the threshold a NaN, for
    every coverage that is not 100 or more: the target is a NaN, no running
    sum reaches it, and the value at the last sorted index is a NaN. *)
Theorem nan_gives_nan_threshold (g : CubeFile) (x p : float) :
  In x (data g) -> is_nan x = true -> (100 <=? p)%float = false ->
  exists v, isosurface_threshold_value g p = Ok (PyFloat v) /\
            is_nan v = true.
Proof.
  intros Hx Hn Hp.
  assert (Hsum : is_nan (summed_data g) = true).
  { destruct (is_nan (summed_data g)) eqn:E; [reflexivity|].
    apply sum_nan_free in E. rewrite (E x Hx) in Hn. discriminate. }
  assert (Ht : is_nan (target_sum g p) = true).
  { unfold target_sum. apply div_nan_l, mul_nan_l, Hsum. }
  rewrite (threshold_below_100 g p Hp).
  rewrite (walk_nan_target _ _ _ _ Ht).
  pose proof (sorted_values_descending (data g)) as Hs.
  pose proof (sorted_values_perm (data g)) as Hperm.
  fold (descending g) in Hs, Hperm.
  apply (Permutation_in _ (Permutation_sym Hperm)) in Hx.
  destruct (descending g) as [|v rest]; [destruct Hx|].
  exists v. split; [reflexivity|].
  destruct Hx as [->|Hx]; [exact Hn|].
  apply StronglySorted_inv in Hs as [_ Hs]. rewrite Forall_forall in Hs.
  specialize (Hs x Hx). unfold NumPy.lt in Hs.
  apply orb_false_iff in Hs as [_ Hs]. rewrite Hn, andb_true_r in Hs.
  apply negb_false_iff, Hs.
Qed.

Lemma nan_gives_nan_threshold_witness :
  exists v,
    isosurface_threshold_value (grid_1x1x3 [2; nan; 1]%float) 50
    = Ok (PyFloat v) /\ is_nan v = true.
Proof.
  apply (nan_gives_nan_threshold (grid_1x1x3 [2; nan; 1]%float) nan 50).
  - simpl. auto.
  - reflexivity.
  - vm_compute. reflexivity.
Defined.



(** X15: on a grid with data and without NaN, the threshold for the
    coverage 0 is what [max_value] returns, whatever the sum of the grid. *)
Theorem zero_coverage_gives_largest (g : CubeFile) (p : float) :
  data g <> [] -> nan_free (data g) -> (p =? 0)%float = true ->
  exists v m,
    isosurface_threshold_value g p = Ok (PyFloat v) /\
    max_value g = Ok m /\ (v =? m)%float = true.
Proof.
  intros Hne Hnan Hp.
  destruct (first_value_when_target_nonpositive g p Hne Hnan
              (zero_below_100 p Hp)
              (target_zero_coverage (summed_data g) p Hp))
    as [v [Hv Hhead]].
  destruct (first_value_is_max g v Hne Hnan Hhead) as [m [Hm Hvm]].
  exists v, m. auto.
Qed.

Lemma zero_coverage_gives_largest_witness :
  exists v m,
    isosurface_threshold_value (grid_1x1x3 [2; -4; 1]%float) 0
    = Ok (PyFloat v) /\
    max_value (grid_1x1x3 [2; -4; 1]%float) = Ok m /\
    (v =? m)%float = true.
Proof.
  apply (zero_coverage_gives_largest (grid_1x1x3 [2; -4; 1]%float) 0).
  - discriminate.
  - intros x [<-|[<-|[<-|[]]]]; reflexivity.
  - vm_compute. reflexivity.
Defined.

(** ** The largest value alone *)

Section FirstStep.

Local Open Scope float_scope.


End FirstStep.



(** ** The volume *)

Section Volume.

Local Open Scope float_scope.

Lemma SFsqrt_nonneg (x : spec_float) :
  SFnonneg (SF64sqrt x) = true \/ SF64sqrt x = S754_nan.
Proof.
  destruct x as [s|[]| |[] m e]; simpl; auto.
  left. unfold SF64sqrt, SFsqrt.
  destruct (SFsqrt_core_binary prec emax (Zpos m) e) as [[mz ez] lz] eqn:E.
  apply binary_round_aux_nonneg.
  unfold SFsqrt_core_binary in E.
  match type of E with
  | context [Z.sqrtrem ?a] =>
      pose proof (Z.sqrtrem_sqrt a) as Hq;
      destruct (Z.sqrtrem a) as [q r]
  end.
  simpl in Hq. injection E as <- _ _. rewrite Hq. apply Z.sqrt_nonneg.
Qed.

Lemma norm_nonneg (v : vec3) :
  is_nan (NumPy.norm v) = true \/ (0 <=? NumPy.norm v) = true.
Proof.
  destruct v as [[a b] c]. unfold NumPy.norm.
  rewrite is_nan_spec, leb_zero_nonneg, sqrt_spec.
  destruct (SFsqrt_nonneg (Prim2SF (a * a + b * b + c * c))); auto.
Qed.

Lemma mul_nonneg (x y : float) :
  is_nan x = true \/ (0 <=? x) = true ->
  is_nan y = true \/ (0 <=? y) = true ->
  is_nan (x * y) = true \/ (0 <=? x * y) = true.
Proof.
  rewrite !is_nan_spec, !leb_zero_nonneg, mul_spec.
  intros [->|Hx]; [left; reflexivity|].
  intros [->|Hy].
  - left. destruct (Prim2SF x) as [s|s| |s m e]; reflexivity.
  - destruct (SFmul_nonneg _ _ Hx Hy); auto.
Qed.

End Volume.

(** X17: [volume] is never negative: it returns a number that is at least
    zero, or a NaN. *)
Theorem volume_not_negative (g : CubeFile) :
  is_nan (volume g) = true \/ (0 <=? volume g)%float = true.
Proof.
  unfold volume.
  apply mul_nonneg; [apply mul_nonneg|]; apply norm_nonneg.
Qed.

(** ** A grid without data *)

(** X18: on a grid without data the four extrema raise [ValueError], both
    sums are 0, and the threshold raises [IndexError] for every coverage that
    is not 100 or more and is the integer 0 otherwise. *)
Theorem analysers_on_empty_data (g : CubeFile) (p : float) :
  data g = [] ->
  min_value g = Raise ValueError /\ max_value g = Raise ValueError /\
  abs_min_value g = Raise ValueError /\ abs_max_value g = Raise ValueError /\
  summed_data g = 0%float /\ abs_summed_data g = 0%float /\
  isosurface_threshold_value g p =
  if (100 <=? p)%float then Ok (PyInt 0) else Raise IndexError.
Proof.
  intro E.
  unfold min_value, max_value, abs_min_value, abs_max_value, summed_data,
    abs_summed_data, isosurface_threshold_value.
  rewrite E. repeat split.
Qed.

Lemma analysers_on_empty_data_witness :
  exists g,
    load_from NumPy.Raises cube_0x1x1 = Ok g /\
    min_value g = Raise ValueError /\
    isosurface_threshold_value g 90 = Raise IndexError.
Proof.
  assert (H : exists g, load_from NumPy.Raises cube_0x1x1 = Ok g
                        /\ data g = [])
    by (eexists; split; vm_compute; reflexivity).
  destruct H as [g [H E]]. exists g. split; [exact H|].
  pose proof (analysers_on_empty_data g 90 E) as [Hmin [_ [_ [_ [_ [_ Ht]]]]]].
  split; [exact Hmin | exact Ht].
Defined.

(** ** The coverage that [main] passes on *)

Section IntToFloat.

Local Open Scope Z_scope.

(** Rounding an integer gives a number of the format with the sign of the
    integer. *)
Lemma binary_round_rounds_to (s : bool) (mx : positive) (ex : Z) :
  exists r E, rounds_to s r E (binary_round prec emax s mx ex).
Proof.
  unfold binary_round.
  pose proof (shl_align_spec mx ex
                (fexp prec emax (Zpos (digits2_pos mx) + ex))) as [He Hm].
  destruct (shl_align mx ex (fexp prec emax (Zpos (digits2_pos mx) + ex)))
    as [mz ez].
  cbn [fst snd] in He, Hm.
  assert (Hdeep : ez <= fexp prec emax (Zdigits2 (Zpos mz) + ez)).
  { pose proof (digits2_pos_bounds mx) as [Hlo _].
    set (d := Zpos (digits2_pos mx)) in *.
    assert (Hd : 1 <= d) by (unfold d; lia).
    assert (Hk : 0 <= ex - ez) by lia.
    assert (Hq : 2 ^ (d - 1 + (ex - ez)) <= Zpos mz).
    { rewrite Hm, Z.pow_add_r by lia. rewrite <- He.
      apply Z.mul_le_mono_nonneg_r; [|exact Hlo].
      apply Z.lt_le_incl, pow2_pos. lia. }
    apply Zdigits2_lower in Hq; [|lia].
    apply Z.le_trans with (fexp prec emax (d + ex)); [lia|].
    apply fexp_mono. lia. }
  destruct (round_value s (Zpos mz) ez loc_Exact ltac:(lia) Hdeep)
    as [_ [_ [_ [_ H]]]].
  eauto.
Qed.

Lemma rounds_to_valid (s : bool) (r E : Z) (x : spec_float) :
  rounds_to s r E x ->
  valid_binary x = true /\
  match x with
  | S754_zero s' | S754_infinity s' | S754_finite s' _ _ => s' = s
  | S754_nan => False
  end.
Proof.
  destruct x as [s'|s'| |s' m e]; cbn [rounds_to].
  - intros [-> _]. split; reflexivity.
  - intros [-> _]. split; reflexivity.
  - intros [].
  - intros [-> [Hc [_ [_ Hb]]]]. split; [|reflexivity].
    simpl. unfold bounded. rewrite Hc. apply Z.leb_le in Hb. rewrite Hb.
    reflexivity.
Qed.

Lemma int_to_float_spec (z : Z) (p : float) :
  int_to_float z = Some p ->
  Prim2SF p = binary_normalize prec emax z 0 false.
Proof.
  unfold int_to_float. destruct (is_infinity _); [discriminate|].
  intro H. injection H as <-. apply Prim2SF_SF2Prim.
  destruct z as [|q|q]; [reflexivity| |]; simpl.
  - destruct (binary_round_rounds_to false q 0) as [r [E H]].
    apply (rounds_to_valid _ _ _ _ H).
  - destruct (binary_round_rounds_to true q 0) as [r [E H]].
    apply (rounds_to_valid _ _ _ _ H).
Qed.

(** An integer below 100 is a [float] below 100. *)
Lemma int_to_float_below_100 (c : Z) (p : float) :
  int_to_float c = Some p -> c < 100 -> (100 <=? p)%float = false.
Proof.
  intros Hp Hc.
  destruct (Z_le_gt_dec c 0) as [Hneg|Hpos].
  - apply int_to_float_spec in Hp. rewrite leb_spec, Hp.
    change (Prim2SF 100) with (S754_finite false 7036874417766400 (-46)).
    destruct c as [|q|q]; [reflexivity | lia |]. simpl.
    destruct (binary_round_rounds_to true q 0) as [r [E H]].
    apply rounds_to_valid in H as [_ H].
    destruct (binary_round prec emax true q 0) as [s'|s'| |s' m e];
      try contradiction; subst s'; reflexivity.
  - assert (Hall : forallb
                     (fun n => match int_to_float (Z.of_nat n) with
                               | Some q => negb (100 <=? q)%float
                               | None => true
                               end) (seq 1 99) = true)
      by (vm_compute; reflexivity).
    rewrite forallb_forall in Hall.
    specialize (Hall (Z.to_nat c)). rewrite Z2Nat.id in Hall by lia.
    rewrite Hp in Hall. apply negb_true_iff, Hall.
    apply in_seq. lia.
Qed.

End IntToFloat.

(** ** [main] *)

Section MainFacts.

Variable format_e : bool -> nat -> float -> string.
Variable format_d : Z -> string.

Lemma prints_all (l : list string) (rest : list (string + ending)) :
  prints (map inl l ++ rest)%list
  = (l ++ fst (prints rest), snd (prints rest))%list.
Proof.
  induction l as [|s l IH]; simpl.
  - destruct (prints rest); reflexivity.
  - rewrite IH. reflexivity.
Qed.

(** On a grid with data every line of the summary is printed. *)
Lemma info_on_data (path : string) (g : CubeFile) :
  data g <> [] ->
  exists l, info format_e path g = map inl l /\ List.length l = 7%nat.
Proof.
  intro Hne. unfold info, min_value, abs_min_value, max_value, abs_max_value.
  assert (Habs : NumPy.abs (data g) <> []).
  { unfold NumPy.abs. destruct (data g); [congruence | discriminate]. }
  destruct (min_max_ok _ Hne) as [[mn ->] [mx ->]].
  destruct (min_max_ok _ Habs) as [[amn ->] [amx ->]].
  simpl. eexists [_; _; _; _; _; _; _]. split; reflexivity.
Qed.

(** On a grid without data the first number of the summary raises. *)
Lemma info_without_data (path : string) (g : CubeFile)
      (rest : list (string + ending)) :
  data g = [] ->
  prints (info format_e path g ++ rest)%list
  = (["Summary for cube file '" ++ path ++ "':"], Uncaught ValueError).
Proof.
  intro E. unfold info, min_value. rewrite E. reflexivity.
Qed.

Lemma threshold_of_int_on_data (g : CubeFile) (c : Z) :
  data g <> [] -> ((c < 100)%Z -> int_to_float c <> None) ->
  exists v, isosurface_threshold_value_of_int g c = inl v.
Proof.
  intros Hne Hc. unfold isosurface_threshold_value_of_int.
  destruct (Z.leb_spec 100 c) as [H|H]; [eauto|].
  destruct (int_to_float c) as [p|]; [|destruct (Hc H); reflexivity].
  destruct (threshold_ok g p Hne) as [v ->]. eauto.
Qed.

Lemma threshold_of_int_without_data (g : CubeFile) (c : Z) :
  data g = [] -> (c < 100)%Z -> int_to_float c <> None ->
  isosurface_threshold_value_of_int g c = inr (Uncaught IndexError).
Proof.
  intros E Hc Hp. unfold isosurface_threshold_value_of_int.
  destruct (Z.leb_spec 100 c) as [H|_]; [lia|].
  destruct (int_to_float c) as [p|] eqn:Ep; [|congruence].
  unfold isosurface_threshold_value.
  rewrite (int_to_float_below_100 c p Ep Hc), E. reflexivity.
Qed.

End MainFacts.

(** X19: for a file that parses to a grid with data, [main] prints and
    returns, whatever the options, as long as the coverage is an integer that
    a [float] can hold: seven strings for [--print-info], and one for
    [--calc-iso-value] unless its value is 0, which is taken like an absent
    option. *)
Theorem main_returns_on_grid_with_data
        (format_e : bool -> nat -> float -> string) (format_d : Z -> string)
        (np : NumPy.unread_text) (text : string) (args : Namespace)
        (g : CubeFile) :
  load_from np text = Ok g -> data g <> [] ->
  (forall c, calc_iso_value args = Some c -> (c < 100)%Z ->
             int_to_float c <> None) ->
  exists out,
    main format_e format_d np text args = (out, Returns) /\
    List.length out =
    ((if print_info args then 7 else 0)
     + match calc_iso_value args with
       | Some c => if (c =? 0)%Z then 0 else 1
       | None => 0
       end)%nat.
Proof.
  intros Hload Hne Hc. unfold main. rewrite Hload.
  assert (Hinfo : exists l,
             (if print_info args then info format_e (cube_file args) g
              else []) = map inl l
             /\ List.length l = if print_info args then 7%nat else 0%nat).
  { destruct (print_info args).
    - apply info_on_data, Hne.
    - exists []. split; reflexivity. }
  destruct Hinfo as [l [-> Hl]]. rewrite prints_all.
  destruct (calc_iso_value args) as [c|].
  - destruct (c =? 0)%Z.
    + simpl. exists (l ++ [])%list. split; [reflexivity|].
      rewrite length_app, Hl. reflexivity.
    + destruct (threshold_of_int_on_data g c Hne (Hc c eq_refl)) as [v Hv].
      unfold iso_value. rewrite Hv. simpl.
      eexists. split; [reflexivity|]. rewrite length_app, Hl. reflexivity.
  - simpl. exists (l ++ [])%list. split; [reflexivity|].
    rewrite length_app, Hl. reflexivity.
Qed.

Lemma main_returns_on_grid_with_data_witness :
  exists out,
    main (fun _ _ _ => EmptyString) (fun _ => EmptyString) NumPy.Raises
         cube_1x1x2
         {| cube_file := "grid.cube"; print_info := true;
            calc_iso_value := Some 90%Z |}
    = (out, Returns) /\ List.length out = 8%nat.
Proof.
  apply (main_returns_on_grid_with_data
           (fun _ _ _ => EmptyString) (fun _ => EmptyString) NumPy.Raises
           cube_1x1x2
           {| cube_file := "grid.cube"; print_info := true;
              calc_iso_value := Some 90%Z |} grid_1x1x2).
  - vm_compute. reflexivity.
  - discriminate.
  - intros c Hc _. injection Hc as <-. vm_compute. discriminate.
Defined.

(** X20: for a file that parses to a grid without data, [main] with
    [--print-info] prints the first line of the summary and ends with the
    [ValueError] of [min_value], whatever the other option; without
    [--print-info], a coverage below 100 that is not 0 ends it with the
    [IndexError] of the threshold, nothing being printed. *)
Theorem main_on_grid_without_data
        (format_e : bool -> nat -> float -> string) (format_d : Z -> string)
        (np : NumPy.unread_text) (text : string) (args : Namespace)
        (g : CubeFile) :
  load_from np text = Ok g -> data g = [] ->
  (print_info args = true ->
   main format_e format_d np text args
   = (["Summary for cube file '" ++ cube_file args ++ "':"],
      Uncaught ValueError)) /\
  (print_info args = false ->
   forall c, calc_iso_value args = Some c ->
             c <> 0%Z -> (c < 100)%Z -> int_to_float c <> None ->
             main format_e format_d np text args
             = ([], Uncaught IndexError)).
Proof.
  intros Hload E. unfold main. rewrite Hload. split.
  - intros ->. apply info_without_data, E.
  - intros -> c -> Hc0 Hc Hp.
    apply Z.eqb_neq in Hc0. rewrite Hc0. simpl.
    unfold iso_value.
    rewrite (threshold_of_int_without_data g c E Hc Hp). reflexivity.
Qed.

Lemma main_on_grid_without_data_witness :
  main (fun _ _ _ => EmptyString) (fun _ => EmptyString) NumPy.Raises
       cube_0x1x1
       {| cube_file := "grid.cube"; print_info := true;
          calc_iso_value := None |}
  = (["Summary for cube file 'grid.cube':"], Uncaught ValueError) /\
  main (fun _ _ _ => EmptyString) (fun _ => EmptyString) NumPy.Raises
       cube_0x1x1
       {| cube_file := "grid.cube"; print_info := false;
          calc_iso_value := Some 90%Z |}
  = ([], Uncaught IndexError).
Proof.
  assert (H : exists g, load_from NumPy.Raises cube_0x1x1 = Ok g
                        /\ data g = [])
    by (eexists; split; vm_compute; reflexivity).
  destruct H as [g [H E]].
  split.
  - apply (proj1 (main_on_grid_without_data _ _ _ _
             {| cube_file := "grid.cube"; print_info := true;
                calc_iso_value := None |} g H E)).
    reflexivity.
  - apply (proj2 (main_on_grid_without_data _ _ _ _
             {| cube_file := "grid.cube"; print_info := false;
                calc_iso_value := Some 90%Z |} g H E)
             eq_refl 90%Z eq_refl); [lia | lia |].
    vm_compute. discriminate.
Defined.

(** X21: for a file that parses, [main] without [--print-info] and with a
    coverage of 100 or more prints one string that does not depend on the
    grid: the threshold in it is that of the integer 0, also for a grid
    without data. *)
Theorem main_full_coverage
        (format_e : bool -> nat -> float -> string) (format_d : Z -> string)
        (np : NumPy.unread_text) (text : string) (args : Namespace)
        (g : CubeFile) (c : Z) :
  load_from np text = Ok g ->
  print_info args = false -> calc_iso_value args = Some c -> (100 <= c)%Z ->
  main format_e format_d np text args
  = (["To create an isosurface enclosing " ++ format_d c
      ++ "% of the contained property, use a threshold of"
      ++ String newline (format_e false 4 0%float)], Returns).
Proof.
  intros Hload Hinfo Hcalc Hc. unfold main.
  rewrite Hload, Hinfo, Hcalc.
  destruct (Z.eqb_spec c 0) as [->|_]; [lia|].
  unfold iso_value, isosurface_threshold_value_of_int.
  destruct (Z.leb_spec 100 c) as [_|H]; [reflexivity | lia].
Qed.

Lemma main_full_coverage_witness :
  main (fun _ _ _ => "0.0000e+00") (fun _ => "100") NumPy.Raises cube_0x1x1
       {| cube_file := "grid.cube"; print_info := false;
          calc_iso_value := Some 100%Z |}
  = (["To create an isosurface enclosing 100"
      ++ "% of the contained property, use a threshold of"
      ++ String newline "0.0000e+00"], Returns).
Proof.
  assert (H : exists g, load_from NumPy.Raises cube_0x1x1 = Ok g)
    by (eexists; vm_compute; reflexivity).
  destruct H as [g H].
  apply (main_full_coverage (fun _ _ _ => "0.0000e+00") (fun _ => "100")
           NumPy.Raises cube_0x1x1
           {| cube_file := "grid.cube"; print_info := false;
              calc_iso_value := Some 100%Z |} g 100 H);
    [reflexivity | reflexivity | lia].
Defined.
